(** * Sales dashboard: normalisation and geo-aggregation (utils.py)

    A shallow embedding of [_to_number], [_extract_latlon],
    [load_sales_csv] and [aggregate_geo_clusters], and the properties of
    the specification checked against them. Further properties of these
    functions, and of the dashboard code that aggregates the clusters
    (app.py), follow them.

    Python [str] values are byte strings (UTF-8); Python floats are an
    abstract type [F] with the operations the code uses, instantiated
    below by IEEE binary64 ([Binary64]) and by exact rationals ([Exact]).
    Pandas cells are [option]/[cell] values where the missing value stands
    for [None], [NaN], [NaT] and [pd.NA]. *)

From Stdlib Require Import ZArith NArith QArith Qcanon Floats Ascii String Sorted Permutation.
From stdpp Require Import gmap strings list fin_maps sorting.

Open Scope string_scope.
Open Scope list_scope.

(** ** Python string primitives *)

Module PyStr.

(** [str.isspace] on the ASCII range: tab, LF, VT, FF, CR, FS, GS, RS,
    US and space. The whitespace Unicode has beyond ASCII (no-break
    space and the like) is not recognised here. *)
Definition is_space (c : ascii) : bool :=
  let n := nat_of_ascii c in
  ((9 <=? n)%nat && (n <=? 13)%nat) || ((28 <=? n)%nat && (n <=? 32)%nat).

Fixpoint lstrip (s : string) : string :=
  match s with
  | String c s' => if is_space c then lstrip s' else s
  | EmptyString => EmptyString
  end.

Fixpoint rstrip (s : string) : string :=
  match s with
  | String c s' =>
      match rstrip s' with
      | EmptyString => if is_space c then EmptyString else String c EmptyString
      | t => String c t
      end
  | EmptyString => EmptyString
  end.

(** [s.strip()] *)
Definition strip (s : string) : string := rstrip (lstrip s).

(** Scan [s] left to right; [skip] counts the characters of the match
    in progress that are still to be dropped. *)
Fixpoint replace_from (old new : string) (skip : nat) (s : string) : string :=
  match s with
  | EmptyString => EmptyString
  | String c s' =>
      match skip with
      | S k => replace_from old new k s'
      | O =>
          if String.prefix old s
          then new +:+ replace_from old new (String.length old - 1) s'
          else String c (replace_from old new 0 s')
      end
  end.

(** [s.replace(old, new)] for a non-empty [old]. *)
Definition replace (old new s : string) : string := replace_from old new 0 s.

Fixpoint count_from (sub : string) (skip : nat) (s : string) : nat :=
  match s with
  | EmptyString => 0
  | String c s' =>
      match skip with
      | S k => count_from sub k s'
      | O =>
          if String.prefix sub s
          then S (count_from sub (String.length sub - 1) s')
          else count_from sub 0 s'
      end
  end.

(** [s.count(sub)] for a non-empty [sub]: non-overlapping occurrences. *)
Definition count (sub s : string) : nat := count_from sub 0 s.

(** [sub in s] *)
Definition contains (sub s : string) : bool := negb (count sub s =? 0)%nat.

(** [s.split(sep)] for a one-character separator: the fields, empty
    ones included. *)
Fixpoint split_on (sep : ascii) (s : string) : list string :=
  match s with
  | EmptyString => [EmptyString]
  | String c s' =>
      if Ascii.eqb c sep then EmptyString :: split_on sep s'
      else match split_on sep s' with
           | f :: fs => String c f :: fs
           | [] => [String c EmptyString]
           end
  end.

(** [s.split()]: maximal runs of non-whitespace characters. *)
Fixpoint split_ws_from (cur : string) (s : string) : list string :=
  match s with
  | EmptyString => match cur with EmptyString => [] | _ => [cur] end
  | String c s' =>
      if is_space c
      then match cur with
           | EmptyString => split_ws_from EmptyString s'
           | _ => cur :: split_ws_from EmptyString s'
           end
      else split_ws_from (cur +:+ String c EmptyString) s'
  end.

Definition split_ws (s : string) : list string := split_ws_from EmptyString s.

End PyStr.

(** ** Python floats

    The operations of [float] that the code relies on.  [isnan] tells the
    not-a-number apart, [feqb] and [fltb] are [==] and [<],
    [pyround x n] is [round(x, n)] ([None] when it raises
    [OverflowError]) and [float_of_string s] is [float(s)] on a string
    ([None] when it raises [ValueError]). *)

Class PyFloatOps (F : Type) : Type := {
  f0 : F;
  fadd : F -> F -> F;
  fsub : F -> F -> F;
  fdiv : F -> F -> F;
  feqb : F -> F -> bool;
  fltb : F -> F -> bool;
  isnan : F -> bool;
  of_nat : nat -> F;
  pyround : F -> Z -> option F;
  float_of_string : string -> option F
}.

Section Parsing.

Context {F : Type} `{PyFloatOps F}.

(** What the helpers receive: [None], a float, or a string. *)
Inductive pyval : Type :=
| PyNone
| PyFloat (x : F)
| PyStr (s : string).

(** [pd.isna] on a scalar. *)
Definition pd_isna (v : pyval) : bool :=
  match v with
  | PyNone => true
  | PyFloat x => isnan x
  | PyStr _ => false
  end.

Definition currency_markers : list string :=
  ["$"; "US$"; "Bs"; "Bs."; "€"; "¢"].

(** The text handed to [float] by [_to_number] for a string argument. *)
Definition normalise_number_text (s : string) : string :=
  let s := PyStr.strip s in
  let s := fold_left (fun s ch => PyStr.replace ch "" s) currency_markers s in
  let s := PyStr.replace " " "" s in
  if (PyStr.count "," s =? 1)%nat && (0 <? PyStr.count "." s)%nat
  then PyStr.replace "," "." (PyStr.replace "." "" s)
  else if (PyStr.count "," s =? 1)%nat && (PyStr.count "." s =? 0)%nat
       then PyStr.replace "," "." s
       else PyStr.replace "," "" s.

(** [_to_number]: [None] is Python's [None]. *)
Definition _to_number (s : pyval) : option F :=
  if pd_isna s then None
  else match s with
       | PyStr s => float_of_string (normalise_number_text s)
       | PyFloat x => Some x
       | PyNone => None
       end.

(** [_extract_latlon] *)
Definition _extract_latlon (val : pyval) : option F * option F :=
  match val with
  | PyStr val =>
      if negb (PyStr.contains "," val) then (None, None)
      else
        let first_try :=
          match PyStr.split_on "," val with
          | [lat_str; lon_str] =>
              match float_of_string lat_str, float_of_string lon_str with
              | Some lat, Some lon => Some (lat, lon)
              | _, _ => None
              end
          | _ => None
          end in
        match first_try with
        | Some (lat, lon) => (Some lat, Some lon)
        | None =>
            match PyStr.split_ws val with
            | p0 :: p1 :: _ =>
                match float_of_string p0, float_of_string p1 with
                | Some lat, Some lon => (Some lat, Some lon)
                | _, _ => (None, None)
                end
            | _ => (None, None)
            end
        end
  | _ => (None, None)
  end.

End Parsing.

Arguments pyval F : clear implicits.

(** ** The syntax accepted by [float(str)]

    After stripping whitespace: an optional sign followed by [inf],
    [infinity] or [nan] in any letter case, or by a decimal literal whose
    digit groups may be separated by single underscores. Digits and
    whitespace are the ASCII ones; the decimal digits of other scripts,
    which Python reads too, are not recognised here. *)

Module FloatSyntax.

Inductive literal : Type :=
| LitNan
| LitInf (neg : bool)
| LitDec (neg : bool) (m : N) (e : Z).   (* (-1)^neg * m * 10^e *)

Definition digit_of (c : ascii) : option N :=
  let n := N_of_ascii c in
  if ((48 <=? n) && (n <=? 57))%N then Some (n - 48)%N else None.

Definition lower (c : ascii) : ascii :=
  let n := nat_of_ascii c in
  if ((65 <=? n) && (n <=? 90))%nat then ascii_of_nat (n + 32) else c.

Fixpoint lowercase (s : string) : string :=
  match s with
  | EmptyString => EmptyString
  | String c s' => String (lower c) (lowercase s')
  end.

(** Reads [digit (["_"] digit)*]; [prev] tells that the character just
    consumed was a digit. Returns the value, the number of digits and
    the remaining text. *)
Fixpoint digitpart (acc : N) (n : nat) (prev : bool) (s : string)
  : option (N * nat * string) :=
  match s with
  | EmptyString => if prev then Some (acc, n, s) else None
  | String c s' =>
      match digit_of c with
      | Some d => digitpart (10 * acc + d)%N (S n) true s'
      | None =>
          if Ascii.eqb c "_"
          then (if prev then digitpart acc n false s' else None)
          else (if prev then Some (acc, n, s) else None)
      end
  end.

Definition starts_with_digit (s : string) : bool :=
  match s with
  | String c _ => match digit_of c with Some _ => true | None => false end
  | EmptyString => false
  end.

Definition sign_of (s : string) : bool * string :=
  match s with
  | String "-" s' => (true, s')
  | String "+" s' => (false, s')
  | _ => (false, s)
  end.

(** The exponent part, if any; the text must end after it. *)
Definition exponent (s : string) : option Z :=
  match s with
  | EmptyString => Some 0%Z
  | String c s' =>
      if Ascii.eqb (lower c) "e"
      then let '(neg, s'') := sign_of s' in
           match digitpart 0 0 false s'' with
           | Some (v, _, EmptyString) =>
               Some (if neg then (- Z.of_N v)%Z else Z.of_N v)
           | _ => None
           end
      else None
  end.

Definition decimal (neg : bool) (s : string) : option literal :=
  match s with
  | String "." s' =>
      match digitpart 0 0 false s' with
      | Some (fr, nfr, rest) =>
          match exponent rest with
          | Some e => Some (LitDec neg fr (e - Z.of_nat nfr))
          | None => None
          end
      | None => None
      end
  | _ =>
      match digitpart 0 0 false s with
      | Some (ip, _, String "." rest) =>
          if starts_with_digit rest
          then match digitpart ip 0 false rest with
               | Some (m, nfr, rest') =>
                   match exponent rest' with
                   | Some e => Some (LitDec neg m (e - Z.of_nat nfr))
                   | None => None
                   end
               | None => None
               end
          else match exponent rest with
               | Some e => Some (LitDec neg ip e)
               | None => None
               end
      | Some (ip, _, rest) =>
          match exponent rest with
          | Some e => Some (LitDec neg ip e)
          | None => None
          end
      | None => None
      end
  end.

Definition parse (s : string) : option literal :=
  let '(neg, body) := sign_of (PyStr.strip s) in
  let word := lowercase body in
  if String.eqb word "nan" then Some LitNan
  else if String.eqb word "inf" || String.eqb word "infinity" then Some (LitInf neg)
  else decimal neg body.

End FloatSyntax.

(** ** IEEE binary64 floats *)

Module Binary64.

Import FloatSyntax.

(** The binary64 nearest (ties to even) to [p/q]: the quotient is taken
    with enough extra bits and a sticky bit, then rounded once. *)
Definition round_ratio (neg : bool) (p q : positive) : spec_float :=
  let s := Z.max 0 (Z.min 1080 (58 + Z.log2 (Zpos q) - Z.log2 (Zpos p))) in
  let n := (Zpos p * 2 ^ s / Zpos q)%Z in
  let r := (Zpos p * 2 ^ s mod Zpos q)%Z in
  let m := (2 * n + (if (r =? 0)%Z then 0 else 1))%Z in
  match m with
  | Zpos m => binary_round prec emax neg m (- s - 1)
  | _ => S754_zero neg
  end.

(** The binary64 nearest to [(-1)^neg * m * 10^e]. *)
Definition of_decimal (neg : bool) (m : N) (e : Z) : spec_float :=
  match m with
  | N0 => S754_zero neg
  | Npos p =>
      if (310 <? e)%Z then S754_infinity neg
      else if (Z.log2 (Zpos p) + 1 + e <? -330)%Z then S754_zero neg
      else match e with
           | Zneg k => round_ratio neg p (10 ^ k)%positive
           | Z0 => round_ratio neg p 1
           | Zpos k => round_ratio neg (p * 10 ^ k)%positive 1
           end
  end.

Definition of_string (s : string) : option float :=
  match parse s with
  | Some LitNan => Some PrimFloat.nan
  | Some (LitInf neg) => Some (if neg then PrimFloat.neg_infinity else PrimFloat.infinity)
  | Some (LitDec neg m e) => Some (SF2Prim (of_decimal neg m e))
  | None => None
  end.

(** Nearest integer to [a/b], ties to even, for [a >= 0] and [b > 0]. *)
Definition div_half_even (a b : Z) : Z :=
  let q := (a / b)%Z in
  let r := (a mod b)%Z in
  match (2 * r ?= b)%Z with
  | Lt => q
  | Gt => (q + 1)%Z
  | Eq => if Z.even q then q else (q + 1)%Z
  end.

(** [round(x, n)] of CPython: outside [-308 .. 323] digits the result is
    a signed zero or [x]; inside, the exact value of [x] is rounded to
    [n] decimals (ties to even) and the decimal converted back. *)
Definition round (x : float) (n : Z) : option float :=
  match Prim2SF x with
  | S754_finite neg m e =>
      if (323 <? n)%Z then Some x
      else if (n <? -308)%Z then Some (if neg then PrimFloat.neg_zero else PrimFloat.zero)
      else
        let num := (Zpos m * (if (0 <=? e)%Z then 2 ^ e else 1)
                           * (if (0 <=? n)%Z then 10 ^ n else 1))%Z in
        let den := ((if (0 <=? e)%Z then 1 else 2 ^ (- e))
                    * (if (0 <=? n)%Z then 1 else 10 ^ (- n)))%Z in
        let r := div_half_even num den in
        match of_decimal neg (Z.to_N r) (- n) with
        | S754_infinity _ => None
        | y => Some (SF2Prim y)
        end
  | _ => Some x
  end.

(** Where a float that is a number stands: negative infinity, negative
finite values, zeros, positive finite values, positive infinity; finite
values are told apart by exponent, then by mantissa. *)
Definition rank (f : spec_float) : option (Z * Z * Z) :=
  match f with
  | S754_nan => None
  | S754_infinity true => Some (0, 0, 0)%Z
  | S754_finite true m e => Some (1, - e, Zneg m)%Z
  | S754_zero _ => Some (2, 0, 0)%Z
  | S754_finite false m e => Some (3, e, Zpos m)%Z
  | S754_infinity false => Some (4, 0, 0)%Z
  end.

Definition lexcmp (r1 r2 : Z * Z * Z) : comparison :=
  match (fst (fst r1) ?= fst (fst r2))%Z with
  | Eq => match (snd (fst r1) ?= snd (fst r2))%Z with
          | Eq => (snd r1 ?= snd r2)%Z
          | c => c
          end
  | c => c
  end.

#[global] Instance ops : PyFloatOps float := {|
  f0 := PrimFloat.zero;
  fadd := PrimFloat.add;
  fsub := PrimFloat.sub;
  fdiv := PrimFloat.div;
  feqb := PrimFloat.eqb;
  fltb := PrimFloat.ltb;
  isnan := PrimFloat.is_nan;
  of_nat := fun n => PrimFloat.of_uint63 (Uint63.of_Z (Z.of_nat n));
  pyround := round;
  float_of_string := of_string
|}.

End Binary64.

(** ** Exact arithmetic

    Floats idealised as rational numbers: no rounding error, no overflow,
    no infinities and no not-a-number. *)

Module Exact.

Import FloatSyntax.

Definition of_Z (z : Z) : Qc := Q2Qc (inject_Z z).

Definition pow10 (n : Z) : Qc :=
  match n with
  | Zneg k => Q2Qc (1 # (10 ^ k))
  | _ => of_Z (10 ^ n)
  end.

Definition of_string (s : string) : option Qc :=
  match parse s with
  | Some (LitDec neg m e) =>
      let v := (of_Z (Z.of_N m) * pow10 e)%Qc in
      Some (if neg then (- v)%Qc else v)
  | _ => None
  end.

(** Nearest integer, ties to even. *)
Definition nearest_even (x : Qc) : Z :=
  let num := Qnum (this x) in
  let den := Zpos (Qden (this x)) in
  let q := (num / den)%Z in
  match (2 * (num mod den) ?= den)%Z with
  | Lt => q
  | Gt => (q + 1)%Z
  | Eq => if Z.even q then q else (q + 1)%Z
  end.

Definition round (x : Qc) (n : Z) : option Qc :=
  Some (of_Z (nearest_even (x * pow10 n)%Qc) * pow10 (- n))%Qc.

#[global] Instance ops : PyFloatOps Qc := {|
  f0 := of_Z 0;
  fadd := Qcplus;
  fsub := Qcminus;
  fdiv := Qcdiv;
  feqb := Qc_eq_bool;
  fltb := fun x y => match (x ?= y)%Qc with Lt => true | _ => false end;
  isnan := fun _ => false;
  of_nat := fun n => of_Z (Z.of_nat n);
  pyround := round;
  float_of_string := of_string
|}.

End Exact.

(** ** Tables *)

Section Frames.

Context {F : Type} `{PyFloatOps F}.

(** A cell of a pandas frame. [NoneV] is the missing value; a geo
    cluster is a pair of rounded coordinates or [(None, None)]. *)
Inductive cell : Type :=
| NoneV
| Flt (x : F)
| Str (s : string)
| Bool (b : bool)
| Stamp (t : Z)
| Tup (a b : option F).

(** [isna] on a cell. *)
Definition isna (c : cell) : bool :=
  match c with
  | NoneV => true
  | Flt x => isnan x
  | _ => false
  end.

Definition opt_cell (o : option F) : cell :=
  match o with Some x => Flt x | None => NoneV end.

(** The frame built by [pd.read_csv(path, sep=';', dtype=str)] once the
    header names are stripped: every cell is a string or missing. *)
Record RawFrame : Type := {
  raw_rows : nat;
  raw_cols : gmap string (list (option string))
}.

Record DataFrame : Type := {
  nrows : nat;
  columns : gmap string (list cell)
}.

(** Every column spans the index. *)
Definition raw_wf (raw : RawFrame) : Prop :=
  forall name col, raw_cols raw !! name = Some col -> length col = raw_rows raw.

(** [df[name] = col] *)
Definition setcol (name : string) (col : list cell) (df : DataFrame) : DataFrame :=
  {| nrows := nrows df; columns := <[name := col]> (columns df) |}.

(** [df[name] = v] for a scalar [v] *)
Definition setconst (name : string) (v : cell) (df : DataFrame) : DataFrame :=
  setcol name (replicate (nrows df) v) df.

(** [df[i, name]]; a column that does not exist has no value. *)
Definition cell_at (df : DataFrame) (name : string) (i : nat) : option cell :=
  match columns df !! name with
  | Some col => col !! i
  | None => None
  end.

(** A cell of the file as [read_csv(..., dtype=str)] gives it. *)
Definition text_cell (c : option string) : cell :=
  match c with Some s => Str s | None => NoneV end.

Definition read_frame (raw : RawFrame) : DataFrame :=
  {| nrows := raw_rows raw;
     columns := map text_cell <$> raw_cols raw |}.

(** [a.fillna(b)] *)
Definition fillna (a b : list cell) : list cell :=
  zip_with (fun x y => if isna x then y else x) a b.

(** [astype(str)] on a column read as text: a missing cell prints as
    [nan]. The frame holds only strings and missing cells when it is
    applied. *)
Definition astype_str (c : cell) : string :=
  match c with
  | Str s => s
  | _ => "nan"
  end.

Definition numeric_cols : list string :=
  ["Unidades"; "VtaFacturada"; "Costo"; "ValVentaLi"].

Definition normalise_numeric (df : DataFrame) (col : string) : DataFrame :=
  match columns df !! col with
  | Some xs => setcol col (map (fun c => opt_cell (_to_number (PyStr (astype_str c)))) xs) df
  | None => df
  end.

(** [pd.to_datetime(column, dayfirst=True, errors='coerce')], as
    nanoseconds since the epoch; it works on the whole column. *)
Variable to_datetime : list (option string) -> list (option Z).

Definition cell_text (c : cell) : option string :=
  match c with Str s => Some s | _ => None end.

Definition parse_dates (df : DataFrame) : DataFrame :=
  match columns df !! "FechaVta" with
  | Some xs =>
      let df := setcol "FechaVta_raw" xs df in
      let parsed := map (fun o => match o with Some t => Stamp t | None => NoneV end)
                        (to_datetime (map cell_text xs)) in
      let df := setcol "FechaVta" parsed df in
      setcol "FechaVta_valid" (map (fun c => Bool (negb (isna c))) parsed) df
  | None => setconst "FechaVta_valid" (Bool false) df
  end.

(** [df[dst] = df[src] if src in df.columns else None] *)
Definition copy_or_none (src dst : string) (df : DataFrame) : DataFrame :=
  match columns df !! src with
  | Some xs => setcol dst xs df
  | None => setconst dst NoneV df
  end.

(** [df['revenue_default'] = df['revenue_vta'].fillna(df['revenue_val'])] *)
Definition default_revenue (df : DataFrame) : DataFrame :=
  match columns df !! "revenue_vta", columns df !! "revenue_val" with
  | Some vta, Some val => setcol "revenue_default" (fillna vta val) df
  | _, _ => df
  end.

(** The argument [_extract_latlon] gets after [fillna('')]. *)
Definition geo_arg (c : cell) : pyval F :=
  match c with
  | Str s => PyStr s
  | NoneV => PyStr ""
  | Flt x => if isnan x then PyStr "" else PyFloat x
  | _ => PyNone
  end.

Definition extract_coordinates (df : DataFrame) : DataFrame :=
  let df := setconst "lat" NoneV df in
  let df := setconst "lon" NoneV df in
  match columns df !! "Georeferenciado" with
  | Some xs =>
      let pairs := map (fun c => _extract_latlon (geo_arg c)) xs in
      let df := setcol "lat" (map (fun p => opt_cell (fst p)) pairs) df in
      setcol "lon" (map (fun p => opt_cell (snd p)) pairs) df
  | None => df
  end.

(** [if src in df.columns: df[dst] = df[src]] *)
Definition alias (src dst : string) (df : DataFrame) : DataFrame :=
  match columns df !! src with
  | Some xs => setcol dst xs df
  | None => df
  end.

(** One row of the [geo_cluster] lambda; [None] when [round] raises. *)
Definition geo_cluster_row (precision : Z) (lat lon : cell) : option cell :=
  if negb (isna lat) && negb (isna lon)
  then match lat, lon with
       | Flt x, Flt y =>
           match pyround x precision, pyround y precision with
           | Some rx, Some ry => Some (Tup (Some rx) (Some ry))
           | _, _ => None
           end
       | _, _ => None
       end
  else Some (Tup None None).

Definition geo_cluster (precision : Z) (df : DataFrame) : DataFrame :=
  match columns df !! "lat", columns df !! "lon" with
  | Some lat, Some lon =>
      match mapM (fun p => geo_cluster_row precision (fst p) (snd p)) (zip lat lon) with
      | Some col => setcol "geo_cluster" col df
      | None => setconst "geo_cluster" NoneV df
      end
  | _, _ => setconst "geo_cluster" NoneV df
  end.

(** Arithmetic on cells: a missing operand gives a missing result. *)
Definition cell_binop (op : F -> F -> F) (a b : cell) : cell :=
  match a, b with
  | Flt x, Flt y => if isnan x || isnan y then NoneV else Flt (op x y)
  | _, _ => NoneV
  end.

(** [.replace({0: pd.NA})] *)
Definition replace_zero (c : cell) : cell :=
  match c with
  | Flt x => if feqb x f0 then NoneV else c
  | _ => c
  end.

Definition margins (df : DataFrame) : DataFrame :=
  match columns df !! "Costo", columns df !! "ValVentaLi" with
  | Some costo, Some val =>
      let margin := zip_with (cell_binop fsub) val costo in
      let df := setcol "margin" margin df in
      setcol "margin_pct" (zip_with (cell_binop fdiv) margin (map replace_zero val)) df
  | _, _ => df
  end.

(** [load_sales_csv], from the frame read from [path] on. *)
Definition load_sales_csv (raw : RawFrame) (geo_cluster_precision : Z) : DataFrame :=
  let df := read_frame raw in
  let df := fold_left normalise_numeric numeric_cols df in
  let df := parse_dates df in
  let df := copy_or_none "ValVentaLi" "revenue_val" df in
  let df := copy_or_none "VtaFacturada" "revenue_vta" df in
  let df := default_revenue df in
  let df := extract_coordinates df in
  let df := alias "NombreComercial" "cliente" df in
  let df := alias "DescMaterial" "producto" df in
  let df := alias "DescGrArticulo" "categoria" df in
  let df := alias "Ciudad" "ciudad" df in
  let df := alias "ZonaVenta" "zona" df in
  let df := geo_cluster geo_cluster_precision df in
  margins df.

(** The frame after the numeric and the date steps, and what they make
    of a cell of the file. *)
Definition numeric_cell (c : option string) : cell :=
  opt_cell (_to_number (PyStr (default "nan" c))).

Definition typed (raw : RawFrame) : DataFrame :=
  parse_dates (fold_left normalise_numeric numeric_cols (read_frame raw)).

(** The normalised cells of a numeric column of the file; every cell is
    missing when the file has no such column. *)
Definition source_column (raw : RawFrame) (name : string) : list cell :=
  default (replicate (raw_rows raw) NoneV) (map numeric_cell <$> raw_cols raw !! name).

(** The frame once the two revenue measures are copied, and the frame
    before the margins are added. *)
Definition with_revenue (raw : RawFrame) : DataFrame :=
  copy_or_none "VtaFacturada" "revenue_vta"
    (copy_or_none "ValVentaLi" "revenue_val" (typed raw)).

Definition before_margins (raw : RawFrame) (precision : Z) : DataFrame :=
  let df := default_revenue (with_revenue raw) in
  let df := extract_coordinates df in
  let df := alias "NombreComercial" "cliente" df in
  let df := alias "DescMaterial" "producto" df in
  let df := alias "DescGrArticulo" "categoria" df in
  let df := alias "Ciudad" "ciudad" df in
  let df := alias "ZonaVenta" "zona" df in
  geo_cluster precision df.

(** The categorical aliases and their source columns. *)
Definition aliases : list (string * string) :=
  [("NombreComercial", "cliente"); ("DescMaterial", "producto");
   ("DescGrArticulo", "categoria"); ("Ciudad", "ciudad"); ("ZonaVenta", "zona")].

(** [x == 0] on a cell. *)
Definition is_zero (c : cell) : Prop :=
  exists x, c = Flt x /\ feqb x f0 = true.

End Frames.

Arguments cell F : clear implicits.
Arguments DataFrame F : clear implicits.

(** ** The geo-cluster aggregator *)

Section Aggregator.

Context {F : Type} `{PyFloatOps F}.

(** The float columns of the frame handed to [aggregate_geo_clusters]:
    [lat], [lon] and the revenue measures hold floats or the missing
    value. [None] is [None]/[pd.NA]; a not-a-number is missing too. *)
Record NumFrame : Type := {
  index_len : nat;
  num_cols : gmap string (list (option F))
}.

Definition frame_wf (df : NumFrame) : Prop :=
  forall name col, num_cols df !! name = Some col -> length col = index_len df.

Definition notna (c : option F) : bool :=
  match c with
  | Some x => negb (isnan x)
  | None => false
  end.

(** [df.empty]: no row or no column. *)
Definition empty (df : NumFrame) : bool :=
  (index_len df =? 0)%nat || bool_decide (num_cols df = ∅).

(** A row of [df[['lat', 'lon', revenue_col]]]. *)
Record record : Type := { c_lat : option F; c_lon : option F; c_rev : option F }.

Definition select (lat lon rev : list (option F)) : list record :=
  zip_with (fun a br => {| c_lat := a; c_lon := fst br; c_rev := snd br |})
           lat (zip lon rev).

(** A row of [tmp]: the coordinates are present. *)
Record row : Type := { r_lat : F; r_lon : F; r_rev : option F }.

Definition with_coordinates (c : record) : option row :=
  match c_lat c, c_lon c with
  | Some x, Some y =>
      if negb (isnan x) && negb (isnan y)
      then Some {| r_lat := x; r_lon := y; r_rev := c_rev c |}
      else None
  | _, _ => None
  end.

(** [.dropna(subset=['lat', 'lon'])] *)
Definition dropna (rows : list record) : list row := omap with_coordinates rows.

(** [(round(float(r['lat']), int(precision)), round(float(r['lon']), int(precision)))];
    [None] when [round] raises. *)
Definition cluster_key (precision : Z) (r : row) : option (F * F) :=
  match pyround (r_lat r) precision, pyround (r_lon r) precision with
  | Some a, Some b => Some (a, b)
  | _, _ => None
  end.

(** Equality and order of Python tuples of two floats. *)
Definition key_eqb (k1 k2 : F * F) : bool :=
  feqb (fst k1) (fst k2) && feqb (snd k1) (snd k2).

Definition key_ltb (k1 k2 : F * F) : bool :=
  if feqb (fst k1) (fst k2) then fltb (snd k1) (snd k2) else fltb (fst k1) (fst k2).

(** One step of the compensated (Kahan) summation that pandas' group
    sum and group mean perform: [sc] is the running sum with its
    compensation, [v] the value of the row.
    [y = val - compensation; t = sumx + y; compensation = t - sumx - y;
     if compensation != compensation: compensation = 0; sumx = t] *)
Definition kahan_step (sc : F * F) (v : F) : F * F :=
  let y := fsub v (snd sc) in
  let t := fadd (fst sc) y in
  let c := fsub (fsub t (fst sc)) y in
  (t, if feqb c c then c else f0).

(** The compensated sum of a column, from its first value to its last. *)
Definition kahan_acc (xs : list F) : F * F := fold_left kahan_step xs (f0, f0).

Definition kahan_sum (xs : list F) : F := fst (kahan_acc xs).

(** The running aggregates of one group, each sum with its compensation:
    the revenue sum and count skip missing revenue cells, the coordinate
    sums take every row. *)
Record group : Type := {
  g_key : F * F;
  g_revenue : F;
  g_revenue_c : F;
  g_count : nat;
  g_lat : F;
  g_lat_c : F;
  g_lon : F;
  g_lon_c : F;
  g_size : nat
}.

Definition new_group (k : F * F) : group :=
  {| g_key := k; g_revenue := f0; g_revenue_c := f0; g_count := 0;
     g_lat := f0; g_lat_c := f0; g_lon := f0; g_lon_c := f0; g_size := 0 |}.

(** The revenue of the row enters the sum unless it is missing. *)
Definition add_revenue (sc : F * F) (v : option F) : F * F :=
  match v with
  | Some v => if isnan v then sc else kahan_step sc v
  | None => sc
  end.

Definition accumulate (g : group) (r : row) : group :=
  let rev := add_revenue (g_revenue g, g_revenue_c g) (r_rev r) in
  let lat := kahan_step (g_lat g, g_lat_c g) (r_lat r) in
  let lon := kahan_step (g_lon g, g_lon_c g) (r_lon r) in
  {| g_key := g_key g;
     g_revenue := fst rev;
     g_revenue_c := snd rev;
     g_count := if notna (r_rev r) then S (g_count g) else g_count g;
     g_lat := fst lat;
     g_lat_c := snd lat;
     g_lon := fst lon;
     g_lon_c := snd lon;
     g_size := S (g_size g) |}.

(** [groupby('cluster')] keeps one group per key, in ascending key
    order (its default [sort=True]). *)
Fixpoint add_row (k : F * F) (r : row) (gs : list group) : list group :=
  match gs with
  | [] => [accumulate (new_group k) r]
  | g :: gs' =>
      if key_eqb k (g_key g) then accumulate g r :: gs'
      else if key_ltb k (g_key g) then accumulate (new_group k) r :: g :: gs'
      else g :: add_row k r gs'
  end.

Definition groupby (keyed : list (F * F * row)) : list group :=
  fold_left (fun gs kr => add_row (fst kr) (snd kr) gs) keyed [].

(** A row of the result. *)
Record bucket : Type := {
  cluster : F * F;
  latitude : F;
  longitude : F;
  revenue : F;
  count : nat
}.

(** [revenue=(revenue_col, 'sum'), latitude=('lat', 'mean'),
    longitude=('lon', 'mean'), count=(revenue_col, 'count')] *)
Definition summarise (g : group) : bucket :=
  {| cluster := g_key g;
     latitude := fdiv (g_lat g) (of_nat (g_size g));
     longitude := fdiv (g_lon g) (of_nat (g_size g));
     revenue := g_revenue g;
     count := g_count g |}.

(** Insertion in an ascending list, after the elements that are not greater. *)
Fixpoint insert_asc (b : bucket) (l : list bucket) : list bucket :=
  match l with
  | [] => [b]
  | c :: l' => if fltb (revenue b) (revenue c) then b :: l else c :: insert_asc b l'
  end.

Definition sort_asc (l : list bucket) : list bucket :=
  fold_left (fun acc b => insert_asc b acc) l [].

(** [sort_values('revenue', ascending=False)]: the rows whose revenue is
    a number are reversed, sorted in ascending order and reversed
    again; the others come last. The default sort kind (quicksort) keeps
    equal elements in place on inputs of at most sixteen rows and
    promises no order among them on longer ones; [sort_asc] keeps them
    in place on every input. The general properties below use only that
    the result is a sorted rearrangement, and the sample tables have
    fewer than sixteen rows. *)
Definition sort_values_desc (l : list bucket) : list bucket :=
  let numbers := filter (fun b => isnan (revenue b) = false) l in
  let others := filter (fun b => isnan (revenue b) = true) l in
  rev (sort_asc (rev numbers)) ++ others.

Inductive outcome : Type :=
| Returns (agg : list bucket)
| KeyError (label : string).

(** [aggregate_geo_clusters(df, precision, revenue_col)]. The labels
    [lat], [lon] and [cluster] are taken to differ from [revenue_col]. *)
Definition aggregate_geo_clusters
    (df : option NumFrame) (precision : Z) (revenue_col : string) : outcome :=
  match df with
  | None => Returns []
  | Some df =>
      if empty df then Returns []
      else
        match num_cols df !! "lat", num_cols df !! "lon" with
        | Some lat, Some lon =>
            match num_cols df !! revenue_col with
            | None => KeyError revenue_col
            | Some rev =>
                let tmp := dropna (select lat lon rev) in
                match tmp with
                | [] => Returns []
                | _ =>
                    let agg :=
                      match mapM (cluster_key precision) tmp with
                      | Some keys => summarise <$> groupby (zip keys tmp)
                      | None => []    (* every key is None: no group *)
                      end in
                    Returns (sort_values_desc agg)
                end
            end
        | _, _ => Returns []
        end
  end.

(** The labels the function uses itself. *)
Definition reserved (revenue_col : string) : bool :=
  bool_decide (revenue_col ∈ ["lat"; "lon"; "cluster"]).

(** *** What [groupby] maintains *)

(** Both components of a key are numbers. *)
Definition key_ok (k : F * F) : Prop :=
  isnan (fst k) = false /\ isnan (snd k) = false.

(** The groups are in strictly ascending key order. *)
Definition sorted_groups (gs : list group) : Prop :=
  StronglySorted (fun g g' => key_ltb (g_key g) (g_key g') = true) gs
  /\ Forall (fun g => key_ok (g_key g)) gs.

(** A keyed row counts for the key [k] when its key equals [k] and its
    revenue is not missing. *)
Definition counts_for (k : F * F) (kr : F * F * row) : bool :=
  key_eqb (fst kr) k && notna (r_rev (snd kr)).

(** [gs] are the groups of the keyed rows [keyed]. *)
Definition groups_of (keyed : list (F * F * row)) (gs : list group) : Prop :=
  sorted_groups gs
  /\ (forall kr, kr ∈ keyed -> exists g, g ∈ gs /\ key_eqb (fst kr) (g_key g) = true)
  /\ (forall g, g ∈ gs ->
        (exists kr, kr ∈ keyed /\ key_eqb (fst kr) (g_key g) = true)
        /\ g_count g = length (List.filter (counts_for (g_key g)) keyed)).

(** Rows with equal keys at precision [fine] have equal keys at
    precision [coarse]. *)
Definition rounding_nests (fine coarse : Z) (rows : list row) : Prop :=
  forall r1 r2 a1 a2 b1 b2,
    r1 ∈ rows -> r2 ∈ rows ->
    cluster_key fine r1 = Some a1 -> cluster_key fine r2 = Some a2 ->
    key_eqb a1 a2 = true ->
    cluster_key coarse r1 = Some b1 -> cluster_key coarse r2 = Some b2 ->
    key_eqb b1 b2 = true.

(** *** The vocabulary of the specification *)

(** The records of the table, as the aggregator reads them. *)
Definition table_records (df : NumFrame) (revenue_col : string) : list record :=
  match num_cols df !! "lat", num_cols df !! "lon", num_cols df !! revenue_col with
  | Some lat, Some lon, Some rev => select lat lon rev
  | _, _, _ => []
  end.

(** Both coordinates are present and round to the key [k]. *)
Definition in_bucket (precision : Z) (k : F * F) (c : record) : bool :=
  match with_coordinates c with
  | Some r =>
      match cluster_key precision r with
      | Some k' => key_eqb k' k
      | None => false
      end
  | None => false
  end.

(** The sum of a list of floats, added from the first to the last. *)
Definition fsum (xs : list F) : F := fold_left fadd xs f0.

(** The values of a column that are not missing. *)
Definition present_values (xs : list (option F)) : list F :=
  omap (fun c => if notna c then c else None) xs.

(** The revenue of the records that have both coordinates. *)
Definition located_revenue (df : NumFrame) (revenue_col : string) : F :=
  fsum (present_values (r_rev <$> dropna (table_records df revenue_col))).

(** Position of the first record of the bucket [k]. *)
Fixpoint first_seen (precision : Z) (k : F * F) (rows : list record) : option nat :=
  match rows with
  | [] => None
  | c :: rows' =>
      if in_bucket precision k c then Some 0
      else S <$> first_seen precision k rows'
  end.

(** A later bucket never has the larger revenue. Where one of the
    revenues is not a number this says nothing. *)
Definition not_after (a b : bucket) : Prop :=
  isnan (revenue b) = true \/ fltb (revenue a) (revenue b) = false.

(** The order of the result: a later bucket never has the larger
    revenue, and a bucket whose revenue is not a number is followed by
    such buckets only. *)
Definition descends (a b : bucket) : Prop :=
  not_after a b /\ (isnan (revenue a) = true -> isnan (revenue b) = true).

(** Buckets of equal revenue appear in the order their keys are first
    met in the table. *)
Definition ties_first_encountered
    (precision : Z) (rows : list record) (l : list bucket) : Prop :=
  forall i j a b,
    (i < j)%nat -> l !! i = Some a -> l !! j = Some b ->
    feqb (revenue a) (revenue b) = true ->
    exists m n,
      first_seen precision (cluster a) rows = Some m
      /\ first_seen precision (cluster b) rows = Some n
      /\ (m <= n)%nat.

End Aggregator.

Arguments NumFrame F : clear implicits.
Arguments record F : clear implicits.
Arguments row F : clear implicits.
Arguments group F : clear implicits.
Arguments bucket F : clear implicits.
Arguments outcome F : clear implicits.

(** The buckets of a call that returned. *)
Definition returned {F : Type} (o : outcome F) : list (bucket F) :=
  match o with
  | Returns agg => agg
  | KeyError _ => []
  end.

(** ** Sample tables *)

Module Samples.

(** A file of two rows. *)
Definition sample_raw : RawFrame :=
  {| raw_rows := 2;
     raw_cols :=
       <["VtaFacturada" := [Some "1.234,56"; None]]>
       (<["ValVentaLi" := [Some "0"; Some "7,5"]]>
       (<["Costo" := [Some "3"; Some "2"]]>
       (<["Georeferenciado" := [Some "10.5,-66.9"; Some "10.5 -66.9"]]>
       (<["NombreComercial" := [Some "Farmacia Uno"; Some "Farmacia Dos"]]> ∅)))) |}.

(** A date parser that recognises nothing. *)
Definition no_dates (col : list (option string)) : list (option Z) :=
  (fun _ => None) <$> col.

Definition numeric_table {F : Type} (lat lon rev : list (option F)) : NumFrame F :=
  {| index_len := length lat;
     num_cols := <["lat" := lat]> (<["lon" := lon]> (<["revenue_vta" := rev]> ∅)) |}.

Definition q (n d : Z) : Qc := Q2Qc (Qmake n (Z.to_pos d)).

(** Four records in exact arithmetic: two of them share a bucket at
    three decimals, one has no latitude, one has no revenue. *)
Definition exact_table : NumFrame Qc :=
  numeric_table
    [Some (q 102 10); Some (q 102004 10000); None; Some (q 20 1)]
    [Some (q (-669) 10); Some (q (-669) 10); Some (q 1 1); Some (q 3 1)]
    [Some (q 5 1); None; Some (q 7 1); Some (q 3 1)].

(** The same shape in binary64: 10.25 and 10.25048828125 share a bucket
at three decimals. *)
Definition float_table : NumFrame float :=
  numeric_table
    [Some 10.25%float; Some 10.25048828125%float; None; Some 20%float]
    [Some (-66.5)%float; Some (-66.5)%float; Some 1%float; Some 3%float]
    [Some 5%float; None; Some 7%float; Some 3%float].

(** Two records of one bucket, the second without revenue. *)
Definition missing_revenue_table : NumFrame float :=
  numeric_table [Some 1%float; Some 1%float] [Some 1%float; Some 1%float]
                [Some 5%float; None].

(** [float("1.6e308")] *)
Definition huge : float :=
  Eval vm_compute in default PrimFloat.zero (Binary64.of_string "1.6e308").

Definition overflow_table : NumFrame float :=
  numeric_table [Some huge] [Some 0%float] [Some 5%float].

(** Two buckets of equal revenue, the larger key first in the table. *)
Definition tie_table : NumFrame float :=
  numeric_table [Some 2%float; Some 1%float] [Some 2%float; Some 1%float]
                [Some 5%float; Some 5%float].

(** Three records, the first and the third in one bucket; their
    revenues are 1e16, 1 and -1e16. *)
Definition cancelling_table : NumFrame float :=
  numeric_table [Some 1%float; Some 2%float; Some 1%float]
                [Some 1%float; Some 1%float; Some 1%float]
                [Some 1e16%float; Some 1%float; Some (-1e16)%float].

(** A file of one row: a tiny line revenue and a large negative cost. *)
Definition tiny_line_raw : RawFrame :=
  {| raw_rows := 1;
     raw_cols := <["ValVentaLi" := [Some "1e-320"]]> (<["Costo" := [Some "-1e308"]]> ∅) |}.

(** Two latitudes on either side of one half, less than 0.0005 away. *)
Definition straddling_table : NumFrame float :=
  numeric_table [Some 0.49951171875%float; Some 0.50048828125%float]
                [Some 0%float; Some 0%float]
                [Some 5%float; Some 5%float].

End Samples.

(** ** What the proofs ask of the float operations

    [==] and [<] order the floats that are numbers, and [round] of a
    number is a number. Binary64 floats and exact rationals both qualify
    ([binary64_comparable], [exact_comparable]). *)

Class ComparableFloats (F : Type) `{PyFloatOps F} : Prop := {
  feqb_refl : forall x, isnan x = false -> feqb x x = true;
  feqb_sym : forall x y, feqb x y = true -> feqb y x = true;
  feqb_trans : forall x y z, feqb x y = true -> feqb y z = true -> feqb x z = true;
  fltb_not_eq : forall x y, fltb x y = true -> feqb x y = false;
  fltb_asym : forall x y, fltb x y = true -> fltb y x = false;
  fltb_trans : forall x y z, fltb x y = true -> fltb y z = true -> fltb x z = true;
  fltb_eq_l : forall x y z, feqb x y = true -> fltb x z = fltb y z;
  fltb_eq_r : forall x y z, feqb x y = true -> fltb z x = fltb z y;
  fltb_total : forall x y, isnan x = false -> isnan y = false ->
                           feqb x y = false -> fltb x y = false -> fltb y x = true;
  pyround_number : forall x n y, isnan x = false -> pyround x n = Some y -> isnan y = false
}.

(** Addition and subtraction without rounding error: exact arithmetic
    satisfies this, binary64 floats do not. *)

Class ExactSums (F : Type) `{PyFloatOps F} : Prop := {
  fadd_assoc : forall x y z, fadd x (fadd y z) = fadd (fadd x y) z;
  fadd_comm : forall x y, fadd x y = fadd y x;
  fadd_0_l : forall x, fadd f0 x = x;
  fsub_0_r : forall x, fsub x f0 = x;
  fsub_cancel : forall x y, fsub (fsub (fadd x y) x) y = f0;
  feqb_0 : feqb f0 f0 = true
}.

(** ** Vocabulary of the further properties *)

(** Every character of [s] satisfies [p]. *)
Fixpoint all_chars (p : ascii -> bool) (s : string) : bool :=
  match s with
  | EmptyString => true
  | String c s' => p c && all_chars p s'
  end.

(** A character that [_to_number] leaves in place: an ASCII character
    that is not whitespace and none of [. , $ U B], the separators and
    the characters a currency marker starts with. Digits, signs and
    exponent letters are of that kind. *)
Definition inert (c : ascii) : bool :=
  (nat_of_ascii c <? 128)%nat && negb (PyStr.is_space c)
  && forallb (fun d => negb (Ascii.eqb c d)) ["."; ","; "$"; "U"; "B"]%char.

Definition plain (s : string) : bool := all_chars inert s.

(** Inert characters, periods and commas. *)
Definition clean (s : string) : bool :=
  all_chars (fun c => inert c || Ascii.eqb c "." || Ascii.eqb c ",") s.

(** The branch of [_to_number] on commas and periods. *)
Definition separators (s : string) : string :=
  if (PyStr.count "," s =? 1)%nat && (0 <? PyStr.count "." s)%nat
  then PyStr.replace "," "." (PyStr.replace "." "" s)
  else if (PyStr.count "," s =? 1)%nat && (PyStr.count "." s =? 0)%nat
       then PyStr.replace "," "." s
       else PyStr.replace "," "" s.

(** [s] without its spaces and dollar signs. *)
Fixpoint undecorated (s : string) : string :=
  match s with
  | EmptyString => EmptyString
  | String c s' =>
      if Ascii.eqb c " " || Ascii.eqb c "$" then undecorated s'
      else String c (undecorated s')
  end.

(** Clean text with spaces and dollar signs in it. *)
Definition decorated (s : string) : bool :=
  all_chars (fun c => inert c || Ascii.eqb c "." || Ascii.eqb c ","
                      || Ascii.eqb c " " || Ascii.eqb c "$") s.

(** No character of [s] is [a]. *)
Definition free_of (a : ascii) (s : string) : bool :=
  all_chars (fun c => negb (Ascii.eqb c a)) s.

(** ASCII text without whitespace. *)
Definition unspaced (s : string) : bool :=
  all_chars (fun c => (nat_of_ascii c <? 128)%nat && negb (PyStr.is_space c)) s.

(** Every column of a frame spans its index. *)
Definition df_wf {F : Type} (df : DataFrame F) : Prop :=
  forall name col, columns df !! name = Some col -> length col = nrows df.

(** The columns [load_sales_csv] may write. *)
Definition written_cols : list string :=
  numeric_cols ++
  ["FechaVta_raw"; "FechaVta"; "FechaVta_valid"; "revenue_val"; "revenue_vta";
   "revenue_default"; "lat"; "lon"; "cliente"; "producto"; "categoria";
   "ciudad"; "zona"; "geo_cluster"; "margin"; "margin_pct"].

Section Members.

Context {F : Type} `{PyFloatOps F}.

(** The keyed rows filed under [k], in table order. *)
Definition rows_of (k : F * F) (keyed : list (F * F * row F)) : list (row F) :=
  snd <$> List.filter (fun kr => key_eqb (fst kr) k) keyed.

(** The running aggregates of [g] are those of the rows filed under its
    key. *)
Definition totals_of (keyed : list (F * F * row F)) (g : group F) : Prop :=
  let rows := rows_of (g_key g) keyed in
  g_size g = length rows
  /\ (g_lat g, g_lat_c g) = kahan_acc (r_lat <$> rows)
  /\ (g_lon g, g_lon_c g) = kahan_acc (r_lon <$> rows)
  /\ (g_revenue g, g_revenue_c g) = kahan_acc (present_values (r_rev <$> rows)).

(** The records of the table that fall in the bucket [k], in table
    order, with their coordinates. *)
Definition members (precision : Z) (k : F * F) (records : list (record F)) : list (row F) :=
  omap (fun c => if in_bucket precision k c then with_coordinates c else None) records.

(** No two buckets have the same key. *)
Definition distinct_keys (l : list (bucket F)) : Prop :=
  StronglySorted (fun a b => key_eqb (cluster a) (cluster b) = false) l.

End Members.

Section Views.

Context {F : Type} `{PyFloatOps F}.

(** A cell of a float column: a float or the missing value. *)
Definition float_cell (c : cell F) : option (option F) :=
  match c with
  | NoneV => Some None
  | Flt x => Some (Some x)
  | _ => None
  end.

(** The frame as [aggregate_geo_clusters] is modelled to read it: the
    columns that hold floats and missing values only; a column that
    holds anything else is left out. The columns [lat], [lon] and the
    revenue measures of a normalised frame are float columns
    ([measure_columns] below). *)
Definition numeric_view (df : DataFrame F) : NumFrame F :=
  {| index_len := nrows df;
     num_cols := omap (mapM float_cell) (columns df) |}.

(** The revenue measures of a normalised frame. *)
Definition revenue_measures : list string :=
  ["revenue_val"; "revenue_vta"; "revenue_default"].

End Views.

(** ** The dashboard (app.py) *)

Section Dashboard.

Context {F : Type} `{PyFloatOps F}.

(** [filtered['revenue_used'] = filtered['revenue_vta']], the branch
    taken for [rev_key = 'vta']; [None] when the column lookup raises. *)
Definition with_revenue_used (filtered : DataFrame F) : option (DataFrame F) :=
  match columns filtered !! "revenue_vta" with
  | Some col => Some (setcol "revenue_used" col filtered)
  | None => None
  end.

(** [_get_cluster_agg(df_snapshot, precision, revenue_col)] *)
Definition _get_cluster_agg (df_snapshot : DataFrame F) (precision : Z) (revenue_col : string)
  : outcome F :=
  aggregate_geo_clusters (Some (numeric_view df_snapshot)) precision revenue_col.

(** The rows of [cluster_agg] once the block that computes it has run:
    empty without [lat] or [lon], and empty when the call raises. *)
Definition cluster_agg (filtered : DataFrame F) (geo_precision : Z) : list (bucket F) :=
  match columns filtered !! "lat", columns filtered !! "lon" with
  | Some _, Some _ =>
      match _get_cluster_agg filtered geo_precision "revenue_used" with
      | Returns agg => agg
      | KeyError _ => []
      end
  | _, _ => []
  end.

End Dashboard.

Module MoreSamples.

(** A date parser that knows one date, 1 February 2024 written day
    first. *)
Definition one_date (col : list (option string)) : list (option Z) :=
  (fun o => match o with
            | Some "01/02/2024" => Some 1706745600000000000%Z
            | _ => None
            end) <$> col.

(** A file with a date column and a column the normaliser does not
    know. *)
Definition dated_raw : RawFrame :=
  {| raw_rows := 2;
     raw_cols :=
       <["FechaVta" := [Some "01/02/2024"; Some "n/a"]]>
       (<["VtaFacturada" := [Some "1.234,56"; None]]>
       (<["Georeferenciado" := [Some "10.5,-66.5"; Some "10,5,-66,9"]]>
       (<["Vendedor" := [Some "Ana"; None]]> ∅))) |}.

(** A file whose first latitude cannot be rounded to -308 digits. *)
Definition overflow_raw : RawFrame :=
  {| raw_rows := 2;
     raw_cols :=
       <["VtaFacturada" := [Some "5"; Some "7"]]>
       (<["Georeferenciado" := [Some "1.6e308,0"; Some "1,2"]]> ∅) |}.

(** A file without coordinates. *)
Definition unlocated_raw : RawFrame :=
  {| raw_rows := 2;
     raw_cols := <["VtaFacturada" := [Some "5"; Some "7"]]> ∅ |}.

(** [Samples.float_table] with one more column. *)
Definition wider_table : NumFrame float :=
  {| index_len := index_len Samples.float_table;
     num_cols := <["Unidades" := [Some 1%float; Some 2%float; None; Some 4%float]]>
                   (num_cols Samples.float_table) |}.

(** [round(10.5, 0)] and [round(-66.5, 0)] *)
Definition rounded_lat : float :=
  Eval vm_compute in default PrimFloat.zero (Binary64.round 10.5 0).
Definition rounded_lon : float :=
  Eval vm_compute in default PrimFloat.zero (Binary64.round (-66.5) 0).

End MoreSamples.

(** * Properties *)

(** ** The parsers *)

(** A string without a comma never reaches the whitespace split. *)
Lemma extract_latlon_needs_comma {F : Type} `{PyFloatOps F} (s : string) :
  PyStr.contains "," s = false -> _extract_latlon (PyStr s) = (None, None).
Proof.
  intros Hc. unfold _extract_latlon. now rewrite Hc.
Qed.

(** C5: on ["10.5 -66.9"] the whitespace split gives two tokens that both
    parse as floats, yet [_extract_latlon] returns [(None, None)]: the
    test for a comma returns before the whitespace split is tried. *)
Theorem extract_latlon_space_separated :
  PyStr.split_ws "10.5 -66.9" = ["10.5"; "-66.9"]
  /\ is_Some (Binary64.of_string "10.5")
  /\ is_Some (Binary64.of_string "-66.9")
  /\ @_extract_latlon float Binary64.ops (PyStr "10.5 -66.9") = (None, None).
Proof.
  split; [reflexivity|].
  split; [vm_compute; eauto|].
  split; [vm_compute; eauto|].
  apply extract_latlon_needs_comma. reflexivity.
Qed.

(** The text of ["$1,234.56"] has one comma and a period, so it is read
    in the European way whatever the float type. *)
Lemma to_number_dollar_text {F : Type} `{PyFloatOps F} :
  _to_number (PyStr "$1,234.56") = float_of_string "1.23456".
Proof. reflexivity. Qed.

(** C6: [_to_number("$1,234.56")] is the float of ["1.23456"], which is
    less than 2, and not the float of ["1234.56"]. *)
Theorem to_number_dollar_thousands :
  normalise_number_text "$1,234.56" = "1.23456"
  /\ @_to_number float Binary64.ops (PyStr "$1,234.56") = Binary64.of_string "1.23456"
  /\ (exists x, @_to_number float Binary64.ops (PyStr "$1,234.56") = Some x
                /\ PrimFloat.ltb x 2 = true)
  /\ @_to_number float Binary64.ops (PyStr "$1,234.56") <> Binary64.of_string "1234.56".
Proof.
  split; [reflexivity|].
  split; [reflexivity|].
  split.
  - eexists. split; [vm_compute; reflexivity|]. vm_compute. reflexivity.
  - intros Heq.
    apply (f_equal (fun o : option float =>
                      match o with Some x => PrimFloat.ltb x 2 | None => false end)) in Heq.
    vm_compute in Heq. discriminate.
Qed.

(** ** The normaliser *)

(** Closes [x ∉ [a; b; ...]] for string literals. *)
Ltac not_listed :=
  let Hd := fresh "Hd" in
  intros Hd;
  repeat (apply elem_of_cons in Hd as [Hd|Hd]; [discriminate Hd|]);
  by apply elem_of_nil in Hd.

(** Closes [x ∈ [a; b; ...]] when [x] is one of the literals. *)
Ltac listed :=
  repeat first [ apply list_elem_of_here | apply list_elem_of_further ].

Section NormaliserFacts.

Context {F : Type} `{PyFloatOps F}.
Variable to_datetime : list (option string) -> list (option Z).

Implicit Types (df : DataFrame F) (raw : RawFrame).

(** *** Which columns a step writes *)

Lemma setcol_other name col df other :
  name ≠ other -> columns (setcol name col df) !! other = columns df !! other.
Proof. intros Hne. unfold setcol; simpl. by rewrite lookup_insert_ne. Qed.

Lemma setcol_same name col df :
  columns (setcol name col df) !! name = Some col.
Proof. unfold setcol; simpl. by rewrite lookup_insert_eq. Qed.

Lemma setconst_other name v df other :
  name ≠ other -> columns (setconst name v df) !! other = columns df !! other.
Proof. apply setcol_other. Qed.

Lemma normalise_numeric_other df col other :
  col ≠ other -> columns (normalise_numeric df col) !! other = columns df !! other.
Proof.
  intros Hne. unfold normalise_numeric.
  destruct (columns df !! col); [by apply setcol_other | done].
Qed.

Lemma normalise_numeric_same df col :
  columns (normalise_numeric df col) !! col
  = map (fun c => opt_cell (_to_number (PyStr (astype_str c)))) <$> columns df !! col.
Proof.
  unfold normalise_numeric.
  destruct (columns df !! col) eqn:E; [by rewrite setcol_same | by rewrite E].
Qed.

Lemma parse_dates_other df other :
  other ∉ ["FechaVta_raw"; "FechaVta"; "FechaVta_valid"] ->
  columns (parse_dates to_datetime df) !! other = columns df !! other.
Proof.
  intros Hn. unfold parse_dates.
  destruct (columns df !! "FechaVta").
  - rewrite !setcol_other; [done | | |]; intros <-; apply Hn; listed.
  - rewrite setconst_other; [done|]. intros <-; apply Hn; listed.
Qed.

Lemma copy_or_none_other src dst df other :
  dst ≠ other -> columns (copy_or_none src dst df) !! other = columns df !! other.
Proof.
  intros Hne. unfold copy_or_none.
  destruct (columns df !! src); [by apply setcol_other | by apply setconst_other].
Qed.

Lemma copy_or_none_same src dst df :
  columns (copy_or_none src dst df) !! dst
  = Some (default (replicate (nrows df) NoneV) (columns df !! src)).
Proof.
  unfold copy_or_none, setconst.
  destruct (columns df !! src); by rewrite setcol_same.
Qed.

Lemma default_revenue_other df other :
  "revenue_default" ≠ other ->
  columns (default_revenue df) !! other = columns df !! other.
Proof.
  intros Hne. unfold default_revenue.
  destruct (columns df !! "revenue_vta"), (columns df !! "revenue_val");
    try done; by apply setcol_other.
Qed.

Lemma extract_coordinates_other df other :
  other ∉ ["lat"; "lon"] ->
  columns (extract_coordinates df) !! other = columns df !! other.
Proof.
  intros Hn. unfold extract_coordinates, setconst.
  assert ("lat" ≠ other) by (intros <-; apply Hn; listed).
  assert ("lon" ≠ other) by (intros <-; apply Hn; listed).
  destruct (columns _ !! "Georeferenciado"); by rewrite !setcol_other.
Qed.

Lemma extract_coordinates_lat df :
  columns (extract_coordinates df) !! "lat"
  = Some (match columns df !! "Georeferenciado" with
          | Some xs => map (fun c => opt_cell (fst (_extract_latlon (geo_arg c)))) xs
          | None => replicate (nrows df) NoneV
          end).
Proof.
  unfold extract_coordinates, setconst.
  rewrite !setcol_other by done.
  destruct (columns df !! "Georeferenciado").
  - rewrite setcol_other by done. rewrite setcol_same. by rewrite map_map.
  - rewrite setcol_other by done. by rewrite setcol_same.
Qed.

Lemma extract_coordinates_lon df :
  columns (extract_coordinates df) !! "lon"
  = Some (match columns df !! "Georeferenciado" with
          | Some xs => map (fun c => opt_cell (snd (_extract_latlon (geo_arg c)))) xs
          | None => replicate (nrows df) NoneV
          end).
Proof.
  unfold extract_coordinates, setconst.
  rewrite !setcol_other by done.
  destruct (columns df !! "Georeferenciado").
  - rewrite setcol_same. by rewrite map_map.
  - by rewrite setcol_same.
Qed.

Lemma alias_other src dst df other :
  dst ≠ other -> columns (alias src dst df) !! other = columns df !! other.
Proof.
  intros Hne. unfold alias.
  destruct (columns df !! src); [by apply setcol_other | done].
Qed.

Lemma alias_absent src dst df :
  columns df !! src = None -> alias src dst df = df.
Proof. intros E. unfold alias. by rewrite E. Qed.

Lemma geo_cluster_other precision df other :
  "geo_cluster" ≠ other ->
  columns (geo_cluster precision df) !! other = columns df !! other.
Proof.
  intros Hne. unfold geo_cluster, setconst.
  destruct (columns df !! "lat"), (columns df !! "lon");
    try destruct (mapM _ _); by rewrite setcol_other.
Qed.

Lemma margins_other df other :
  other ∉ ["margin"; "margin_pct"] ->
  columns (margins df) !! other = columns df !! other.
Proof.
  intros Hn. unfold margins.
  assert ("margin" ≠ other) by (intros <-; apply Hn; listed).
  assert ("margin_pct" ≠ other) by (intros <-; apply Hn; listed).
  destruct (columns df !! "Costo"), (columns df !! "ValVentaLi");
    try done; by rewrite !setcol_other.
Qed.

Lemma margins_absent df :
  columns df !! "Costo" = None \/ columns df !! "ValVentaLi" = None ->
  margins df = df.
Proof.
  unfold margins. intros [E|E]; rewrite E; [done|].
  by destruct (columns df !! "Costo").
Qed.

(** *** The number of rows never changes *)

Lemma nrows_setcol name col df : nrows (setcol name col df) = nrows df.
Proof. done. Qed.

Lemma nrows_normalise_numeric df col : nrows (normalise_numeric df col) = nrows df.
Proof. unfold normalise_numeric. by destruct (columns df !! col). Qed.

Lemma nrows_parse_dates df : nrows (parse_dates to_datetime df) = nrows df.
Proof. unfold parse_dates. by destruct (columns df !! "FechaVta"). Qed.

Lemma nrows_copy_or_none src dst df : nrows (copy_or_none src dst df) = nrows df.
Proof. unfold copy_or_none. by destruct (columns df !! src). Qed.

(** *** The frame after the numeric and date steps *)

Lemma nrows_typed raw : nrows (typed to_datetime raw) = raw_rows raw.
Proof.
  unfold typed. rewrite nrows_parse_dates. simpl.
  by rewrite !nrows_normalise_numeric.
Qed.

Lemma read_frame_lookup raw name :
  columns (read_frame raw : DataFrame F) !! name = map text_cell <$> raw_cols raw !! name.
Proof. unfold read_frame; simpl. by rewrite lookup_fmap. Qed.

Lemma typed_numeric raw name :
  name ∈ numeric_cols ->
  columns (typed to_datetime raw) !! name = map numeric_cell <$> raw_cols raw !! name.
Proof.
  intros Hin. unfold typed.
  assert (Hcell : forall col : list (option string),
             map (fun c : cell F => opt_cell (_to_number (PyStr (astype_str c))))
                 (map text_cell col)
             = map numeric_cell col).
  { intros col. rewrite map_map. apply map_ext. by intros [s|]. }
  unfold numeric_cols in *. simpl.
  repeat (apply elem_of_cons in Hin as [->|Hin]);
    [ | | | | by apply elem_of_nil in Hin ];
    rewrite parse_dates_other by not_listed.
  - rewrite !normalise_numeric_other by done.
    rewrite normalise_numeric_same, read_frame_lookup.
    destruct (raw_cols raw !! "Unidades"); simpl; [by rewrite Hcell | done].
  - rewrite !normalise_numeric_other by done.
    rewrite normalise_numeric_same, normalise_numeric_other by done.
    rewrite read_frame_lookup.
    destruct (raw_cols raw !! "VtaFacturada"); simpl; [by rewrite Hcell | done].
  - rewrite !normalise_numeric_other by done.
    rewrite normalise_numeric_same, !normalise_numeric_other by done.
    rewrite read_frame_lookup.
    destruct (raw_cols raw !! "Costo"); simpl; [by rewrite Hcell | done].
  - rewrite normalise_numeric_same, !normalise_numeric_other by done.
    rewrite read_frame_lookup.
    destruct (raw_cols raw !! "ValVentaLi"); simpl; [by rewrite Hcell | done].
Qed.

Lemma typed_other raw name :
  name ∉ numeric_cols ->
  name ∉ ["FechaVta_raw"; "FechaVta"; "FechaVta_valid"] ->
  columns (typed to_datetime raw) !! name = columns (read_frame raw : DataFrame F) !! name.
Proof.
  intros Hn Hd. unfold typed. rewrite parse_dates_other by done.
  unfold numeric_cols in *. simpl.
  rewrite !normalise_numeric_other; [done | | | |]; intros <-; apply Hn; listed.
Qed.

End NormaliserFacts.

Section NormaliserClaims.

Context {F : Type} `{PyFloatOps F}.
Variable to_datetime : list (option string) -> list (option Z).

Implicit Types (df : DataFrame F) (raw : RawFrame).

Ltac skip_steps :=
  repeat first
    [ rewrite margins_other by not_listed
    | rewrite geo_cluster_other by done
    | rewrite alias_other by done
    | rewrite extract_coordinates_other by not_listed
    | rewrite default_revenue_other by done ].

Lemma load_sales_csv_unfold raw precision :
  load_sales_csv to_datetime raw precision
  = margins (before_margins to_datetime raw precision).
Proof.
  unfold load_sales_csv, before_margins, with_revenue, typed. cbv zeta. reflexivity.
Qed.

Lemma source_column_length raw name :
  raw_wf raw -> length (source_column raw name : list (cell F)) = raw_rows raw.
Proof.
  intros Hwf. unfold source_column.
  destruct (raw_cols raw !! name) as [col|] eqn:E; simpl.
  - rewrite length_map. by apply (Hwf name).
  - by rewrite length_replicate.
Qed.

Lemma source_column_absent raw name i (c : cell F) :
  raw_cols raw !! name = None -> source_column raw name !! i = Some c -> c = NoneV.
Proof.
  intros E. unfold source_column. rewrite E; simpl.
  intros Hc. apply lookup_replicate in Hc. tauto.
Qed.

Lemma with_revenue_val raw :
  columns (with_revenue to_datetime raw) !! "revenue_val"
  = Some (source_column raw "ValVentaLi").
Proof.
  unfold with_revenue. rewrite copy_or_none_other by done.
  rewrite copy_or_none_same, nrows_typed.
  rewrite typed_numeric by (unfold numeric_cols; listed). done.
Qed.

Lemma with_revenue_vta raw :
  columns (with_revenue to_datetime raw) !! "revenue_vta"
  = Some (source_column raw "VtaFacturada").
Proof.
  unfold with_revenue.
  rewrite copy_or_none_same, nrows_copy_or_none, nrows_typed.
  rewrite copy_or_none_other by done.
  rewrite typed_numeric by (unfold numeric_cols; listed). done.
Qed.

Lemma with_revenue_other raw name :
  name ∉ ["revenue_val"; "revenue_vta"] ->
  columns (with_revenue to_datetime raw) !! name = columns (typed to_datetime raw) !! name.
Proof.
  intros Hn. unfold with_revenue.
  rewrite !copy_or_none_other; [done | |]; intros <-; apply Hn; listed.
Qed.

Lemma revenue_val_column raw precision :
  columns (before_margins to_datetime raw precision) !! "revenue_val"
  = Some (source_column raw "ValVentaLi").
Proof. unfold before_margins. skip_steps. apply with_revenue_val. Qed.

Lemma revenue_vta_column raw precision :
  columns (before_margins to_datetime raw precision) !! "revenue_vta"
  = Some (source_column raw "VtaFacturada").
Proof. unfold before_margins. skip_steps. apply with_revenue_vta. Qed.

Lemma revenue_default_column raw precision :
  columns (before_margins to_datetime raw precision) !! "revenue_default"
  = Some (fillna (source_column raw "VtaFacturada") (source_column raw "ValVentaLi")).
Proof.
  unfold before_margins. skip_steps. unfold default_revenue.
  rewrite with_revenue_vta, with_revenue_val. apply setcol_same.
Qed.

Lemma numeric_source_kept raw precision name :
  name ∈ numeric_cols ->
  columns (before_margins to_datetime raw precision) !! name
  = map numeric_cell <$> raw_cols raw !! name.
Proof.
  intros Hin. rewrite <- (typed_numeric to_datetime) by done.
  unfold before_margins, numeric_cols in *.
  repeat (apply elem_of_cons in Hin as [->|Hin]);
    [ | | | | by apply elem_of_nil in Hin ];
    skip_steps; by rewrite with_revenue_other by not_listed.
Qed.

(** C1: in every normalised record [revenue_default] is [revenue_vta]
    (the normalised [VtaFacturada] cell) when that is not missing and
    [revenue_val] (the normalised [ValVentaLi] cell) otherwise, which
    leaves it missing when both are; a measure whose source column is
    absent from the file is missing in every record. *)
Theorem revenue_default_prefers_invoiced raw precision i :
  raw_wf raw -> i < raw_rows raw ->
  let df := load_sales_csv to_datetime raw precision in
  exists invoiced line dflt : cell F,
    source_column raw "VtaFacturada" !! i = Some invoiced
    /\ source_column raw "ValVentaLi" !! i = Some line
    /\ cell_at df "revenue_vta" i = Some invoiced
    /\ cell_at df "revenue_val" i = Some line
    /\ cell_at df "revenue_default" i = Some dflt
    /\ dflt = (if isna invoiced then line else invoiced)
    /\ (raw_cols raw !! "VtaFacturada" = None -> invoiced = NoneV)
    /\ (raw_cols raw !! "ValVentaLi" = None -> line = NoneV).
Proof.
  intros Hwf Hi df.
  destruct (lookup_lt_is_Some_2 (source_column raw "VtaFacturada" : list (cell F)) i)
    as [invoiced Hinv]; [by rewrite source_column_length|].
  destruct (lookup_lt_is_Some_2 (source_column raw "ValVentaLi" : list (cell F)) i)
    as [line Hline]; [by rewrite source_column_length|].
  exists invoiced, line, (if isna invoiced then line else invoiced).
  subst df. rewrite load_sales_csv_unfold. unfold cell_at.
  rewrite !margins_other by not_listed.
  rewrite revenue_vta_column, revenue_val_column, revenue_default_column.
  repeat split; try done.
  - unfold fillna. rewrite lookup_zip_with, Hinv; simpl. by rewrite Hline.
  - intros E. by eapply source_column_absent.
  - intros E. by eapply source_column_absent.
Qed.

(** *** Margins *)

Lemma cell_binop_missing op (a b : cell F) :
  isna b = true -> cell_binop op a b = NoneV.
Proof.
  destruct a as [|x| | | |], b as [|y| | | |]; simpl; try done.
  intros ->. by rewrite orb_true_r.
Qed.

Lemma replace_zero_missing (c : cell F) :
  isna c = true \/ is_zero c -> isna (replace_zero c) = true.
Proof.
  intros [Hna | (x & -> & Hz)]; simpl.
  - destruct c as [|x| | | |]; simpl in *; try done.
    by destruct (feqb x f0).
  - by rewrite Hz.
Qed.

(** A quotient cell that holds a float divides by a number other than
    zero. *)
Lemma quotient_denominator (margin line : cell F) v :
  cell_binop fdiv margin (replace_zero line) = Flt v ->
  exists m d, margin = Flt m /\ line = Flt d
              /\ isnan d = false /\ feqb d f0 = false /\ v = fdiv m d.
Proof.
  destruct margin as [|m| | | |], line as [|d| | | |]; simpl; try done.
  destruct (feqb d f0) eqn:Hz; [done|]. simpl.
  destruct (isnan m); [done|]. simpl.
  destruct (isnan d) eqn:Hn; [done|].
  intros [= <-]. by exists m, d.
Qed.

Lemma margins_present df costo val :
  columns df !! "Costo" = Some costo ->
  columns df !! "ValVentaLi" = Some val ->
  columns (margins df) !! "margin" = Some (zip_with (cell_binop fsub) val costo)
  /\ columns (margins df) !! "margin_pct"
     = Some (zip_with (cell_binop fdiv) (zip_with (cell_binop fsub) val costo)
                      (map replace_zero val)).
Proof.
  intros Ec Ev. unfold margins. rewrite Ec, Ev. split.
  - rewrite setcol_other by done. apply setcol_same.
  - apply setcol_same.
Qed.

Lemma untouched_before_margins raw precision name :
  name ∉ numeric_cols ->
  name ∉ ["FechaVta_raw"; "FechaVta"; "FechaVta_valid"; "revenue_val"; "revenue_vta";
          "revenue_default"; "lat"; "lon"; "cliente"; "producto"; "categoria";
          "ciudad"; "zona"; "geo_cluster"] ->
  columns (before_margins to_datetime raw precision) !! name
  = columns (read_frame raw : DataFrame F) !! name.
Proof.
  intros Hnum Hn. unfold before_margins. cbv zeta.
  rewrite geo_cluster_other by (intros <-; apply Hn; listed).
  rewrite !alias_other by (intros <-; apply Hn; listed).
  rewrite extract_coordinates_other
    by (intros Hd; apply Hn; revert Hd; rewrite !elem_of_cons; tauto).
  rewrite default_revenue_other by (intros <-; apply Hn; listed).
  rewrite with_revenue_other
    by (intros Hd; apply Hn; revert Hd; rewrite !elem_of_cons; tauto).
  apply typed_other; [done|].
  intros Hd; apply Hn; revert Hd; rewrite !elem_of_cons; tauto.
Qed.

(** The cells of a numeric column are floats or missing, never text. *)
Lemma source_column_numeric raw name i (c : cell F) :
  source_column raw name !! i = Some c -> is_Some (float_cell c).
Proof.
  unfold source_column. destruct (raw_cols raw !! name) as [col|].
  - change (default _ _) with (numeric_cell <$> col).
    rewrite list_lookup_fmap. destruct (col !! i) as [t|]; simpl; [|done].
    intros [= <-]. unfold numeric_cell. by destruct (_to_number _).
  - change (default _ _) with (replicate (raw_rows raw) (NoneV (F:=F))).
    intros [-> _]%lookup_replicate. done.
Qed.

(** C7, as the code has it: a zero or missing [ValVentaLi] never reaches
    the division. When both source columns exist, the operands of the
    subtraction and of the division are floats or missing (so neither
    can raise on text), [margin_pct] is the quotient of the margin by
    the line revenue with zeros replaced by the missing value, hence
    missing whenever the line revenue is zero or missing, and a float
    only as the float quotient by a number other than zero; nothing
    keeps that quotient finite. When [Costo] or [ValVentaLi] is absent
    the normaliser computes no [margin_pct] (the column stays as the
    file had it, absent if it had none). *)
Theorem margin_pct_guarded raw precision i :
  raw_wf raw -> i < raw_rows raw ->
  let df := load_sales_csv to_datetime raw precision in
  (is_Some (raw_cols raw !! "Costo") -> is_Some (raw_cols raw !! "ValVentaLi") ->
     exists cost line : cell F,
       source_column raw "Costo" !! i = Some cost
       /\ source_column raw "ValVentaLi" !! i = Some line
       /\ is_Some (float_cell cost)
       /\ is_Some (float_cell line)
       /\ cell_at df "revenue_val" i = Some line
       /\ cell_at df "margin" i = Some (cell_binop fsub line cost)
       /\ cell_at df "margin_pct" i
          = Some (cell_binop fdiv (cell_binop fsub line cost) (replace_zero line))
       /\ (isna line = true \/ is_zero line -> cell_at df "margin_pct" i = Some NoneV)
       /\ (forall v, cell_at df "margin_pct" i = Some (Flt v) ->
             exists m d, cell_binop fsub line cost = Flt m /\ line = Flt d
                         /\ isnan d = false /\ feqb d f0 = false /\ v = fdiv m d))
  /\ (raw_cols raw !! "Costo" = None \/ raw_cols raw !! "ValVentaLi" = None ->
        columns df !! "margin_pct" = columns (read_frame raw : DataFrame F) !! "margin_pct"
        /\ (raw_cols raw !! "margin_pct" = None -> cell_at df "margin_pct" i = None)).
Proof.
  intros Hwf Hi df. subst df. rewrite load_sales_csv_unfold. split.
  - intros [costo Ec] [val Ev].
    destruct (lookup_lt_is_Some_2 (source_column raw "Costo" : list (cell F)) i)
      as [cost Hcost]; [by rewrite source_column_length|].
    destruct (lookup_lt_is_Some_2 (source_column raw "ValVentaLi" : list (cell F)) i)
      as [line Hline]; [by rewrite source_column_length|].
    exists cost, line.
    pose proof (source_column_numeric _ _ _ _ Hcost) as Hcost_num.
    pose proof (source_column_numeric _ _ _ _ Hline) as Hline_num.
    destruct (margins_present (before_margins to_datetime raw precision)
                (source_column raw "Costo") (source_column raw "ValVentaLi"))
      as [Hm Hp].
    { rewrite numeric_source_kept by (unfold numeric_cols; listed).
      unfold source_column. by rewrite Ec. }
    { rewrite numeric_source_kept by (unfold numeric_cols; listed).
      unfold source_column. by rewrite Ev. }
    assert (Hpct : cell_at (margins (before_margins to_datetime raw precision)) "margin_pct" i
                   = Some (cell_binop fdiv (cell_binop fsub line cost) (replace_zero line))).
    { unfold cell_at. rewrite Hp.
      rewrite lookup_zip_with, lookup_zip_with, Hline; simpl.
      rewrite Hcost; simpl. rewrite list_lookup_fmap, Hline. done. }
    repeat split; try done.
    + unfold cell_at. rewrite margins_other by not_listed.
      by rewrite revenue_val_column.
    + unfold cell_at. rewrite Hm, lookup_zip_with, Hline; simpl. by rewrite Hcost.
    + intros Hbad. rewrite Hpct. f_equal.
      apply cell_binop_missing. by apply replace_zero_missing.
    + intros v. rewrite Hpct. intros [= Hv]. by apply quotient_denominator.
  - intros Habs.
    assert (Hkeep : columns (margins (before_margins to_datetime raw precision)) !! "margin_pct"
                    = columns (read_frame raw : DataFrame F) !! "margin_pct").
    { rewrite margins_absent.
      - apply untouched_before_margins; not_listed.
      - destruct Habs as [E|E]; [left|right];
          rewrite numeric_source_kept by (unfold numeric_cols; listed);
          by rewrite E. }
    split; [done|].
    intros E. unfold cell_at. rewrite Hkeep, read_frame_lookup, E. done.
Qed.

(** *** Coordinates and aliases *)

Lemma nrows_with_revenue raw : nrows (with_revenue to_datetime raw) = raw_rows raw.
Proof. unfold with_revenue. by rewrite !nrows_copy_or_none, nrows_typed. Qed.

Lemma nrows_default_revenue df : nrows (default_revenue df) = nrows df.
Proof.
  unfold default_revenue.
  by destruct (columns df !! "revenue_vta"), (columns df !! "revenue_val").
Qed.

Lemma georef_lookup raw :
  columns (default_revenue (with_revenue to_datetime raw)) !! "Georeferenciado"
  = columns (read_frame raw : DataFrame F) !! "Georeferenciado".
Proof.
  rewrite default_revenue_other by done.
  rewrite with_revenue_other by not_listed.
  apply typed_other; not_listed.
Qed.

Lemma alias_source_absent raw src df :
  raw_cols raw !! src = None ->
  columns df !! src = columns (read_frame raw : DataFrame F) !! src ->
  columns df !! src = None.
Proof. intros E ->. by rewrite read_frame_lookup, E. Qed.

(** C10: the normalised frame always has the columns [lat] and [lon],
    every cell of which is missing when the file has no
    [Georeferenciado] column; an alias whose source column is absent is
    not created (the frame has that column only if the file had it). *)
Theorem coordinates_always_present raw precision :
  let df := load_sales_csv to_datetime raw precision in
  is_Some (columns df !! "lat")
  /\ is_Some (columns df !! "lon")
  /\ (raw_cols raw !! "Georeferenciado" = None ->
        columns df !! "lat" = Some (replicate (raw_rows raw) NoneV)
        /\ columns df !! "lon" = Some (replicate (raw_rows raw) NoneV))
  /\ (forall src dst, (src, dst) ∈ aliases -> raw_cols raw !! src = None ->
        columns df !! dst = columns (read_frame raw : DataFrame F) !! dst
        /\ (raw_cols raw !! dst = None -> columns df !! dst = None)).
Proof.
  intros df. subst df. rewrite load_sales_csv_unfold.
  assert (Hlat : columns (margins (before_margins to_datetime raw precision)) !! "lat"
                 = columns (extract_coordinates
                              (default_revenue (with_revenue to_datetime raw))) !! "lat").
  { unfold before_margins. by skip_steps. }
  assert (Hlon : columns (margins (before_margins to_datetime raw precision)) !! "lon"
                 = columns (extract_coordinates
                              (default_revenue (with_revenue to_datetime raw))) !! "lon").
  { unfold before_margins. by skip_steps. }
  rewrite Hlat, Hlon, extract_coordinates_lat, extract_coordinates_lon.
  split; [eexists; reflexivity|]. split; [eexists; reflexivity|]. split.
  - intros E. rewrite georef_lookup, read_frame_lookup, E.
    rewrite nrows_default_revenue, nrows_with_revenue.
    split; reflexivity.
  - intros src dst Hin E.
    assert (Hkeep : columns (margins (before_margins to_datetime raw precision)) !! dst
                    = columns (read_frame raw : DataFrame F) !! dst).
    { assert (Hearly : forall name,
                name ∉ numeric_cols ->
                name ∉ ["FechaVta_raw"; "FechaVta"; "FechaVta_valid"; "revenue_val";
                        "revenue_vta"] ->
                columns (with_revenue to_datetime raw) !! name
                = columns (read_frame raw : DataFrame F) !! name).
      { intros name Hnum Hn.
        rewrite with_revenue_other
          by (intros Hd; apply Hn; revert Hd; rewrite !elem_of_cons; tauto).
        apply typed_other; [done|].
        intros Hd; apply Hn; revert Hd; rewrite !elem_of_cons; tauto. }
      unfold before_margins, aliases in *. cbv zeta.
      repeat (apply elem_of_cons in Hin as [Hin|Hin]; [injection Hin as -> ->|]);
        [ | | | | | by apply elem_of_nil in Hin ];
        skip_steps;
        (rewrite alias_absent
           by (skip_steps; apply (alias_source_absent raw); [done|];
               apply Hearly; not_listed));
        skip_steps; apply Hearly; not_listed. }
    split; [done|].
    intros Ed. by rewrite Hkeep, read_frame_lookup, Ed.
Qed.

End NormaliserClaims.

(** ** The aggregator *)

Section KeyOrder.

Context {F : Type} `{ComparableFloats F}.

Implicit Types (k : F * F) (g : group F) (gs : list (group F)) (r : row F).

Lemma feqb_eq_l (x y z : F) : feqb x y = true -> feqb x z = feqb y z.
Proof.
  intros Hxy.
  destruct (feqb x z) eqn:Hxz, (feqb y z) eqn:Hyz; try done.
  - rewrite <- Hyz. symmetry. eapply feqb_trans; [by apply feqb_sym|done].
  - rewrite <- Hxz. by eapply feqb_trans.
Qed.

Lemma key_eqb_refl k : key_ok k -> key_eqb k k = true.
Proof. intros [? ?]. unfold key_eqb. by rewrite !feqb_refl. Qed.

Lemma key_eqb_sym k1 k2 : key_eqb k1 k2 = true -> key_eqb k2 k1 = true.
Proof.
  unfold key_eqb. intros [? ?]%andb_true_iff.
  apply andb_true_iff; split; by apply feqb_sym.
Qed.

Lemma key_eqb_trans k1 k2 k3 :
  key_eqb k1 k2 = true -> key_eqb k2 k3 = true -> key_eqb k1 k3 = true.
Proof.
  unfold key_eqb. intros [? ?]%andb_true_iff [? ?]%andb_true_iff.
  apply andb_true_iff; split; by eapply feqb_trans.
Qed.

Lemma key_eqb_eq_l k1 k2 k3 :
  key_eqb k1 k2 = true -> key_eqb k1 k3 = key_eqb k2 k3.
Proof.
  unfold key_eqb. intros [Ha Hb]%andb_true_iff.
  by rewrite (feqb_eq_l _ _ _ Ha), (feqb_eq_l _ _ _ Hb).
Qed.

Lemma key_ltb_not_eq k1 k2 : key_ltb k1 k2 = true -> key_eqb k1 k2 = false.
Proof.
  unfold key_ltb, key_eqb.
  destruct (feqb (fst k1) (fst k2)); [|done].
  intros Hlt. by rewrite (fltb_not_eq _ _ Hlt).
Qed.

Lemma key_ltb_eq_l k1 k2 k3 :
  key_eqb k1 k2 = true -> key_ltb k1 k3 = key_ltb k2 k3.
Proof.
  unfold key_eqb, key_ltb. intros [Ha Hb]%andb_true_iff.
  by rewrite (feqb_eq_l _ _ _ Ha), (fltb_eq_l _ _ _ Ha), (fltb_eq_l _ _ _ Hb).
Qed.

Lemma key_ltb_trans k1 k2 k3 :
  key_ltb k1 k2 = true -> key_ltb k2 k3 = true -> key_ltb k1 k3 = true.
Proof.
  unfold key_ltb.
  destruct (feqb (fst k1) (fst k2)) eqn:E12, (feqb (fst k2) (fst k3)) eqn:E23;
    intros H12 H23.
  - rewrite (feqb_trans _ _ _ E12 E23). by eapply fltb_trans.
  - rewrite (feqb_eq_l _ _ _ E12), E23. by rewrite (fltb_eq_l _ _ _ E12).
  - assert (E13 : feqb (fst k1) (fst k3) = false).
    { destruct (feqb (fst k1) (fst k3)) eqn:E13; [|done].
      rewrite <- E12. symmetry.
      eapply feqb_trans; [done | by apply feqb_sym]. }
    rewrite E13. by rewrite <- (fltb_eq_r _ _ _ E23).
  - rewrite (fltb_not_eq _ _ (fltb_trans _ _ _ H12 H23)).
    by eapply fltb_trans.
Qed.

Lemma key_ltb_total k1 k2 :
  key_ok k1 -> key_ok k2 ->
  key_eqb k1 k2 = false -> key_ltb k1 k2 = false -> key_ltb k2 k1 = true.
Proof.
  intros [Ha1 Hb1] [Ha2 Hb2]. unfold key_eqb, key_ltb.
  destruct (feqb (fst k1) (fst k2)) eqn:E; simpl.
  - intros Hb Hlt. rewrite (feqb_sym _ _ E). by apply fltb_total.
  - intros _ Hlt.
    destruct (feqb (fst k2) (fst k1)) eqn:E'.
    + apply feqb_sym in E'. congruence.
    + by apply fltb_total.
Qed.

(** *** One row more *)

Lemma add_row_keys (P : F * F -> Prop) k r gs :
  P k -> Forall (fun g => P (g_key g)) gs ->
  Forall (fun g => P (g_key g)) (add_row k r gs).
Proof.
  intros Hk. induction 1 as [|g gs Hg Hgs IH]; simpl.
  - by repeat constructor.
  - destruct (key_eqb k (g_key g)); [by constructor|].
    destruct (key_ltb k (g_key g)); repeat constructor; done.
Qed.

Lemma add_row_sorted k r gs :
  key_ok k -> sorted_groups gs -> sorted_groups (add_row k r gs).
Proof.
  intros Hk [Hs Hok]. split; [|by apply add_row_keys].
  induction Hs as [|g gs Hs IH Hlt]; simpl.
  - repeat constructor.
  - apply Forall_cons in Hok as [Hg Hok].
    destruct (key_eqb k (g_key g)) eqn:Heq; [by constructor|].
    destruct (key_ltb k (g_key g)) eqn:Hltk.
    + constructor; [by constructor|].
      constructor; [done|].
      eapply Forall_impl; [exact Hlt|]. simpl. intros g' Hg'.
      by eapply key_ltb_trans.
    + constructor; [by apply IH|].
      apply (add_row_keys (fun k' => key_ltb (g_key g) k' = true)); [|done].
      by apply key_ltb_total.
Qed.

(** The row lands in the one group of its key, or opens a group when no
    group has that key; the other groups have other keys. *)
Lemma add_row_spec k r gs :
  key_ok k -> sorted_groups gs ->
  exists gs1 g0 gs2,
    add_row k r gs = gs1 ++ accumulate g0 r :: gs2
    /\ key_eqb k (g_key g0) = true
    /\ Forall (fun g => key_eqb k (g_key g) = false) (gs1 ++ gs2)
    /\ (gs = gs1 ++ g0 :: gs2 \/ (gs = gs1 ++ gs2 /\ g0 = new_group k)).
Proof.
  intros Hk [Hs Hok]. induction Hs as [|g gs Hs IH Hlt]; simpl.
  - exists [], (new_group k), []. simpl.
    repeat split; [by apply key_eqb_refl | constructor | by right].
  - apply Forall_cons in Hok as [Hg Hok].
    destruct (key_eqb k (g_key g)) eqn:Heq.
    + exists [], g, gs. simpl. repeat split; [done | | by left].
      eapply Forall_impl; [exact Hlt|]. simpl. intros g' Hg'.
      apply key_ltb_not_eq. by rewrite (key_ltb_eq_l _ _ _ Heq).
    + destruct (key_ltb k (g_key g)) eqn:Hltk.
      * exists [], (new_group k), (g :: gs). simpl.
        repeat split; [by apply key_eqb_refl | | by right].
        constructor; [done|].
        eapply Forall_impl; [exact Hlt|]. simpl. intros g' Hg'.
        apply key_ltb_not_eq. by eapply key_ltb_trans.
      * destruct (IH Hok) as (gs1 & g0 & gs2 & -> & Hk0 & Hother & Hshape).
        exists (g :: gs1), g0, gs2. simpl.
        repeat split; [done | by constructor |].
        destruct Hshape as [-> | [-> ->]]; [by left | by right].
Qed.

End KeyOrder.

Section Grouping.

Context {F : Type} `{ComparableFloats F}.

Implicit Types (k : F * F) (g : group F) (gs : list (group F)) (r : row F).
Implicit Types (keyed : list (F * F * row F)).

Lemma filter_none {A} (p : A -> bool) (l : list A) :
  (forall x, x ∈ l -> p x = false) -> List.filter p l = [].
Proof.
  induction l as [|x l IH]; intros Hp; simpl; [done|].
  rewrite (Hp x) by apply list_elem_of_here.
  apply IH. intros y Hy. apply Hp. by apply list_elem_of_further.
Qed.

Lemma filter_snoc_length {A} (p : A -> bool) (l : list A) (x : A) :
  length (List.filter p (l ++ [x]))
  = (length (List.filter p l) + (if p x then 1 else 0))%nat.
Proof.
  rewrite List.filter_app, length_app. simpl. by destruct (p x).
Qed.

Lemma counts_for_eq k k' kr :
  key_eqb k k' = true -> counts_for k kr = counts_for k' kr.
Proof.
  intros Hk. unfold counts_for. f_equal.
  destruct (key_eqb (fst kr) k) eqn:E1, (key_eqb (fst kr) k') eqn:E2; try done.
  - rewrite <- E2. symmetry. by eapply key_eqb_trans.
  - rewrite <- E1. eapply key_eqb_trans; [done | by apply key_eqb_sym].
Qed.

Lemma groups_of_nil : groups_of (F:=F) [] [].
Proof.
  split; [split; constructor|]. split.
  - intros kr Hkr. by apply elem_of_nil in Hkr.
  - intros g Hg. by apply elem_of_nil in Hg.
Qed.

Lemma groups_of_step keyed gs k r :
  key_ok k -> groups_of keyed gs -> groups_of (keyed ++ [(k, r)]) (add_row k r gs).
Proof.
  intros Hk (Hsorted & Hcover & Hgroups).
  destruct (add_row_spec k r gs Hk Hsorted)
    as (gs1 & g0 & gs2 & Hadd & Hk0 & Hother & Hshape).
  assert (Hin_old : forall g, g ∈ gs1 ++ gs2 -> g ∈ gs).
  { intros g Hg. destruct Hshape as [-> | [-> _]]; [|done].
    apply elem_of_app in Hg as [Hg|Hg]; apply elem_of_app; [by left|].
    right. by apply list_elem_of_further. }
  split; [by apply add_row_sorted|]. rewrite Hadd. split.
  - (* every row has its group *)
    intros kr [Hkr | Hkr%list_elem_of_singleton]%elem_of_app.
    + destruct (Hcover kr Hkr) as (g & Hg & Hgk).
      destruct Hshape as [-> | [-> _]].
      * apply elem_of_app in Hg as [Hg | [-> | Hg]%elem_of_cons].
        -- exists g. split; [apply elem_of_app; by left | done].
        -- exists (accumulate g0 r). split; [|done].
           apply elem_of_app; right. apply list_elem_of_here.
        -- exists g. split; [|done].
           apply elem_of_app; right. by apply list_elem_of_further.
      * exists g. split; [|done].
        apply elem_of_app in Hg as [Hg|Hg]; apply elem_of_app; [by left|].
        right. by apply list_elem_of_further.
    + subst kr. exists (accumulate g0 r). split; [|done].
      apply elem_of_app; right. apply list_elem_of_here.
  - (* every group has its rows and counts them *)
    intros g Hg.
    assert (Hcases : g = accumulate g0 r \/ g ∈ gs1 ++ gs2).
    { apply elem_of_app in Hg as [Hg | [-> | Hg]%elem_of_cons];
        [right; apply elem_of_app; by left | by left
        | right; apply elem_of_app; by right]. }
    destruct Hcases as [-> | Hold].
    + split.
      { exists (k, r). split; [|done].
        apply elem_of_app; right. apply list_elem_of_here. }
      rewrite filter_snoc_length. simpl.
      change (counts_for (g_key g0) (k, r)) with (key_eqb k (g_key g0) && notna (r_rev r)).
      rewrite Hk0. simpl.
      assert (Hbefore : g_count g0 = length (List.filter (counts_for (g_key g0)) keyed)).
      { destruct Hshape as [-> | [-> ->]].
        - apply Hgroups. apply elem_of_app; right. apply list_elem_of_here.
        - simpl. rewrite filter_none; [done|].
          intros kr Hkr. unfold counts_for.
          destruct (key_eqb (fst kr) k) eqn:E; [|done].
          destruct (Hcover kr Hkr) as (g & Hg' & Hgk).
          rewrite Forall_forall in Hother.
          assert (Hkg : key_eqb k (g_key g) = true)
            by (eapply key_eqb_trans; [by apply key_eqb_sym | done]).
          by rewrite (Hother g Hg') in Hkg. }
      rewrite <- Hbefore. destruct (notna (r_rev r)); lia.
    + destruct (Hgroups g (Hin_old g Hold)) as [(kr & Hkr & Hgk) Hcount].
      split.
      { exists kr. split; [apply elem_of_app; by left | done]. }
      rewrite filter_snoc_length, <- Hcount.
      rewrite Forall_forall in Hother.
      unfold counts_for at 1. simpl. rewrite (Hother g Hold). simpl. lia.
Qed.

Lemma groups_of_fold keyed2 :
  forall keyed1 gs,
    Forall (fun kr => key_ok (fst kr)) keyed2 ->
    groups_of keyed1 gs ->
    groups_of (keyed1 ++ keyed2)
              (fold_left (fun gs kr => add_row (fst kr) (snd kr) gs) keyed2 gs).
Proof.
  induction keyed2 as [|[k r] keyed2 IH]; intros keyed1 gs Hok Hgs; simpl.
  - by rewrite app_nil_r.
  - apply Forall_cons in Hok as [Hk Hok].
    replace (keyed1 ++ (k, r) :: keyed2) with ((keyed1 ++ [(k, r)]) ++ keyed2)
      by (by rewrite <- app_assoc).
    apply IH; [done|]. by apply groups_of_step.
Qed.

(** [groupby] yields the groups of its rows. *)
Lemma groupby_groups keyed :
  Forall (fun kr => key_ok (fst kr)) keyed -> groups_of keyed (groupby keyed).
Proof.
  intros Hok. unfold groupby.
  apply (groups_of_fold keyed [] []); [done | apply groups_of_nil].
Qed.

(** Groups at different positions have different keys. *)
Lemma sorted_groups_distinct gs :
  sorted_groups gs ->
  StronglySorted (fun g g' => ~ key_eqb (g_key g) (g_key g') = true) gs.
Proof.
  intros [Hs _]. induction Hs as [|g gs Hs IH Hlt]; constructor; [done|].
  eapply Forall_impl; [exact Hlt|]. simpl. intros g' Hg'.
  by rewrite (key_ltb_not_eq _ _ Hg').
Qed.

(** A relation that sends different elements to different images bounds
    the length. *)
Lemma injection_length {A B} (E : A -> A -> Prop) (R : A -> B -> Prop)
      (l0 : list A) :
  forall l3 : list B,
    StronglySorted (fun a b => ~ E a b) l0 ->
    (forall a, a ∈ l0 -> exists c, c ∈ l3 /\ R a c) ->
    (forall a b c, R a c -> R b c -> E a b) ->
    (length l0 <= length l3)%nat.
Proof.
  induction l0 as [|a l0 IH]; intros l3 Hs Himg Hinj; simpl; [lia|].
  apply StronglySorted_inv in Hs as [Hs Ha].
  destruct (Himg a) as (c & Hc & Rac); [apply list_elem_of_here|].
  apply list_elem_of_split in Hc as (l1 & l2 & ->).
  rewrite length_app. simpl.
  specialize (IH (l1 ++ l2) Hs). rewrite length_app in IH.
  enough (length l0 <= length l1 + length l2)%nat by lia.
  apply IH; [|done].
  intros b Hb.
  destruct (Himg b) as (c' & Hc' & Rbc); [by apply list_elem_of_further|].
  exists c'. split; [|done].
  apply elem_of_app in Hc' as [Hc' | [-> | Hc']%elem_of_cons];
    apply elem_of_app; [by left | | by right].
  exfalso. rewrite Forall_forall in Ha. by apply (Ha b Hb), (Hinj a b c).
Qed.

End Grouping.

Section Sorting.

Context {F : Type} `{ComparableFloats F}.

Implicit Types (b c : bucket F) (l : list (bucket F)).

Lemma insert_asc_perm b l : insert_asc b l ≡ₚ b :: l.
Proof.
  induction l as [|c l IH]; simpl; [done|].
  destruct (fltb (revenue b) (revenue c)); [done|].
  rewrite IH. apply Permutation_swap.
Qed.

Lemma sort_asc_perm l : sort_asc l ≡ₚ l.
Proof.
  unfold sort_asc.
  enough (forall acc, fold_left (fun acc b => insert_asc b acc) l acc ≡ₚ acc ++ l)
    as Hgen by apply (Hgen []).
  induction l as [|b l IH]; intros acc; simpl; [by rewrite app_nil_r|].
  rewrite IH, insert_asc_perm. simpl. apply Permutation_middle.
Qed.

Lemma sort_values_desc_perm l : sort_values_desc l ≡ₚ l.
Proof.
  unfold sort_values_desc.
  rewrite <- Permutation_rev, sort_asc_perm, <- Permutation_rev.
  induction l as [|b l IH]; [done|].
  rewrite !filter_cons.
  destruct (isnan (revenue b)) eqn:E.
  - rewrite decide_False by done. rewrite decide_True by done.
    rewrite <- Permutation_middle. by rewrite IH.
  - rewrite decide_True by done. rewrite decide_False by done.
    simpl. by rewrite IH.
Qed.

(** Ascending: no later element is smaller. *)
Lemma insert_asc_sorted b l :
  StronglySorted (fun x y => fltb (revenue y) (revenue x) = false) l ->
  StronglySorted (fun x y => fltb (revenue y) (revenue x) = false) (insert_asc b l).
Proof.
  induction 1 as [|c l Hs IH Hc]; simpl; [by repeat constructor|].
  destruct (fltb (revenue b) (revenue c)) eqn:Hlt.
  - constructor; [by constructor|].
    constructor; [by apply fltb_asym|].
    eapply Forall_impl; [exact Hc|]. simpl. intros d Hd.
    destruct (fltb (revenue d) (revenue b)) eqn:Hdb; [|done].
    by rewrite (fltb_trans _ _ _ Hdb Hlt) in Hd.
  - constructor; [done|].
    rewrite insert_asc_perm. by constructor.
Qed.

Lemma sort_asc_sorted l :
  StronglySorted (fun x y => fltb (revenue y) (revenue x) = false) (sort_asc l).
Proof.
  unfold sort_asc.
  enough (forall acc,
             StronglySorted (fun x y => fltb (revenue y) (revenue x) = false) acc ->
             StronglySorted (fun x y => fltb (revenue y) (revenue x) = false)
               (fold_left (fun acc b => insert_asc b acc) l acc))
    as Hgen by (apply Hgen; constructor).
  induction l as [|b l IH]; intros acc Hacc; simpl; [done|].
  apply IH. by apply insert_asc_sorted.
Qed.

Lemma StronglySorted_reverse {A} (R : A -> A -> Prop) (l : list A) :
  StronglySorted R l -> StronglySorted (fun x y => R y x) (rev l).
Proof.
  induction 1 as [|x l Hs IH Hx]; simpl; [constructor|].
  apply StronglySorted_app_2; [|done|by repeat constructor].
  intros y z Hy Hz. apply list_elem_of_singleton in Hz as ->.
  rewrite Forall_forall in Hx. apply Hx.
  apply list_elem_of_In. apply list_elem_of_In in Hy. by apply in_rev.
Qed.

Lemma StronglySorted_among {A} (R R' : A -> A -> Prop) (P : A -> Prop) (l : list A) :
  (forall x y, P x -> P y -> R x y -> R' x y) ->
  Forall P l -> StronglySorted R l -> StronglySorted R' l.
Proof.
  intros HR HP. induction 1 as [|x l Hs IH Hx]; [constructor|].
  apply Forall_cons in HP as [Hpx HP]. constructor; [by apply IH|].
  rewrite Forall_forall in Hx, HP. apply Forall_forall. intros y Hy.
  apply HR; [done | by apply HP | by apply Hx].
Qed.

(** The revenues that are numbers descend, the others follow them. *)
Lemma sort_values_desc_sorted l : StronglySorted descends (sort_values_desc l).
Proof.
  unfold sort_values_desc. apply StronglySorted_app_2.
  - intros x y _ Hy. apply list_elem_of_filter in Hy as [Hy _].
    split; [by left | done].
  - apply (StronglySorted_among
             (fun x y => fltb (revenue x) (revenue y) = false) _
             (fun b => isnan (revenue b) = false)).
    + intros x y Hx _ Hxy. split; [by right | congruence].
    + apply Forall_forall. intros x Hx.
      rewrite <- Permutation_rev, sort_asc_perm, <- Permutation_rev in Hx.
      by apply list_elem_of_filter in Hx as [Hx _].
    + apply StronglySorted_reverse, sort_asc_sorted.
  - apply (StronglySorted_among (fun _ _ => True) _ (fun b => isnan (revenue b) = true)).
    + intros x y _ Hy _. split; [by left | done].
    + apply Forall_forall. intros x Hx. by apply list_elem_of_filter in Hx as [Hx _].
    + induction (filter _ l) as [|b l' IH]; constructor; [done|].
      by apply Forall_forall.
Qed.

End Sorting.

Section Sums.

Context {F : Type} `{ExactSums F}.

Implicit Types (x y z : F) (xs : list F) (g : group F) (gs : list (group F)).

Lemma fadd_0_r x : fadd x f0 = x.
Proof. by rewrite fadd_comm, fadd_0_l. Qed.

Lemma fold_left_fadd xs : forall a, fold_left fadd xs a = fadd a (fsum xs).
Proof.
  unfold fsum. induction xs as [|y xs IH]; intros a; simpl.
  - by rewrite fadd_0_r.
  - rewrite (IH (fadd a y)), (IH (fadd f0 y)), fadd_0_l. by rewrite fadd_assoc.
Qed.

Lemma fsum_cons x xs : fsum (x :: xs) = fadd x (fsum xs).
Proof. unfold fsum at 1; simpl. by rewrite fold_left_fadd, fadd_0_l. Qed.

Lemma fsum_nil : fsum (F:=F) [] = f0.
Proof. reflexivity. Qed.

Lemma fsum_app xs ys : fsum (xs ++ ys) = fadd (fsum xs) (fsum ys).
Proof.
  induction xs as [|x xs IH]; simpl.
  - by rewrite fsum_nil, fadd_0_l.
  - by rewrite !fsum_cons, IH, fadd_assoc.
Qed.

Lemma fsum_perm xs ys : xs ≡ₚ ys -> fsum xs = fsum ys.
Proof.
  induction 1 as [|x xs ys _ IH|x y xs|xs ys zs _ IH1 _ IH2].
  - done.
  - by rewrite !fsum_cons, IH.
  - rewrite !fsum_cons, !fadd_assoc. by rewrite (fadd_comm y x).
  - by rewrite IH1.
Qed.

(** Without rounding error the compensation stays zero and the
    compensated sum is the plain sum. *)
Lemma kahan_step_exact x v : kahan_step (x, f0) v = (fadd x v, f0).
Proof.
  unfold kahan_step. cbn [fst snd].
  by rewrite fsub_0_r, fsub_cancel, feqb_0.
Qed.

Lemma kahan_acc_exact xs : kahan_acc xs = (fsum xs, f0).
Proof.
  unfold kahan_acc, fsum.
  enough (forall a, fold_left kahan_step xs (a, f0) = (fold_left fadd xs a, f0))
    as Hgen by apply Hgen.
  induction xs as [|x xs IH]; intros a; simpl; [done|].
  by rewrite kahan_step_exact, IH.
Qed.

Lemma kahan_sum_exact xs : kahan_sum xs = fsum xs.
Proof. unfold kahan_sum. by rewrite kahan_acc_exact. Qed.

(** What a row adds to the revenue of its group. *)
Lemma accumulate_revenue g (r : row F) :
  g_revenue_c g = f0 ->
  g_revenue (accumulate g r) = fadd (g_revenue g) (fsum (present_values [r_rev r]))
  /\ g_revenue_c (accumulate g r) = f0.
Proof.
  intros Hc. cbn [accumulate g_revenue g_revenue_c]. rewrite Hc.
  unfold add_revenue, present_values. cbn [omap list_omap]. unfold notna.
  destruct (r_rev r) as [v|]; cbn -[fsum kahan_step].
  - destruct (isnan v); cbn -[fsum kahan_step].
    + by rewrite fsum_nil, fadd_0_r.
    + by rewrite kahan_step_exact, fsum_cons, fsum_nil, fadd_0_r.
  - by rewrite fsum_nil, fadd_0_r.
Qed.

Lemma add_row_revenue k (r : row F) gs :
  Forall (fun g => g_revenue_c g = f0) gs ->
  fsum (g_revenue <$> add_row k r gs)
  = fadd (fsum (g_revenue <$> gs)) (fsum (present_values [r_rev r]))
  /\ Forall (fun g => g_revenue_c g = f0) (add_row k r gs).
Proof.
  assert (Hnew : g_revenue_c (new_group k) = f0) by done.
  induction gs as [|g gs IH]; intros Hgs; cbn -[accumulate fsum present_values].
  - destruct (accumulate_revenue (new_group k) r Hnew) as [Hrev Hcomp].
    split; [|by repeat constructor].
    rewrite fsum_cons, Hrev, !fsum_nil.
    cbn -[fsum present_values]. by rewrite fadd_0_r.
  - apply Forall_cons in Hgs as [Hg Hgs].
    destruct (key_eqb k (g_key g)); [|destruct (key_ltb k (g_key g))];
      cbn -[accumulate fsum present_values].
    + destruct (accumulate_revenue g r Hg) as [Hrev Hcomp].
      split; [|by constructor].
      rewrite !fsum_cons, Hrev.
      rewrite <- !fadd_assoc. f_equal. apply fadd_comm.
    + destruct (accumulate_revenue (new_group k) r Hnew) as [Hrev Hcomp].
      split; [|by repeat constructor].
      rewrite (fsum_cons (g_revenue (accumulate _ _))), Hrev.
      cbn -[fsum present_values]. rewrite fadd_0_l. apply fadd_comm.
    + destruct (IH Hgs) as [Hrev Hcomp].
      split; [|by constructor].
      by rewrite !fsum_cons, Hrev, fadd_assoc.
Qed.

Lemma present_values_cons (c : option F) (cs : list (option F)) :
  present_values (c :: cs) = present_values [c] ++ present_values cs.
Proof. unfold present_values; simpl. by destruct (if notna c then c else None). Qed.

Lemma groupby_revenue (keyed : list (F * F * row F)) :
  fsum (g_revenue <$> groupby keyed)
  = fsum (present_values (r_rev <$> keyed.*2)).
Proof.
  unfold groupby.
  enough (forall gs,
             Forall (fun g => g_revenue_c g = f0) gs ->
             fsum (g_revenue <$> fold_left (fun gs kr => add_row (fst kr) (snd kr) gs) keyed gs)
             = fadd (fsum (g_revenue <$> gs)) (fsum (present_values (r_rev <$> keyed.*2))))
    as Hgen by (rewrite Hgen by constructor; simpl; rewrite fsum_nil; apply fadd_0_l).
  induction keyed as [|[k r] keyed IH]; intros gs Hgs.
  - change (present_values (r_rev <$> [].*2)) with (@nil F).
    simpl. by rewrite fsum_nil, fadd_0_r.
  - change (fold_left (fun gs kr => add_row (fst kr) (snd kr) gs) ((k, r) :: keyed) gs)
      with (fold_left (fun gs kr => add_row (fst kr) (snd kr) gs) keyed (add_row k r gs)).
    change (r_rev <$> ((k, r) :: keyed).*2) with (r_rev r :: (r_rev <$> keyed.*2)).
    destruct (add_row_revenue k r gs Hgs) as [Hrev Hcomp].
    rewrite (IH _ Hcomp), Hrev.
    rewrite (present_values_cons (r_rev r) (r_rev <$> keyed.*2)), fsum_app.
    by rewrite fadd_assoc.
Qed.

End Sums.

Section AggregatorClaims.

Context {F : Type} `{PyFloatOps F}.

Implicit Types (df : NumFrame F) (l : list (bucket F)) (b : bucket F).
Implicit Types (r : row F) (c : record F) (k : F * F).

(** *** From the table to the keyed rows *)

Lemma sort_values_desc_nil : sort_values_desc (F:=F) [] = [].
Proof. reflexivity. Qed.

(** What a returned result is made of. *)
Lemma aggregate_returns df precision revenue_col l :
  aggregate_geo_clusters (Some df) precision revenue_col = Returns l ->
  if empty df then l = []
  else l = match mapM (cluster_key precision) (dropna (table_records df revenue_col)) with
           | Some keys =>
               sort_values_desc
                 (summarise <$> groupby (zip keys (dropna (table_records df revenue_col))))
           | None => []
           end.
Proof.
  unfold aggregate_geo_clusters, table_records.
  destruct (empty df); [by intros [= <-]|].
  destruct (num_cols df !! "lat") as [lat|]; [|by intros [= <-]].
  destruct (num_cols df !! "lon") as [lon|]; [|by intros [= <-]].
  destruct (num_cols df !! revenue_col) as [rev|]; [|done].
  destruct (dropna (select lat lon rev)) as [|r tmp] eqn:Etmp; [by intros [= <-]|].
  destruct (mapM (cluster_key precision) (r :: tmp)); by intros [= <-].
Qed.

Lemma keyed_rows precision (tmp : list (row F)) keys :
  mapM (cluster_key precision) tmp = Some keys ->
  zip keys tmp = omap (fun r => (fun k => (k, r)) <$> cluster_key precision r) tmp.
Proof.
  intros Hk%mapM_Some. induction Hk as [|r k tmp keys Hr _ IH]; simpl; [done|].
  rewrite Hr. simpl. by rewrite IH.
Qed.

Lemma keyed_rows_elem precision (tmp : list (row F)) keys k r :
  mapM (cluster_key precision) tmp = Some keys ->
  (k, r) ∈ zip keys tmp <-> r ∈ tmp /\ cluster_key precision r = Some k.
Proof.
  intros Hk. rewrite (keyed_rows _ _ _ Hk), list_elem_of_omap. split.
  - intros (r' & Hr' & Heq).
    destruct (cluster_key precision r') as [k'|] eqn:E; simpl in Heq; [|done].
    injection Heq as <- <-. done.
  - intros [Hr E]. exists r. split; [done|]. by rewrite E.
Qed.

Lemma dropna_numbers (rows : list (record F)) r :
  r ∈ dropna rows -> isnan (r_lat r) = false /\ isnan (r_lon r) = false.
Proof.
  unfold dropna. rewrite list_elem_of_omap. intros (c & _ & Hc).
  unfold with_coordinates in Hc.
  destruct (c_lat c) as [x|], (c_lon c) as [y|]; try done.
  destruct (isnan x) eqn:Ex, (isnan y) eqn:Ey; simpl in Hc; try done.
  injection Hc as <-. done.
Qed.

Lemma filter_omap_length {A B} (f : A -> option B) (p : B -> bool) (xs : list A) :
  length (List.filter p (omap f xs))
  = length (List.filter (fun a => match f a with Some y => p y | None => false end) xs).
Proof.
  induction xs as [|a xs IH]; [done|].
  csimpl. destruct (f a) as [y|]; csimpl; [|done].
  destruct (p y); csimpl; by rewrite IH.
Qed.

(** The rows that count for a key are the records of its bucket whose
    revenue is not missing. *)
Lemma counted_rows precision (rows : list (record F)) keys k :
  mapM (cluster_key precision) (dropna rows) = Some keys ->
  length (List.filter (counts_for k) (zip keys (dropna rows)))
  = length (List.filter (fun c => in_bucket precision k c && notna (c_rev c)) rows).
Proof.
  intros Hk. rewrite (keyed_rows _ _ _ Hk). unfold dropna.
  rewrite !filter_omap_length. f_equal. apply List.filter_ext. intros c.
  unfold in_bucket.
  destruct (with_coordinates c) as [r|] eqn:Ec; [|done].
  assert (r_rev r = c_rev c) as <-.
  { unfold with_coordinates in Ec.
    destruct (c_lat c), (c_lon c); try done.
    destruct (_ && _); [|done]. by injection Ec as <-. }
  by destruct (cluster_key precision r).
Qed.

(** C9: on a table with rows and with the columns [lat] and [lon], a
    revenue column that does not exist makes the column selection raise
    [KeyError]; no empty result is returned. *)
Theorem missing_revenue_column_raises df precision revenue_col :
  (0 < index_len df)%nat ->
  is_Some (num_cols df !! "lat") ->
  is_Some (num_cols df !! "lon") ->
  num_cols df !! revenue_col = None ->
  aggregate_geo_clusters (Some df) precision revenue_col = KeyError revenue_col.
Proof.
  intros Hrows [lat Hlat] [lon Hlon] Hrev. unfold aggregate_geo_clusters.
  assert (Hne : empty df = false).
  { unfold empty. apply orb_false_iff. split.
    - apply Nat.eqb_neq. lia.
    - apply bool_decide_eq_false. intros Hempty.
      rewrite Hempty in Hlat. by rewrite lookup_empty in Hlat. }
  by rewrite Hne, Hlat, Hlon, Hrev.
Qed.

Lemma keyed_keys_ok `{!ComparableFloats F} precision (rows : list (record F)) keys :
  mapM (cluster_key precision) (dropna rows) = Some keys ->
  Forall (fun kr => key_ok (fst kr)) (zip keys (dropna rows)).
Proof.
  intros Hk. apply Forall_forall. intros [k r] Hkr.
  apply (keyed_rows_elem _ _ _ _ _ Hk) in Hkr as [Hr Hkey].
  apply dropna_numbers in Hr as [Hlat Hlon].
  unfold cluster_key in Hkey.
  destruct (pyround (r_lat r) precision) as [a|] eqn:Ea; [|done].
  destruct (pyround (r_lon r) precision) as [b|] eqn:Eb; [|done].
  injection Hkey as <-. split; simpl.
  - by apply (pyround_number (r_lat r) precision).
  - by apply (pyround_number (r_lon r) precision).
Qed.

Lemma bucket_of_group gs b :
  b ∈ sort_values_desc (summarise <$> gs) ->
  exists g : group F, g ∈ gs /\ b = summarise g.
Proof.
  rewrite sort_values_desc_perm, list_elem_of_fmap. intros (g & -> & Hg). by exists g.
Qed.

(** C2, as the code has it: the count of a bucket is the number of
    records of the table that have both coordinates, round to the key of
    the bucket and have a revenue that is not missing. *)
Theorem bucket_count_counts_revenue
    `{!ComparableFloats F} df precision revenue_col l b :
  reserved revenue_col = false ->
  aggregate_geo_clusters (Some df) precision revenue_col = Returns l ->
  b ∈ l ->
  count b
  = length (List.filter (fun c => in_bucket precision (cluster b) c && notna (c_rev c))
                        (table_records df revenue_col)).
Proof.
  intros _ Hret%aggregate_returns Hb.
  destruct (empty df); [subst l; by apply elem_of_nil in Hb|].
  destruct (mapM _ _) as [keys|] eqn:Hk; [|subst l; by apply elem_of_nil in Hb].
  subst l. apply bucket_of_group in Hb as (g & Hg & ->).
  destruct (groupby_groups _ (keyed_keys_ok _ _ _ Hk)) as (_ & _ & Hgroups).
  destruct (Hgroups g Hg) as [_ Hcount]. simpl. rewrite Hcount.
  by apply counted_rows.
Qed.

Lemma empty_no_records df revenue_col :
  frame_wf df -> empty df = true -> table_records df revenue_col = [].
Proof.
  intros Hwf [Hn | He]%orb_true_iff; unfold table_records.
  - apply Nat.eqb_eq in Hn.
    destruct (num_cols df !! "lat") as [lat|] eqn:Elat; [|done].
    apply Hwf in Elat. rewrite Hn in Elat. apply nil_length_inv in Elat as ->.
    by destruct (num_cols df !! "lon"), (num_cols df !! revenue_col).
  - apply bool_decide_eq_true in He. rewrite He. by rewrite lookup_empty.
Qed.

(** When no coordinate of the table makes [round] raise and addition is
    exact, the revenues of the buckets sum to the revenue of the records
    that have both coordinates (missing revenues counting for nothing). *)
Lemma exact_revenue_conserved
    `{!ExactSums F} df precision revenue_col l :
  frame_wf df ->
  Forall (fun r => is_Some (cluster_key precision r))
         (dropna (table_records df revenue_col)) ->
  aggregate_geo_clusters (Some df) precision revenue_col = Returns l ->
  fsum (revenue <$> l) = located_revenue df revenue_col.
Proof.
  intros Hwf Hround Hret%aggregate_returns. unfold located_revenue.
  destruct (empty df) eqn:Eempty.
  { subst l. by rewrite (empty_no_records _ _ Hwf Eempty). }
  destruct (mapM _ _) as [keys|] eqn:Hk.
  - subst l. rewrite (fsum_perm _ _ (fmap_Permutation _ _ _ (sort_values_desc_perm _))).
    rewrite <- list_fmap_compose.
    change (revenue ∘ summarise) with (g_revenue (F:=F)).
    rewrite groupby_revenue, snd_zip; [done|].
    apply mapM_Some, Forall2_length in Hk. lia.
  - apply mapM_is_Some in Hround. rewrite Hk in Hround. by destruct Hround.
Qed.

(** C4, as the code has it: for a revenue column other than the labels
    [lat], [lon] and [cluster], the buckets come in descending order of
    revenue: no bucket is followed by one of larger revenue, and every
    bucket whose revenue is not a number comes after all the buckets
    whose revenue is a number. *)
Theorem buckets_sorted_by_revenue
    `{!ComparableFloats F} df precision revenue_col l :
  reserved revenue_col = false ->
  aggregate_geo_clusters (Some df) precision revenue_col = Returns l ->
  StronglySorted descends l.
Proof.
  intros _ Hret%aggregate_returns.
  destruct (empty df); [subst l; constructor|].
  destruct (mapM _ _); subst l; [apply sort_values_desc_sorted | constructor].
Qed.

(** C8, as the code has it: when [round] does not raise at the fine
    precision and records that share a key at the fine precision share
    one at the coarse precision, the coarse precision gives no more
    buckets than the fine one. *)
Theorem coarser_rounding_merges_when_nested
    `{!ComparableFloats F} df fine coarse revenue_col l_fine l_coarse :
  reserved revenue_col = false ->
  Forall (fun r => is_Some (cluster_key fine r)) (dropna (table_records df revenue_col)) ->
  rounding_nests fine coarse (dropna (table_records df revenue_col)) ->
  aggregate_geo_clusters (Some df) fine revenue_col = Returns l_fine ->
  aggregate_geo_clusters (Some df) coarse revenue_col = Returns l_coarse ->
  (length l_coarse <= length l_fine)%nat.
Proof.
  intros _ Hround Hnest Hfine%aggregate_returns Hcoarse%aggregate_returns.
  destruct (empty df); [subst; simpl; lia|].
  destruct (mapM (cluster_key coarse) _) as [keys0|] eqn:Hk0; [|subst; simpl; lia].
  destruct (mapM (cluster_key fine) _) as [keys3|] eqn:Hk3;
    [|apply mapM_is_Some in Hround; rewrite Hk3 in Hround; by destruct Hround].
  subst. rewrite !sort_values_desc_perm, !length_fmap.
  set (tmp := dropna (table_records df revenue_col)) in *.
  destruct (groupby_groups _ (keyed_keys_ok _ _ _ Hk0)) as (Hsorted0 & _ & Hgroups0).
  destruct (groupby_groups _ (keyed_keys_ok _ _ _ Hk3)) as (_ & Hcover3 & _).
  apply (injection_length
           (fun g g' => key_eqb (g_key g) (g_key g') = true)
           (fun g0 g3 => exists r k0 k3,
                r ∈ tmp
                /\ cluster_key coarse r = Some k0 /\ key_eqb k0 (g_key g0) = true
                /\ cluster_key fine r = Some k3 /\ key_eqb k3 (g_key g3) = true)).
  - by apply sorted_groups_distinct.
  - intros g0 Hg0.
    destruct (Hgroups0 g0 Hg0) as [([k0 r] & Hkr & Hkey) _]. simpl in Hkey.
    apply (keyed_rows_elem _ _ _ _ _ Hk0) in Hkr as [Hr Hc0].
    rewrite Forall_forall in Hround.
    destruct (Hround r Hr) as [k3 Hc3].
    destruct (Hcover3 (k3, r)) as (g3 & Hg3 & Hkey3).
    { by apply (keyed_rows_elem _ _ _ _ _ Hk3). }
    exists g3. split; [done|]. by exists r, k0, k3.
  - intros a b c (r & k0 & k3 & Hr & Hc0 & Ha & Hc3 & Hc)
                 (r' & k0' & k3' & Hr' & Hc0' & Hb & Hc3' & Hc').
    assert (Hsame : key_eqb k0 k0' = true).
    { apply (Hnest r r' k3 k3' k0 k0'); try done.
      eapply key_eqb_trans; [done | by apply key_eqb_sym]. }
    eapply key_eqb_trans; [by apply key_eqb_sym|].
    by eapply key_eqb_trans.
Qed.

End AggregatorClaims.

(** ** Exact arithmetic has the properties asked for *)

Lemma exact_feqb (x y : Qc) : feqb x y = true <-> x = y.
Proof.
  simpl. unfold Qc_eq_bool.
  destruct (Qcanon.Qc_eq_dec x y) as [E|N]; split; intros Hx;
    first [done | by exfalso; apply N].
Qed.

Lemma exact_fltb (x y : Qc) : fltb x y = true <-> (x < y)%Qc.
Proof.
  simpl. rewrite Qclt_alt. by destruct (x ?= y)%Qc.
Qed.

Lemma exact_fltb_false (x y : Qc) : fltb x y = false <-> ~ (x < y)%Qc.
Proof.
  rewrite <- exact_fltb. by destruct (fltb x y).
Qed.

#[global] Instance exact_comparable : ComparableFloats Qc.
Proof.
  split.
  - intros x _. by apply exact_feqb.
  - intros x y ->%exact_feqb. by apply exact_feqb.
  - intros x y z ->%exact_feqb ->%exact_feqb. by apply exact_feqb.
  - intros x y Hlt%exact_fltb.
    destruct (feqb x y) eqn:E; [|done].
    apply exact_feqb in E. by apply Qclt_not_eq in Hlt.
  - intros x y Hlt%exact_fltb. apply exact_fltb_false.
    intros Hgt. by apply (Qclt_not_le _ _ Hlt), Qclt_le_weak.
  - intros x y z Hxy%exact_fltb Hyz%exact_fltb. apply exact_fltb.
    by apply (Qclt_trans _ y).
  - by intros x y z ->%exact_feqb.
  - by intros x y z ->%exact_feqb.
  - intros x y _ _ Hne Hnlt. apply exact_fltb.
    apply exact_fltb_false in Hnlt.
    destruct (Qc_dec x y) as [[Hlt|Hgt]|Heq]; [done | done |].
    apply exact_feqb in Heq. congruence.
  - done.
Qed.

#[global] Instance exact_sums : ExactSums Qc.
Proof.
  split.
  - apply Qcplus_assoc.
  - apply Qcplus_comm.
  - apply Qcplus_0_l.
  - intros x. change (x - Q2Qc 0 = x)%Qc. ring.
  - intros x y. change (x + y - x - y = Q2Qc 0)%Qc. ring.
  - reflexivity.
Qed.

(** ** Binary64 floats have the comparison properties asked for *)

Module Binary64Facts.

Import Binary64.

Lemma SFcompare_rank (f1 f2 : spec_float) :
  SFcompare f1 f2
  = match rank f1, rank f2 with
    | Some r1, Some r2 => Some (lexcmp r1 r2)
    | _, _ => None
    end.
Proof.
  destruct f1 as [[|]|[|]| |[|] m1 e1], f2 as [[|]|[|]| |[|] m2 e2];
    try reflexivity; unfold lexcmp; simpl.
  rewrite Z.compare_opp, (Z.compare_antisym e1 e2).
  by destruct (e1 ?= e2)%Z.
Qed.

Lemma lexcmp_eq r1 r2 : lexcmp r1 r2 = Eq <-> r1 = r2.
Proof.
  destruct r1 as [[a b] c], r2 as [[a' b'] c']. unfold lexcmp; simpl.
  destruct (Z.compare_spec a a'), (Z.compare_spec b b'), (Z.compare_spec c c');
    split; intros Heq; try discriminate; try congruence;
    injection Heq as -> -> ->; lia.
Qed.

Lemma lexcmp_lt r1 r2 :
  lexcmp r1 r2 = Lt
  <-> (fst (fst r1) < fst (fst r2)
       \/ (fst (fst r1) = fst (fst r2)
           /\ (snd (fst r1) < snd (fst r2)
               \/ (snd (fst r1) = snd (fst r2) /\ snd r1 < snd r2))))%Z.
Proof.
  destruct r1 as [[a b] c], r2 as [[a' b'] c']. unfold lexcmp; simpl.
  destruct (Z.compare_spec a a'), (Z.compare_spec b b'), (Z.compare_spec c c');
    split; intros Hlt; try discriminate; try reflexivity; lia.
Qed.

Lemma eqb_rank (x y : float) :
  PrimFloat.eqb x y = true <-> exists r, rank (Prim2SF x) = Some r /\ rank (Prim2SF y) = Some r.
Proof.
  rewrite FloatAxioms.eqb_spec. unfold SFeqb. rewrite SFcompare_rank.
  destruct (rank (Prim2SF x)) as [r1|], (rank (Prim2SF y)) as [r2|]; split;
    try discriminate; try (by intros (r & ? & ?)).
  - destruct (lexcmp r1 r2) eqn:E; try discriminate.
    apply lexcmp_eq in E as ->. by exists r2.
  - intros (r & [= ->] & [= ->]). by rewrite (proj2 (lexcmp_eq r r)).
Qed.

Lemma ltb_rank (x y : float) :
  PrimFloat.ltb x y = true
  <-> exists r1 r2, rank (Prim2SF x) = Some r1 /\ rank (Prim2SF y) = Some r2
                    /\ lexcmp r1 r2 = Lt.
Proof.
  rewrite FloatAxioms.ltb_spec. unfold SFltb. rewrite SFcompare_rank.
  destruct (rank (Prim2SF x)) as [r1|], (rank (Prim2SF y)) as [r2|]; split;
    try discriminate; try (by intros (? & ? & ? & ? & ?)).
  - destruct (lexcmp r1 r2) eqn:E; try discriminate. by exists r1, r2.
  - intros (? & ? & [= <-] & [= <-] & ->). done.
Qed.

Lemma number_rank (x : float) :
  PrimFloat.is_nan x = false <-> exists r, rank (Prim2SF x) = Some r.
Proof.
  unfold PrimFloat.is_nan. rewrite negb_false_iff, eqb_rank. split.
  - intros (r & Hr & _). by exists r.
  - intros (r & Hr). by exists r.
Qed.

Lemma ltb_false_rank (x y : float) r1 r2 :
  rank (Prim2SF x) = Some r1 -> rank (Prim2SF y) = Some r2 ->
  PrimFloat.ltb x y = false <-> lexcmp r1 r2 <> Lt.
Proof.
  intros H1 H2. rewrite FloatAxioms.ltb_spec. unfold SFltb. rewrite SFcompare_rank, H1, H2.
  by destruct (lexcmp r1 r2).
Qed.

Lemma rank_number (f : spec_float) : f <> S754_nan -> exists r, rank f = Some r.
Proof. destruct f as [[|]|[|]| |[|] m e]; intros Hf; try done; by eexists. Qed.

Lemma lexcmp_total r1 r2 : r1 <> r2 -> lexcmp r1 r2 <> Lt -> lexcmp r2 r1 = Lt.
Proof.
  intros Hne Hnlt. apply lexcmp_lt. rewrite lexcmp_lt in Hnlt.
  destruct r1 as [[a b] c], r2 as [[a' b'] c']; simpl in *.
  assert (a <> a' \/ b <> b' \/ c <> c')%Z as Hdiff.
  { destruct (decide (a = a')) as [->|]; [|by left].
    destruct (decide (b = b')) as [->|]; [|by right; left].
    destruct (decide (c = c')) as [->|]; [done | by right; right]. }
  lia.
Qed.

(** *** Rounding a mantissa never gives a not-a-number *)

Lemma shr_1_nonneg mrs : (0 <= shr_m mrs)%Z -> (0 <= shr_m (shr_1 mrs))%Z.
Proof. destruct mrs as [[|[p|p|]|p] r s]; simpl; lia. Qed.

Lemma iter_shr_1_nonneg p :
  forall mrs, (0 <= shr_m mrs)%Z -> (0 <= shr_m (SpecFloat.iter_pos shr_1 p mrs))%Z.
Proof.
  induction p as [p IH|p IH|]; intros mrs Hm; simpl.
  - by apply IH, IH, shr_1_nonneg.
  - by apply IH, IH.
  - by apply shr_1_nonneg.
Qed.

Lemma shr_fexp_nonneg m e l :
  (0 <= m)%Z -> (0 <= shr_m (fst (shr_fexp prec emax m e l)))%Z.
Proof.
  intros Hm. unfold shr_fexp, shr.
  assert (0 <= shr_m (shr_record_of_loc m l))%Z by (by destruct l as [|[| |]]).
  destruct (_ - e)%Z; simpl; [done | by apply iter_shr_1_nonneg | done].
Qed.

Lemma binary_round_aux_number sx mx ex lx :
  (0 <= mx)%Z -> binary_round_aux prec emax sx mx ex lx <> S754_nan.
Proof.
  intros Hm. unfold binary_round_aux.
  pose proof (shr_fexp_nonneg mx ex lx Hm) as H1.
  destruct (shr_fexp prec emax mx ex lx) as [mrs' e']. simpl in H1.
  assert (0 <= round_nearest_even (shr_m mrs') (loc_of_shr_record mrs'))%Z as H2.
  { unfold round_nearest_even.
    destruct (loc_of_shr_record mrs') as [|[| |]]; try done; [|lia].
    destruct (Z.even _); lia. }
  pose proof (shr_fexp_nonneg _ e' loc_Exact H2) as H3.
  destruct (shr_fexp prec emax _ e' loc_Exact) as [mrs'' e'']. simpl in H3.
  destruct (shr_m mrs''); [done | by destruct (_ <=? _)%Z | lia].
Qed.

Lemma binary_round_number sx mx ex : binary_round prec emax sx mx ex <> S754_nan.
Proof.
  unfold binary_round. destruct (shl_align _ _ _) as [mz ez].
  by apply binary_round_aux_number.
Qed.

Lemma SF2Prim_number (f : spec_float) :
  f <> S754_nan -> PrimFloat.is_nan (SF2Prim f) = false.
Proof.
  destruct f as [[|]|[|]| |s m e]; intros Hf; try done.
  apply number_rank, rank_number.
  assert (Hpm : forall n, Prim2SF (PrimFloat.of_uint63 n) <> S754_nan).
  { intros n. rewrite of_uint63_spec. unfold binary_normalize.
    destruct (Uint63Axioms.to_Z n); [done | apply binary_round_number..]. }
  assert (Hld : forall n e', Prim2SF (FloatOps.Z.ldexp (PrimFloat.of_uint63 n) e') <> S754_nan).
  { intros n e'. unfold FloatOps.Z.ldexp. rewrite ldshiftexp_spec.
    specialize (Hpm n). unfold SFldexp.
    destruct (Prim2SF (PrimFloat.of_uint63 n)); try done. apply binary_round_number. }
  unfold SF2Prim. destruct s; [|apply Hld].
  rewrite opp_spec. specialize (Hld (Uint63.of_Z (Z.pos m)) e).
  by destruct (Prim2SF _).
Qed.

Lemma of_decimal_number neg m e : Binary64.of_decimal neg m e <> S754_nan.
Proof.
  unfold Binary64.of_decimal. destruct m as [|p]; [done|].
  destruct (_ <? _)%Z; [done|]. destruct (_ <? _)%Z; [done|].
  assert (forall a b, Binary64.round_ratio neg a b <> S754_nan) as Hr.
  { intros a b. unfold Binary64.round_ratio.
    destruct (_ + _)%Z; [done | apply binary_round_number | done]. }
  destruct e; apply Hr.
Qed.

Lemma round_number x n y :
  PrimFloat.is_nan x = false -> Binary64.round x n = Some y -> PrimFloat.is_nan y = false.
Proof.
  intros Hx. unfold Binary64.round.
  destruct (Prim2SF x) as [| | |neg m e]; try (by intros [= <-]).
  destruct (_ <? _)%Z; [by intros [= <-]|].
  destruct (_ <? _)%Z; [intros [= <-]; by destruct neg|].
  cbv zeta.
  match goal with
  | |- context [Binary64.of_decimal ?a ?b ?c] =>
      pose proof (of_decimal_number a b c) as Hd;
      destruct (Binary64.of_decimal a b c) as [s| | |s m' e']
  end; try done; intros [= <-].
  - by apply (SF2Prim_number (S754_zero s)).
  - by apply (SF2Prim_number (S754_finite s m' e')).
Qed.

End Binary64Facts.

#[global] Instance binary64_comparable : ComparableFloats float.
Proof.
  split; simpl.
  - intros x Hx. unfold PrimFloat.is_nan in Hx. by apply negb_false_iff in Hx.
  - intros x y (r & Hx & Hy)%Binary64Facts.eqb_rank.
    apply Binary64Facts.eqb_rank. by exists r.
  - intros x y z (r & Hx & Hy)%Binary64Facts.eqb_rank (r' & Hy' & Hz)%Binary64Facts.eqb_rank.
    apply Binary64Facts.eqb_rank. exists r. split; [done|]. congruence.
  - intros x y (r1 & r2 & Hx & Hy & Hlt)%Binary64Facts.ltb_rank.
    destruct (PrimFloat.eqb x y) eqn:E; [|done].
    apply Binary64Facts.eqb_rank in E as (r & Hx' & Hy').
    assert (r1 = r2) as -> by congruence.
    by rewrite (proj2 (Binary64Facts.lexcmp_eq r2 r2)) in Hlt.
  - intros x y (r1 & r2 & Hx & Hy & Hlt)%Binary64Facts.ltb_rank.
    apply (Binary64Facts.ltb_false_rank y x r2 r1 Hy Hx).
    rewrite Binary64Facts.lexcmp_lt in *. lia.
  - intros x y z (r1 & r2 & Hx & Hy & H12)%Binary64Facts.ltb_rank
                 (r2' & r3 & Hy' & Hz & H23)%Binary64Facts.ltb_rank.
    assert (r2' = r2) as -> by congruence.
    apply Binary64Facts.ltb_rank. exists r1, r3. repeat split; try done.
    rewrite Binary64Facts.lexcmp_lt in *. lia.
  - intros x y z (r & Hx & Hy)%Binary64Facts.eqb_rank.
    rewrite !FloatAxioms.ltb_spec. unfold SFltb.
    by rewrite !Binary64Facts.SFcompare_rank, Hx, Hy.
  - intros x y z (r & Hx & Hy)%Binary64Facts.eqb_rank.
    rewrite !FloatAxioms.ltb_spec. unfold SFltb.
    by rewrite !Binary64Facts.SFcompare_rank, Hx, Hy.
  - intros x y (r1 & Hx)%Binary64Facts.number_rank (r2 & Hy)%Binary64Facts.number_rank
           Hne Hnlt.
    apply Binary64Facts.ltb_rank. exists r2, r1. repeat split; try done.
    apply Binary64Facts.lexcmp_total.
    + intros ->. assert (PrimFloat.eqb x y = true) as Heq
        by (apply Binary64Facts.eqb_rank; by exists r2).
      congruence.
    + by apply (Binary64Facts.ltb_false_rank x y r1 r2 Hx Hy).
  - apply Binary64Facts.round_number.
Qed.

(** ** The claims on sample tables *)

(** Closes a decidable statement about a concrete table by evaluation. *)
Ltac by_evaluation := refine (bool_decide_unpack _ _); vm_compute; exact I.

Lemma sample_raw_wf : raw_wf Samples.sample_raw.
Proof.
  change (map_Forall (fun _ col => length col = 2%nat) (raw_cols Samples.sample_raw)).
  by_evaluation.
Defined.

(** C1 on the second row of the sample file: the invoiced amount is
    missing, so the default revenue is the line revenue. *)
Lemma revenue_default_on_sample :
  let df := load_sales_csv (F:=float) Samples.no_dates Samples.sample_raw 3 in
  exists invoiced line dflt : cell float,
    source_column Samples.sample_raw "VtaFacturada" !! 1%nat = Some invoiced
    /\ source_column Samples.sample_raw "ValVentaLi" !! 1%nat = Some line
    /\ cell_at df "revenue_vta" 1 = Some invoiced
    /\ cell_at df "revenue_val" 1 = Some line
    /\ cell_at df "revenue_default" 1 = Some dflt
    /\ dflt = (if isna invoiced then line else invoiced)
    /\ (raw_cols Samples.sample_raw !! "VtaFacturada" = None -> invoiced = NoneV)
    /\ (raw_cols Samples.sample_raw !! "ValVentaLi" = None -> line = NoneV).
Proof.
  apply (revenue_default_prefers_invoiced (F:=float)
           Samples.no_dates Samples.sample_raw 3 1 sample_raw_wf).
  simpl. lia.
Defined.

(** C7, as the code has it, on the first row of the sample file, whose
    line revenue is zero. *)
Lemma margin_pct_on_sample :
  let raw := Samples.sample_raw in
  let df := load_sales_csv (F:=float) Samples.no_dates raw 3 in
  (is_Some (raw_cols raw !! "Costo") -> is_Some (raw_cols raw !! "ValVentaLi") ->
     exists cost line : cell float,
       source_column raw "Costo" !! 0%nat = Some cost
       /\ source_column raw "ValVentaLi" !! 0%nat = Some line
       /\ is_Some (float_cell cost)
       /\ is_Some (float_cell line)
       /\ cell_at df "revenue_val" 0 = Some line
       /\ cell_at df "margin" 0 = Some (cell_binop fsub line cost)
       /\ cell_at df "margin_pct" 0
          = Some (cell_binop fdiv (cell_binop fsub line cost) (replace_zero line))
       /\ (isna line = true \/ is_zero line -> cell_at df "margin_pct" 0 = Some NoneV)
       /\ (forall v, cell_at df "margin_pct" 0 = Some (Flt v) ->
             exists m d, cell_binop fsub line cost = Flt m /\ line = Flt d
                         /\ isnan d = false /\ feqb d f0 = false /\ v = fdiv m d))
  /\ (raw_cols raw !! "Costo" = None \/ raw_cols raw !! "ValVentaLi" = None ->
        columns df !! "margin_pct" = columns (read_frame raw : DataFrame float) !! "margin_pct"
        /\ (raw_cols raw !! "margin_pct" = None -> cell_at df "margin_pct" 0 = None)).
Proof.
  apply (margin_pct_guarded (F:=float)
           Samples.no_dates Samples.sample_raw 3 0 sample_raw_wf).
  simpl. lia.
Defined.

(** C9 on a table whose only revenue column is [revenue_vta]. *)
Lemma missing_revenue_column_on_sample :
  aggregate_geo_clusters (Some Samples.tie_table) 3 "revenue_val" = KeyError "revenue_val".
Proof.
  apply (missing_revenue_column_raises Samples.tie_table 3 "revenue_val").
  - simpl. lia.
  - by_evaluation.
  - by_evaluation.
  - reflexivity.
Defined.

(** C2, as the code has it, on the binary64 sample. *)
Lemma bucket_counts_on_sample :
  let records := table_records Samples.float_table "revenue_vta" in
  Forall (fun b => count b
                   = length (List.filter (fun c => in_bucket 3 (cluster b) c && notna (c_rev c))
                                         records))
         (returned (aggregate_geo_clusters (Some Samples.float_table) 3 "revenue_vta")).
Proof.
  apply Forall_forall. intros b Hb.
  apply (bucket_count_counts_revenue Samples.float_table 3 "revenue_vta"
           (returned (aggregate_geo_clusters (Some Samples.float_table) 3 "revenue_vta")) b).
  - reflexivity.
  - vm_compute. reflexivity.
  - exact Hb.
Defined.

Lemma exact_table_wf : frame_wf Samples.exact_table.
Proof.
  change (map_Forall (fun _ col => length col = 4%nat) (num_cols Samples.exact_table)).
  by_evaluation.
Defined.

(** C4, as the code has it, on the binary64 sample. *)
Lemma buckets_sorted_on_sample :
  StronglySorted descends
    (returned (aggregate_geo_clusters (Some Samples.float_table) 3 "revenue_vta")).
Proof.
  apply (buckets_sorted_by_revenue Samples.float_table 3 "revenue_vta").
  - reflexivity.
  - vm_compute. reflexivity.
Defined.

(** C8, as the code has it, on the binary64 sample, where the keys at three
    decimals refine the keys at none. *)
Lemma coarser_rounding_on_sample :
  (length (returned (aggregate_geo_clusters (Some Samples.float_table) 0 "revenue_vta"))
   <= length (returned (aggregate_geo_clusters (Some Samples.float_table) 3 "revenue_vta")))%nat.
Proof.
  apply (coarser_rounding_merges_when_nested Samples.float_table 3 0 "revenue_vta").
  - reflexivity.
  - by_evaluation.
  - intros r1 r2 a1 a2 b1 b2 H1 H2.
    vm_compute in H1. vm_compute in H2.
    repeat (apply elem_of_cons in H1 as [->|H1]); [ | | | by apply elem_of_nil in H1];
      (repeat (apply elem_of_cons in H2 as [->|H2]); [ | | | by apply elem_of_nil in H2]);
      intros E1 E2 Heq E3 E4;
      vm_compute in E1; vm_compute in E2; vm_compute in E3; vm_compute in E4;
      injection E1 as <-; injection E2 as <-; injection E3 as <-; injection E4 as <-;
      first [ vm_compute; reflexivity | vm_compute in Heq; discriminate Heq ].
  - vm_compute. reflexivity.
  - vm_compute. reflexivity.
Defined.

(** ** Where the code departs from the specification *)

(** C2 as stated fails: a record whose revenue is missing belongs to the
    bucket but is not counted. Two records round to [(1.0, 1.0)]; the
    bucket's count is 1. *)
Lemma count_skips_missing_revenue :
  exists l b,
    aggregate_geo_clusters (Some Samples.missing_revenue_table) 3 "revenue_vta" = Returns l
    /\ b ∈ l
    /\ count b = 1%nat
    /\ length (List.filter (in_bucket 3 (cluster b))
                           (table_records Samples.missing_revenue_table "revenue_vta"))
       = 2%nat.
Proof.
  eexists _, _. split; [vm_compute; reflexivity|].
  split; [apply list_elem_of_here|].
  split; vm_compute; reflexivity.
Qed.

(** C7 as stated fails: infinity is produced. The line revenue 1e-320 is
    not zero, the margin 1e-320 + 1e308 is finite, and their quotient
    overflows. *)
Lemma margin_pct_overflows :
  exists cost line margin : float,
    cell_at (load_sales_csv Samples.no_dates Samples.tiny_line_raw 3) "Costo" 0
    = Some (Flt cost)
    /\ cell_at (load_sales_csv Samples.no_dates Samples.tiny_line_raw 3) "ValVentaLi" 0
       = Some (Flt line)
    /\ cell_at (load_sales_csv Samples.no_dates Samples.tiny_line_raw 3) "margin" 0
       = Some (Flt margin)
    /\ PrimFloat.is_finite cost = true
    /\ PrimFloat.is_finite line = true
    /\ PrimFloat.is_finite margin = true
    /\ PrimFloat.eqb line 0 = false
    /\ cell_at (load_sales_csv Samples.no_dates Samples.tiny_line_raw 3) "margin_pct" 0
       = Some (Flt PrimFloat.infinity).
Proof.
  eexists _, _, _.
  split; [vm_compute; reflexivity|].
  split; [vm_compute; reflexivity|].
  split; [vm_compute; reflexivity|].
  repeat split; vm_compute; reflexivity.
Qed.

(** C4 as stated fails: the two buckets have the same revenue, and the
    bucket [(1.0, 1.0)], met second in the table, comes first:
    [groupby] hands the groups over in ascending key order. *)
Lemma ties_follow_key_order :
  exists l,
    aggregate_geo_clusters (Some Samples.tie_table) 3 "revenue_vta" = Returns l
    /\ ~ (StronglySorted not_after l
          /\ ties_first_encountered 3 (table_records Samples.tie_table "revenue_vta") l).
Proof.
  eexists. split; [vm_compute; reflexivity|].
  intros [_ Hties].
  edestruct (Hties 0%nat 1%nat) as (m & n & Hm & Hn & Hle);
    [lia | reflexivity | reflexivity | vm_compute; reflexivity |].
  vm_compute in Hm. vm_compute in Hn.
  injection Hm as <-. injection Hn as <-. lia.
Qed.

(** C8 as stated fails: 0.49951171875 and 0.50048828125 both round to 0.5
    at three decimals, and to 0.0 and 1.0 at none; one bucket becomes
    two. *)
Lemma coarser_rounding_splits :
  exists l_fine l_coarse,
    aggregate_geo_clusters (Some Samples.straddling_table) 3 "revenue_vta" = Returns l_fine
    /\ aggregate_geo_clusters (Some Samples.straddling_table) 0 "revenue_vta"
       = Returns l_coarse
    /\ length l_fine = 1%nat
    /\ length l_coarse = 2%nat
    /\ ~ (length l_coarse <= length l_fine)%nat.
Proof.
  eexists _, _. split; [vm_compute; reflexivity|].
  split; [vm_compute; reflexivity|].
  split; [reflexivity|]. split; [reflexivity|]. simpl. lia.
Qed.

(** * Further properties *)

(** ** Strings *)

Section Chars.

Lemma all_chars_app p s t :
  all_chars p (s +:+ t) = all_chars p s && all_chars p t.
Proof.
  induction s as [|c s IH]; simpl; [done|].
  by rewrite IH, andb_assoc.
Qed.

Lemma all_chars_impl (p q : ascii -> bool) s :
  (forall c, p c = true -> q c = true) -> all_chars p s = true -> all_chars q s = true.
Proof.
  intros Hpq. induction s as [|c s IH]; simpl; [done|].
  intros [Hc Hs]%andb_true_iff. rewrite (Hpq _ Hc). by apply IH.
Qed.

Lemma append_cons c (s t : string) : String c s +:+ t = String c (s +:+ t).
Proof. reflexivity. Qed.

Lemma append_assoc (s t u : string) : (s +:+ t) +:+ u = s +:+ (t +:+ u).
Proof. induction s as [|c s IH]; [done|]. rewrite !append_cons. by f_equal. Qed.

Lemma append_nil_r (s : string) : s +:+ "" = s.
Proof. induction s as [|c s IH]; [done|]. rewrite append_cons. by f_equal. Qed.

Lemma prefix_head_ne a old c s :
  a <> c -> String.prefix (String a old) (String c s) = false.
Proof. intros Hne. simpl. by destruct (ascii_dec a c). Qed.

(** A pattern whose first character does not occur is never found. *)
Lemma replace_absent a old new s :
  all_chars (fun c => negb (Ascii.eqb c a)) s = true ->
  PyStr.replace (String a old) new s = s.
Proof.
  unfold PyStr.replace. induction s as [|c s IH]; [done|].
  cbn [all_chars]. intros [Hc Hs]%andb_true_iff.
  apply negb_true_iff, Ascii.eqb_neq in Hc.
  cbn [PyStr.replace_from].
  rewrite prefix_head_ne by congruence.
  by rewrite IH.
Qed.

Lemma replace_head_ne a old new c s :
  a <> c ->
  PyStr.replace (String a old) new (String c s)
  = String c (PyStr.replace (String a old) new s).
Proof.
  intros Hne. unfold PyStr.replace. cbn [PyStr.replace_from].
  by rewrite prefix_head_ne.
Qed.

Lemma replace_char_hit a new s :
  PyStr.replace (String a "") new (String a s)
  = new +:+ PyStr.replace (String a "") new s.
Proof.
  unfold PyStr.replace. cbn [PyStr.replace_from]. simpl String.prefix.
  destruct (ascii_dec a a); [|done].
  by destruct s.
Qed.

Lemma replace_char_app a new s t :
  PyStr.replace (String a "") new (s +:+ t)
  = PyStr.replace (String a "") new s +:+ PyStr.replace (String a "") new t.
Proof.
  induction s as [|c s IH]; [done|].
  change (String c s +:+ t) with (String c (s +:+ t)).
  destruct (ascii_dec a c) as [<-|Hne].
  - rewrite !replace_char_hit, IH. by rewrite append_assoc.
  - rewrite !replace_head_ne by done. by rewrite IH.
Qed.

Lemma count_char_cons a c s :
  PyStr.count (String a "") (String c s)
  = ((if Ascii.eqb c a then 1 else 0) + PyStr.count (String a "") s)%nat.
Proof.
  unfold PyStr.count. cbn [PyStr.count_from]. simpl String.prefix.
  destruct (ascii_dec a c) as [<-|Hne].
  - rewrite Ascii.eqb_refl. by destruct s.
  - apply not_eq_sym, Ascii.eqb_neq in Hne. by rewrite Hne.
Qed.

Lemma count_char_app a s t :
  PyStr.count (String a "") (s +:+ t)
  = (PyStr.count (String a "") s + PyStr.count (String a "") t)%nat.
Proof.
  induction s as [|c s IH]; [done|].
  change (String c s +:+ t) with (String c (s +:+ t)).
  rewrite !count_char_cons, IH. lia.
Qed.

Lemma count_char_absent a s :
  all_chars (fun c => negb (Ascii.eqb c a)) s = true ->
  PyStr.count (String a "") s = 0%nat.
Proof.
  induction s as [|c s IH]; [done|].
  cbn [all_chars]. intros [Hc Hs]%andb_true_iff.
  rewrite count_char_cons, IH by done.
  apply negb_true_iff in Hc. by rewrite Hc.
Qed.

Lemma lstrip_no_space s :
  all_chars (fun c => negb (PyStr.is_space c)) s = true -> PyStr.lstrip s = s.
Proof.
  destruct s as [|c s]; [done|]. cbn [all_chars PyStr.lstrip].
  intros [Hc _]%andb_true_iff. apply negb_true_iff in Hc. by rewrite Hc.
Qed.

Lemma rstrip_no_space s :
  all_chars (fun c => negb (PyStr.is_space c)) s = true -> PyStr.rstrip s = s.
Proof.
  induction s as [|c s IH]; [done|]. cbn [all_chars PyStr.rstrip].
  intros [Hc Hs]%andb_true_iff. apply negb_true_iff in Hc.
  rewrite IH by done. rewrite Hc. by destruct s.
Qed.

Lemma strip_no_space s :
  all_chars (fun c => negb (PyStr.is_space c)) s = true -> PyStr.strip s = s.
Proof.
  intros Hs. unfold PyStr.strip. by rewrite lstrip_no_space, rstrip_no_space.
Qed.

End Chars.

(** ** [_to_number] *)

Section ToNumber.

Context {F : Type} `{PyFloatOps F}.

Lemma inert_ne a c : inert a = false -> inert c = true -> Ascii.eqb c a = false.
Proof.
  intros Ha Hc. apply Ascii.eqb_neq. intros ->. congruence.
Qed.

Lemma plain_avoids a s :
  inert a = false -> plain s = true ->
  all_chars (fun c => negb (Ascii.eqb c a)) s = true.
Proof.
  intros Ha. apply all_chars_impl. intros c Hc.
  by rewrite (inert_ne a c).
Qed.

Lemma plain_clean s : plain s = true -> clean s = true.
Proof. apply all_chars_impl. by intros c ->. Qed.

Lemma clean_app s t : clean (s +:+ t) = clean s && clean t.
Proof. apply all_chars_app. Qed.

Lemma clean_avoids a s :
  inert a = false -> a <> "."%char -> a <> ","%char -> clean s = true ->
  all_chars (fun c => negb (Ascii.eqb c a)) s = true.
Proof.
  intros Ha Hp Hc. apply all_chars_impl. intros c.
  intros [[Hi | ->%Ascii.eqb_eq]%orb_true_iff | ->%Ascii.eqb_eq]%orb_true_iff.
  - by rewrite (inert_ne a c).
  - apply negb_true_iff, Ascii.eqb_neq. congruence.
  - apply negb_true_iff, Ascii.eqb_neq. congruence.
Qed.

(** On clean text only the comma and period rules act. *)
Lemma normalise_clean s :
  clean s = true ->
  normalise_number_text s
  = if (PyStr.count "," s =? 1)%nat && (0 <? PyStr.count "." s)%nat
    then PyStr.replace "," "." (PyStr.replace "." "" s)
    else if (PyStr.count "," s =? 1)%nat && (PyStr.count "." s =? 0)%nat
         then PyStr.replace "," "." s
         else PyStr.replace "," "" s.
Proof.
  intros Hs. unfold normalise_number_text.
  rewrite strip_no_space.
  2:{ revert Hs. apply all_chars_impl. intros c.
      unfold inert.
      intros [[Hi | ->%Ascii.eqb_eq]%orb_true_iff | ->%Ascii.eqb_eq]%orb_true_iff; [|done..].
      by apply andb_true_iff in Hi as [[_ ?]%andb_true_iff _]. }
  unfold currency_markers. cbn [fold_left].
  repeat rewrite (replace_absent _ _ _ s)
    by (apply clean_avoids; [reflexivity | discriminate | discriminate | done]).
  done.
Qed.

Lemma concat_cons2 sep (g g' : string) gs :
  String.concat sep (g :: g' :: gs) = g +:+ sep +:+ String.concat sep (g' :: gs).
Proof. reflexivity. Qed.

Lemma plain_concat sep gs :
  plain sep = true -> Forall (fun g => plain g = true) gs -> plain (String.concat sep gs) = true.
Proof.
  intros Hsep. induction 1 as [|g gs Hg Hgs IH]; [done|].
  destruct gs as [|g' gs]; [done|].
  rewrite concat_cons2. unfold plain in *. rewrite !all_chars_app.
  by rewrite Hg, Hsep, IH.
Qed.

Lemma count_sep_concat a gs :
  inert a = false ->
  Forall (fun g => plain g = true) gs ->
  PyStr.count (String a "") (String.concat (String a "") gs) = pred (length gs).
Proof.
  intros Ha. induction 1 as [|g gs Hg Hgs IH]; [done|].
  destruct gs as [|g' gs].
  - simpl. by apply count_char_absent, plain_avoids.
  - rewrite concat_cons2, !count_char_app, IH.
    rewrite (count_char_absent a g) by by apply plain_avoids.
    rewrite count_char_cons, Ascii.eqb_refl. simpl. lia.
Qed.

Lemma count_other_concat a b gs :
  inert a = false -> a <> b ->
  Forall (fun g => plain g = true) gs ->
  PyStr.count (String a "") (String.concat (String b "") gs) = 0%nat.
Proof.
  intros Ha Hab. induction 1 as [|g gs Hg Hgs IH]; [done|].
  destruct gs as [|g' gs].
  - simpl. by apply count_char_absent, plain_avoids.
  - rewrite concat_cons2, !count_char_app, IH.
    rewrite (count_char_absent a g) by by apply plain_avoids.
    rewrite count_char_cons.
    apply not_eq_sym, Ascii.eqb_neq in Hab. by rewrite Hab.
Qed.

Lemma replace_sep_concat a new gs :
  inert a = false ->
  Forall (fun g => plain g = true) gs ->
  PyStr.replace (String a "") new (String.concat (String a "") gs) = String.concat new gs.
Proof.
  intros Ha. induction 1 as [|g gs Hg Hgs IH]; [done|].
  destruct gs as [|g' gs].
  - simpl. by apply replace_absent, plain_avoids.
  - rewrite !concat_cons2, !replace_char_app, IH.
    rewrite (replace_absent a "" new g) by by apply plain_avoids.
    rewrite replace_char_hit. f_equal. f_equal.
    unfold PyStr.replace. simpl. apply append_nil_r.
Qed.

Lemma clean_concat b gs :
  b = "."%char \/ b = ","%char ->
  Forall (fun g => plain g = true) gs -> clean (String.concat (String b "") gs) = true.
Proof.
  intros Hb. induction 1 as [|g gs Hg Hgs IH]; [done|].
  destruct gs as [|g' gs]; [by apply plain_clean|].
  rewrite concat_cons2, !clean_app, IH, (plain_clean g Hg).
  by destruct Hb as [-> | ->].
Qed.

(** X1: european notation: periods group the thousands and the one comma
    is the decimal mark. [_to_number] hands [float] the groups, a period
    and the decimals. *)
Theorem to_number_decimal_comma (groups : list string) (decimals : string) :
  Forall (fun g => plain g = true) groups -> plain decimals = true ->
  _to_number (PyStr (String.concat "." groups +:+ "," +:+ decimals))
  = float_of_string (String.concat "" groups +:+ "." +:+ decimals).
Proof.
  intros Hg Hd. cbn [_to_number pd_isna].
  rewrite normalise_clean.
  2:{ rewrite !clean_app, clean_concat, (plain_clean _ Hd) by auto. done. }
  rewrite !count_char_app.
  rewrite (count_other_concat "," ".") by done.
  rewrite (count_char_absent "," decimals) by by apply plain_avoids.
  rewrite (count_sep_concat ".") by done.
  rewrite (count_char_absent "." decimals) by by apply plain_avoids.
  rewrite !count_char_cons. simpl Ascii.eqb. simpl PyStr.count.
  replace (0 + (1 + 0 + 0) =? 1)%nat with true by done.
  rewrite !Nat.add_0_r. cbn [andb].
  destruct (0 <? pred (length groups))%nat eqn:Hlen.
  - f_equal.
    rewrite !replace_char_app, (replace_sep_concat ".") by done.
    rewrite (replace_absent "." "" "" decimals) by by apply plain_avoids.
    rewrite (replace_absent "," "" "." (String.concat "" groups)).
    2:{ apply plain_avoids; [done|]. by apply plain_concat. }
    rewrite (replace_absent "," "" "." decimals) by by apply plain_avoids.
    done.
  - apply Nat.ltb_ge in Hlen.
    replace (pred (length groups) =? 0)%nat with true
      by (symmetry; apply Nat.eqb_eq; lia).
    f_equal.
    assert (Hsame : String.concat "." groups = String.concat "" groups).
    { destruct groups as [|g [|g' gs]]; simpl in *; try done. lia. }
    rewrite Hsame, !replace_char_app.
    rewrite (replace_absent "," "" "." (String.concat "" groups)).
    2:{ apply plain_avoids; [done|]. by apply plain_concat. }
    rewrite (replace_absent "," "" "." decimals) by by apply plain_avoids.
    done.
Qed.

(** X2: commas that group the thousands are dropped, unless there is
    exactly one. *)
Theorem to_number_grouping_commas (groups : list string) (decimals : string) :
  Forall (fun g => plain g = true) groups -> plain decimals = true ->
  length groups <> 2%nat ->
  _to_number (PyStr (String.concat "," groups +:+ "." +:+ decimals))
  = float_of_string (String.concat "" groups +:+ "." +:+ decimals).
Proof.
  intros Hg Hd Hlen. cbn [_to_number pd_isna].
  rewrite normalise_clean.
  2:{ rewrite !clean_app, clean_concat, (plain_clean _ Hd) by auto. done. }
  rewrite !count_char_app.
  rewrite (count_sep_concat ",") by done.
  rewrite (count_char_absent "," decimals) by by apply plain_avoids.
  rewrite !count_char_cons. simpl Ascii.eqb. simpl PyStr.count.
  rewrite !Nat.add_0_r.
  replace (pred (length groups) =? 1)%nat with false
    by (symmetry; apply Nat.eqb_neq; lia).
  cbn [andb]. f_equal.
  rewrite !replace_char_app, (replace_sep_concat ",") by done.
  rewrite (replace_absent "," "" "" decimals) by by apply plain_avoids.
  done.
Qed.

(** X3: one grouping comma before a decimal period is taken for the decimal
    mark, and the period is dropped. *)
Theorem to_number_single_comma_and_period (thousands units decimals : string) :
  plain thousands = true -> plain units = true -> plain decimals = true ->
  _to_number (PyStr (thousands +:+ "," +:+ units +:+ "." +:+ decimals))
  = float_of_string (thousands +:+ "." +:+ units +:+ decimals).
Proof.
  intros Ht Hu Hd. cbn [_to_number pd_isna].
  rewrite normalise_clean.
  2:{ by rewrite !clean_app, (plain_clean _ Ht), (plain_clean _ Hu), (plain_clean _ Hd). }
  rewrite !count_char_app, !count_char_cons. simpl Ascii.eqb. simpl PyStr.count.
  rewrite !(count_char_absent ",") by by apply plain_avoids.
  rewrite !(count_char_absent ".") by by apply plain_avoids.
  cbn [Nat.add Nat.eqb Nat.ltb Nat.leb andb]. f_equal.
  rewrite !replace_char_app.
  rewrite (replace_absent "." "" "" thousands) by by apply plain_avoids.
  rewrite (replace_absent "." "" "" units) by by apply plain_avoids.
  rewrite (replace_absent "." "" "" decimals) by by apply plain_avoids.
  rewrite (replace_absent "," "" "." thousands) by by apply plain_avoids.
  rewrite (replace_absent "," "" "." units) by by apply plain_avoids.
  rewrite (replace_absent "," "" "." decimals) by by apply plain_avoids.
  done.
Qed.

End ToNumber.

Section Markers.

Context {F : Type} `{PyFloatOps F}.

Lemma lstrip_head c s : PyStr.is_space c = false -> PyStr.lstrip (String c s) = String c s.
Proof. intros Hc. simpl. by rewrite Hc. Qed.

Lemma rstrip_head c s :
  PyStr.is_space c = false -> PyStr.rstrip (String c s) = String c (PyStr.rstrip s).
Proof. intros Hc. cbn [PyStr.rstrip]. rewrite Hc. by destruct (PyStr.rstrip s). Qed.

Lemma strip_head c s :
  PyStr.is_space c = false -> PyStr.strip (String c s) = String c (PyStr.rstrip s).
Proof. intros Hc. unfold PyStr.strip. by rewrite lstrip_head, rstrip_head. Qed.

Lemma normalise_unfold s :
  normalise_number_text s
  = separators
      (PyStr.replace " " ""
         (PyStr.replace "¢" ""
            (PyStr.replace "€" ""
               (PyStr.replace "Bs." ""
                  (PyStr.replace "Bs" ""
                     (PyStr.replace "US$" "" (PyStr.replace "$" "" (PyStr.strip s)))))))).
Proof. reflexivity. Qed.

(** X4: the marker ["Bs."] is looked for after ["Bs"] has been removed, so
    its period stays behind. *)
Theorem to_number_bs_period_left (s : string) :
  _to_number (PyStr ("Bs." +:+ s)) = _to_number (PyStr ("." +:+ s)).
Proof.
  cbn [_to_number pd_isna]. f_equal.
  rewrite !normalise_unfold. f_equal. f_equal. f_equal. f_equal. f_equal.
  change ("Bs." +:+ s) with (String "B" (String "s" (String "." s))).
  change ("." +:+ s) with (String "." s).
  rewrite (strip_head "B") by done.
  rewrite (rstrip_head "s") by done.
  rewrite (rstrip_head ".") by done.
  rewrite (strip_head ".") by done.
  rewrite !(replace_head_ne "$") by done.
  rewrite !(replace_head_ne "U") by done.
  rewrite (replace_head_ne "B" "s" "" ".") by done.
  generalize (PyStr.replace "US$" "" (PyStr.replace "$" "" (PyStr.rstrip s))).
  intros t. unfold PyStr.replace. cbn. done.
Qed.

Lemma replace_char_gone a s :
  all_chars (fun c => negb (Ascii.eqb c a)) (PyStr.replace (String a "") "" s) = true.
Proof.
  induction s as [|c s IH]; [done|].
  destruct (ascii_dec a c) as [<-|Hne].
  - by rewrite replace_char_hit.
  - rewrite replace_head_ne by done. cbn [all_chars]. rewrite IH, andb_true_r.
    apply negb_true_iff, Ascii.eqb_neq. congruence.
Qed.

(** The text handed to [float] for an argument that starts with
    ["US$"] starts with ["US"]: the dollar sign has been removed before
    ["US$"] is looked for. *)
Lemma normalise_us_dollar (s : string) :
  exists rest, normalise_number_text ("US$" +:+ s) = String "U" (String "S" rest).
Proof.
  rewrite normalise_unfold.
  change ("US$" +:+ s) with (String "U" (String "S" (String "$" s))).
  rewrite (strip_head "U") by done.
  rewrite (rstrip_head "S") by done.
  rewrite (rstrip_head "$") by done.
  rewrite !(replace_head_ne "$") by done.
  rewrite replace_char_hit. change ("" +:+ ?x) with x.
  pose proof (replace_char_gone "$" (PyStr.rstrip s)) as Hgone.
  set (t := PyStr.replace "$" "" (PyStr.rstrip s)) in *.
  assert (Hus : PyStr.replace "US$" "" (String "U" (String "S" t))
                = String "U" (String "S" (PyStr.replace "US$" "" t))).
  { unfold PyStr.replace. cbn [PyStr.replace_from].
    assert (Hp : String.prefix "US$" (String "U" (String "S" t)) = false).
    { simpl. destruct t as [|c t]; [done|].
      cbn [all_chars] in Hgone. apply andb_true_iff in Hgone as [Hc _].
      apply negb_true_iff, Ascii.eqb_neq in Hc.
      apply prefix_head_ne. congruence. }
    by rewrite Hp. }
  rewrite Hus.
  rewrite !(replace_head_ne "B") by done.
  rewrite !(replace_head_ne "226") by done.
  rewrite !(replace_head_ne "194") by done.
  rewrite !(replace_head_ne " ") by done.
  match goal with |- context [String "U" (String "S" ?r)] => generalize r end.
  intros r. unfold separators.
  rewrite !count_char_cons. simpl Ascii.eqb. cbn [Nat.add].
  rewrite !(replace_head_ne ".") by done.
  rewrite !(replace_head_ne ",") by done.
  destruct (_ && _); [eauto|]. destruct (_ && _); eauto.
Qed.

Lemma remove_char_cons a c s :
  PyStr.replace (String a "") "" (String c s)
  = if Ascii.eqb c a then PyStr.replace (String a "") "" s
    else String c (PyStr.replace (String a "") "" s).
Proof.
  destruct (Ascii.eqb c a) eqn:E.
  - apply Ascii.eqb_eq in E as ->. by rewrite replace_char_hit.
  - apply Ascii.eqb_neq in E. by rewrite replace_head_ne.
Qed.

Lemma undecorated_replace s :
  undecorated s = PyStr.replace " " "" (PyStr.replace "$" "" s).
Proof.
  induction s as [|c s IH]; [done|].
  cbn [undecorated]. rewrite (remove_char_cons "$").
  destruct (Ascii.eqb c "$") eqn:Ed.
  - by rewrite orb_true_r.
  - rewrite orb_false_r, (remove_char_cons " ").
    destruct (Ascii.eqb c " "); by rewrite IH.
Qed.

Lemma all_chars_remove p a s :
  all_chars p s = true -> all_chars p (PyStr.replace (String a "") "" s) = true.
Proof.
  induction s as [|c s IH]; [done|].
  cbn [all_chars]. intros [Hc Hs]%andb_true_iff.
  rewrite remove_char_cons. destruct (Ascii.eqb c a); [by apply IH|].
  cbn [all_chars]. by rewrite Hc, IH.
Qed.

Lemma all_chars_lstrip p s : all_chars p s = true -> all_chars p (PyStr.lstrip s) = true.
Proof.
  induction s as [|c s IH]; [done|].
  cbn [all_chars PyStr.lstrip]. intros [Hc Hs]%andb_true_iff.
  destruct (PyStr.is_space c); [by apply IH|].
  cbn [all_chars]. by rewrite Hc, Hs.
Qed.

Lemma all_chars_rstrip p s : all_chars p s = true -> all_chars p (PyStr.rstrip s) = true.
Proof.
  induction s as [|c s IH]; [done|].
  cbn [all_chars PyStr.rstrip]. intros [Hc Hs]%andb_true_iff.
  specialize (IH Hs).
  destruct (PyStr.rstrip s) as [|d t].
  - destruct (PyStr.is_space c); [done|]. cbn [all_chars]. by rewrite Hc.
  - cbn [all_chars] in *. by rewrite Hc, IH.
Qed.

Lemma decorated_space c :
  inert c || Ascii.eqb c "." || Ascii.eqb c "," || Ascii.eqb c " " || Ascii.eqb c "$" = true ->
  PyStr.is_space c = true -> c = " "%char.
Proof.
  intros Hc Hsp.
  repeat (apply orb_true_iff in Hc as [Hc|Hc]).
  - unfold inert in Hc. rewrite Hsp in Hc. by rewrite andb_false_r in Hc.
  - apply Ascii.eqb_eq in Hc as ->. done.
  - apply Ascii.eqb_eq in Hc as ->. done.
  - by apply Ascii.eqb_eq in Hc.
  - apply Ascii.eqb_eq in Hc as ->. done.
Qed.

Lemma undecorated_lstrip s :
  decorated s = true -> undecorated (PyStr.lstrip s) = undecorated s.
Proof.
  unfold decorated. induction s as [|c s IH]; [done|].
  cbn [all_chars PyStr.lstrip]. intros [Hc Hs]%andb_true_iff.
  destruct (PyStr.is_space c) eqn:Hsp; [|done].
  rewrite (decorated_space c Hc Hsp). cbn [undecorated]. by apply IH.
Qed.

Lemma undecorated_rstrip s :
  decorated s = true -> undecorated (PyStr.rstrip s) = undecorated s.
Proof.
  unfold decorated. induction s as [|c s IH]; [done|].
  cbn [all_chars PyStr.rstrip]. intros [Hc Hs]%andb_true_iff.
  specialize (IH Hs).
  destruct (PyStr.rstrip s) as [|d t].
  - cbn [undecorated] in *. rewrite <- IH.
    destruct (PyStr.is_space c) eqn:Hsp.
    + by rewrite (decorated_space c Hc Hsp).
    + cbn [undecorated]. done.
  - cbn [undecorated] in *. by rewrite IH.
Qed.

Lemma undecorated_clean s : decorated s = true -> clean (undecorated s) = true.
Proof.
  unfold decorated, clean. induction s as [|c s IH]; [done|].
  cbn [all_chars undecorated]. intros [Hc Hs]%andb_true_iff.
  destruct (Ascii.eqb c " " || Ascii.eqb c "$") eqn:E; [by apply IH|].
  cbn [all_chars]. rewrite IH, andb_true_r by done.
  apply orb_false_iff in E as [E1 E2].
  by rewrite E1, E2, !orb_false_r in Hc.
Qed.

(** X5: spaces and dollar signs in a numeric text are ignored, wherever
    they stand. *)
Theorem to_number_ignores_decoration (s : string) :
  decorated s = true ->
  _to_number (PyStr s) = _to_number (PyStr (undecorated s)).
Proof.
  intros Hs. cbn [_to_number pd_isna]. f_equal.
  rewrite (normalise_clean (undecorated s)) by by apply undecorated_clean.
  rewrite normalise_unfold. unfold separators.
  assert (Hstrip : decorated (PyStr.strip s) = true).
  { by apply all_chars_rstrip, all_chars_lstrip. }
  assert (Hund : undecorated (PyStr.strip s) = undecorated s).
  { unfold PyStr.strip. rewrite undecorated_rstrip by by apply all_chars_lstrip.
    by apply undecorated_lstrip. }
  set (t := PyStr.replace "$" "" (PyStr.strip s)).
  assert (Ht : decorated t = true) by by apply all_chars_remove.
  assert (Hnd : all_chars (fun c => negb (Ascii.eqb c "$")) t = true)
    by apply replace_char_gone.
  assert (Habs : forall a, inert a = false -> a <> "."%char -> a <> ","%char ->
                           a <> " "%char ->
                           all_chars (fun c => negb (Ascii.eqb c a)) t = true).
  { intros a Ha Hp Hc Hsp. clear -Ht Hnd Ha Hp Hc Hsp. unfold decorated in Ht.
    induction t as [|c t IH]; [done|].
    cbn [all_chars] in *.
    apply andb_true_iff in Ht as [Hc1 Ht], Hnd as [Hc2 Hnd].
    rewrite IH, andb_true_r by done.
    apply negb_true_iff, Ascii.eqb_neq. intros ->.
    apply negb_true_iff in Hc2. rewrite Hc2, orb_false_r in Hc1.
    rewrite Ha in Hc1. simpl in Hc1.
    repeat (apply orb_true_iff in Hc1 as [Hc1|Hc1]);
      apply Ascii.eqb_eq in Hc1; congruence. }
  repeat rewrite (replace_absent _ _ _ t) by (apply Habs; [reflexivity|discriminate..]).
  subst t. rewrite <- undecorated_replace, Hund. done.
Qed.

End Markers.

Lemma parse_capital_u (rest : string) : FloatSyntax.parse (String "U" rest) = None.
Proof.
  unfold FloatSyntax.parse. rewrite strip_head by done.
  cbn. done.
Qed.

(** X6: a text that starts with ["US$"] is never read as a number. *)
Theorem to_number_us_dollar_unread (s : string) :
  _to_number (F:=float) (PyStr ("US$" +:+ s)) = None
  /\ _to_number (F:=Qc) (PyStr ("US$" +:+ s)) = None.
Proof.
  cbn [_to_number pd_isna].
  destruct (normalise_us_dollar s) as [rest ->].
  cbn [float_of_string Binary64.ops Exact.ops].
  unfold Binary64.of_string, Exact.of_string.
  by rewrite parse_capital_u.
Qed.

(** ** [_extract_latlon] *)

Section LatLon.

Context {F : Type} `{PyFloatOps F}.

Lemma split_on_free sep s : free_of sep s = true -> PyStr.split_on sep s = [s].
Proof.
  unfold free_of. induction s as [|c s IH]; [done|].
  cbn [all_chars PyStr.split_on]. intros [Hc Hs]%andb_true_iff.
  apply negb_true_iff in Hc. by rewrite Hc, IH.
Qed.

Lemma split_on_app sep a b :
  free_of sep a = true ->
  PyStr.split_on sep (a +:+ String sep b) = a :: PyStr.split_on sep b.
Proof.
  unfold free_of. induction a as [|c a IH].
  - intros _. change ("" +:+ String sep b) with (String sep b).
    cbn [PyStr.split_on]. by rewrite Ascii.eqb_refl.
  - cbn [all_chars]. intros [Hc Ha]%andb_true_iff.
    rewrite append_cons. cbn [PyStr.split_on].
    apply negb_true_iff in Hc. by rewrite Hc, IH.
Qed.

Lemma split_on_length sep s :
  length (PyStr.split_on sep s) = S (PyStr.count (String sep "") s).
Proof.
  induction s as [|c s IH]; [done|].
  rewrite count_char_cons. cbn [PyStr.split_on].
  destruct (Ascii.eqb c sep).
  - cbn [length]. by rewrite IH.
  - destruct (PyStr.split_on sep s) as [|f fs]; [done|].
    cbn [length] in *. lia.
Qed.

Lemma split_ws_from_unspaced cur s :
  all_chars (fun c => negb (PyStr.is_space c)) s = true ->
  PyStr.split_ws_from cur s
  = match cur +:+ s with EmptyString => [] | t => [t] end.
Proof.
  revert cur. induction s as [|c s IH]; intros cur.
  - intros _. rewrite append_nil_r. by destruct cur.
  - cbn [all_chars PyStr.split_ws_from]. intros [Hc Hs]%andb_true_iff.
    apply negb_true_iff in Hc. rewrite Hc, IH by done.
    by rewrite append_assoc.
Qed.

Lemma split_ws_unspaced s :
  all_chars (fun c => negb (PyStr.is_space c)) s = true ->
  (length (PyStr.split_ws s) <= 1)%nat.
Proof.
  intros Hs. unfold PyStr.split_ws. rewrite split_ws_from_unspaced by done.
  change ("" +:+ s) with s. destruct s; simpl; lia.
Qed.

Lemma contains_comma a b : PyStr.contains "," (a +:+ "," +:+ b) = true.
Proof.
  unfold PyStr.contains. rewrite count_char_app, count_char_app, count_char_cons.
  simpl Ascii.eqb. apply negb_true_iff, Nat.eqb_neq. lia.
Qed.

(** X7: a latitude and a longitude separated by one comma are read as such
    when [float] accepts both. *)
Theorem extract_latlon_comma_pair (lat_str lon_str : string) (lat lon : F) :
  free_of "," lat_str = true -> free_of "," lon_str = true ->
  float_of_string lat_str = Some lat -> float_of_string lon_str = Some lon ->
  _extract_latlon (PyStr (lat_str +:+ "," +:+ lon_str)) = (Some lat, Some lon).
Proof.
  intros Ha Hb Hlat Hlon. unfold _extract_latlon.
  rewrite contains_comma. cbn [negb].
  change ("," +:+ lon_str) with (String "," lon_str).
  rewrite split_on_app, split_on_free by done.
  by rewrite Hlat, Hlon.
Qed.

(** X8: with two commas or more and no whitespace nothing is read: neither
    the comma split nor the whitespace split gives two fields. *)
Theorem extract_latlon_many_commas (s : string) :
  unspaced s = true -> (2 <= PyStr.count "," s)%nat ->
  _extract_latlon (PyStr s) = (None, None).
Proof.
  intros Hs Hc. unfold _extract_latlon.
  destruct (negb (PyStr.contains "," s)); [done|].
  pose proof (split_on_length "," s) as Hlen.
  destruct (PyStr.split_on "," s) as [|f1 [|f2 [|f3 fs]]]; cbn [length] in Hlen; try lia.
  assert (Hws : (length (PyStr.split_ws s) <= 1)%nat).
  { apply split_ws_unspaced. revert Hs. apply all_chars_impl.
    by intros c [_ ?]%andb_true_iff. }
  destruct (PyStr.split_ws s) as [|p0 [|p1 ps]]; cbn [length] in Hws; try done; lia.
Qed.


End LatLon.

(** ** [load_sales_csv] *)

Section NormaliserShape.

Context {F : Type} `{PyFloatOps F}.
Variable to_datetime : list (option string) -> list (option Z).
Hypothesis to_datetime_length : forall col, length (to_datetime col) = length col.

Implicit Types (df : DataFrame F) (raw : RawFrame).

Lemma df_wf_setcol name col df :
  df_wf df -> length col = nrows df -> df_wf (setcol name col df).
Proof.
  intros Hwf Hlen other c. unfold setcol; simpl.
  destruct (decide (name = other)) as [<-|Hne].
  - rewrite lookup_insert_eq. by intros [= <-].
  - rewrite lookup_insert_ne by done. apply Hwf.
Qed.

Lemma df_wf_setconst name v df : df_wf df -> df_wf (setconst name v df).
Proof. intros Hwf. apply df_wf_setcol; [done|]. by rewrite length_replicate. Qed.

Lemma df_wf_read_frame raw : raw_wf raw -> df_wf (read_frame raw : DataFrame F).
Proof.
  intros Hwf name col. rewrite read_frame_lookup.
  destruct (raw_cols raw !! name) as [xs|] eqn:E; simpl; [|done].
  intros [= <-]. rewrite length_map. by apply (Hwf name).
Qed.

Lemma df_wf_normalise_numeric df col : df_wf df -> df_wf (normalise_numeric df col).
Proof.
  intros Hwf. unfold normalise_numeric.
  destruct (columns df !! col) as [xs|] eqn:E; [|done].
  apply df_wf_setcol; [done|]. rewrite length_map. by apply (Hwf col).
Qed.

Lemma df_wf_parse_dates df : df_wf df -> df_wf (parse_dates to_datetime df).
Proof.
  intros Hwf. unfold parse_dates.
  destruct (columns df !! "FechaVta") as [xs|] eqn:E; [|by apply df_wf_setconst].
  pose proof (Hwf _ _ E) as Hlen.
  repeat apply df_wf_setcol; try done.
  - by rewrite length_map, to_datetime_length, length_map.
  - by rewrite !length_map, to_datetime_length, length_map.
Qed.

Lemma df_wf_copy_or_none src dst df : df_wf df -> df_wf (copy_or_none src dst df).
Proof.
  intros Hwf. unfold copy_or_none.
  destruct (columns df !! src) as [xs|] eqn:E; [|by apply df_wf_setconst].
  apply df_wf_setcol; [done|]. by apply (Hwf src).
Qed.

Lemma df_wf_default_revenue df : df_wf df -> df_wf (default_revenue df).
Proof.
  intros Hwf. unfold default_revenue.
  destruct (columns df !! "revenue_vta") as [vta|] eqn:E1; [|done].
  destruct (columns df !! "revenue_val") as [val|] eqn:E2; [|done].
  apply df_wf_setcol; [done|]. unfold fillna.
  rewrite length_zip_with, (Hwf _ _ E1), (Hwf _ _ E2). lia.
Qed.

Lemma df_wf_extract_coordinates df : df_wf df -> df_wf (extract_coordinates df).
Proof.
  intros Hwf. unfold extract_coordinates.
  pose proof (df_wf_setconst "lon" NoneV _ (df_wf_setconst "lat" NoneV _ Hwf)) as Hwf'.
  destruct (columns _ !! "Georeferenciado") as [xs|] eqn:E; [|done].
  pose proof (Hwf' _ _ E) as Hlen.
  apply df_wf_setcol; [apply df_wf_setcol; [done|]|]; by rewrite !length_map.
Qed.

Lemma df_wf_alias src dst df : df_wf df -> df_wf (alias src dst df).
Proof.
  intros Hwf. unfold alias.
  destruct (columns df !! src) as [xs|] eqn:E; [|done].
  apply df_wf_setcol; [done|]. by apply (Hwf src).
Qed.

Lemma df_wf_geo_cluster precision df : df_wf df -> df_wf (geo_cluster precision df).
Proof.
  intros Hwf. unfold geo_cluster.
  destruct (columns df !! "lat") as [lat|] eqn:E1; [|by apply df_wf_setconst].
  destruct (columns df !! "lon") as [lon|] eqn:E2; [|by apply df_wf_setconst].
  destruct (mapM _ _) as [col|] eqn:E; [|by apply df_wf_setconst].
  apply df_wf_setcol; [done|].
  apply length_mapM in E. rewrite <- E, length_zip, (Hwf _ _ E1), (Hwf _ _ E2). lia.
Qed.

Lemma df_wf_margins df : df_wf df -> df_wf (margins df).
Proof.
  intros Hwf. unfold margins.
  destruct (columns df !! "Costo") as [costo|] eqn:E1; [|done].
  destruct (columns df !! "ValVentaLi") as [val|] eqn:E2; [|done].
  pose proof (Hwf _ _ E1). pose proof (Hwf _ _ E2).
  apply df_wf_setcol; [apply df_wf_setcol; [done|]|].
  - rewrite length_zip_with. lia.
  - rewrite !length_zip_with, length_map. simpl. lia.
Qed.

Lemma nrows_extract_coordinates df : nrows (extract_coordinates df) = nrows df.
Proof. unfold extract_coordinates. by destruct (columns _ !! "Georeferenciado"). Qed.

Lemma nrows_alias src dst df : nrows (alias src dst df) = nrows df.
Proof. unfold alias. by destruct (columns df !! src). Qed.

Lemma nrows_geo_cluster precision df : nrows (geo_cluster precision df) = nrows df.
Proof.
  unfold geo_cluster.
  destruct (columns df !! "lat"), (columns df !! "lon"); try done.
  by destruct (mapM _ _).
Qed.

Lemma nrows_margins df : nrows (margins df) = nrows df.
Proof. unfold margins. by destruct (columns df !! "Costo"), (columns df !! "ValVentaLi"). Qed.

Lemma nrows_before_margins raw precision :
  nrows (before_margins to_datetime raw precision) = raw_rows raw.
Proof.
  unfold before_margins. cbv zeta.
  rewrite nrows_geo_cluster, !nrows_alias, nrows_extract_coordinates.
  by rewrite nrows_default_revenue, nrows_with_revenue.
Qed.

Lemma df_wf_before_margins raw precision :
  raw_wf raw -> df_wf (before_margins to_datetime raw precision).
Proof.
  intros Hwf. unfold before_margins, with_revenue, typed. cbv zeta.
  apply df_wf_geo_cluster. repeat apply df_wf_alias.
  apply df_wf_extract_coordinates, df_wf_default_revenue.
  repeat apply df_wf_copy_or_none. apply df_wf_parse_dates.
  unfold numeric_cols. cbn [fold_left].
  repeat apply df_wf_normalise_numeric. by apply df_wf_read_frame.
Qed.

(** X9: the normalised frame has one row per row of the file, and every
    column, read or computed, has one cell per row. *)
Theorem normalised_frame_shape raw precision :
  raw_wf raw ->
  nrows (load_sales_csv to_datetime raw precision) = raw_rows raw
  /\ df_wf (load_sales_csv to_datetime raw precision).
Proof.
  intros Hwf. rewrite load_sales_csv_unfold. split.
  - by rewrite nrows_margins, nrows_before_margins.
  - by apply df_wf_margins, df_wf_before_margins.
Qed.

End NormaliserShape.

Section NormaliserColumns.

Context {F : Type} `{PyFloatOps F}.
Variable to_datetime : list (option string) -> list (option Z).

Implicit Types (df : DataFrame F) (raw : RawFrame).

Ltac skip_later :=
  repeat first
    [ rewrite margins_other by not_listed
    | rewrite geo_cluster_other by done
    | rewrite alias_other by done
    | rewrite extract_coordinates_other by not_listed
    | rewrite default_revenue_other by done ].

(** X10: the columns of the file other than those [load_sales_csv] writes
    come out as they were read. *)
Theorem source_columns_pass_through raw precision name :
  name ∉ written_cols ->
  columns (load_sales_csv to_datetime raw precision) !! name
  = map text_cell <$> raw_cols raw !! name.
Proof.
  intros Hn. rewrite load_sales_csv_unfold.
  unfold written_cols in Hn. rewrite elem_of_app in Hn.
  rewrite margins_other
    by (intros Hd; apply Hn; right; revert Hd; rewrite !elem_of_cons; tauto).
  rewrite untouched_before_margins.
  - apply read_frame_lookup.
  - tauto.
  - intros Hd; apply Hn; right; revert Hd; rewrite !elem_of_cons; tauto.
Qed.

Lemma margins_congr df1 df2 name :
  name <> "geo_cluster" ->
  (forall n, n <> "geo_cluster" -> columns df1 !! n = columns df2 !! n) ->
  columns (margins df1) !! name = columns (margins df2) !! name.
Proof.
  intros Hne Heq. unfold margins.
  rewrite <- (Heq "Costo"), <- (Heq "ValVentaLi") by done.
  destruct (columns df1 !! "Costo") as [costo|]; [|by apply Heq].
  destruct (columns df1 !! "ValVentaLi") as [val|]; [|by apply Heq].
  destruct (decide (name = "margin_pct")) as [->|Hp]; [by rewrite !setcol_same|].
  rewrite !(setcol_other "margin_pct") by done.
  destruct (decide (name = "margin")) as [->|Hm]; [by rewrite !setcol_same|].
  rewrite !(setcol_other "margin") by done. by apply Heq.
Qed.

(** X11: the rounding precision reaches the column [geo_cluster] and no
    other. *)
Theorem precision_only_affects_geo_cluster raw p1 p2 name :
  name <> "geo_cluster" ->
  columns (load_sales_csv to_datetime raw p1) !! name
  = columns (load_sales_csv to_datetime raw p2) !! name.
Proof.
  intros Hne. rewrite !load_sales_csv_unfold.
  apply margins_congr; [done|]. intros n Hn.
  unfold before_margins. cbv zeta. by rewrite !geo_cluster_other.
Qed.

(** X12: a numeric column of the file holds, in the result, what
    [_to_number] reads from each of its cells, the text ["nan"] standing
    for a missing cell; no later step overwrites it. *)
Theorem numeric_columns_parsed raw precision name xs i :
  name ∈ numeric_cols -> raw_cols raw !! name = Some xs ->
  cell_at (load_sales_csv to_datetime raw precision) name i
  = (fun c => opt_cell (_to_number (PyStr (default "nan" c)))) <$> xs !! i.
Proof.
  intros Hin Hxs. unfold cell_at. rewrite load_sales_csv_unfold.
  rewrite margins_other.
  2:{ unfold numeric_cols in Hin. intros Hd.
      repeat (apply elem_of_cons in Hin as [->|Hin]);
        [ | | | | by apply elem_of_nil in Hin ]; revert Hd; not_listed. }
  rewrite numeric_source_kept, Hxs by done. simpl.
  by rewrite list_lookup_fmap.
Qed.

(** *** Dates *)

Lemma after_typed raw precision name :
  name ∉ ["revenue_val"; "revenue_vta"; "revenue_default"; "lat"; "lon"; "cliente";
          "producto"; "categoria"; "ciudad"; "zona"; "geo_cluster"; "margin"; "margin_pct"] ->
  columns (load_sales_csv to_datetime raw precision) !! name
  = columns (typed to_datetime raw) !! name.
Proof.
  intros Hn. rewrite load_sales_csv_unfold.
  rewrite margins_other
    by (intros Hd; apply Hn; revert Hd; rewrite !elem_of_cons; tauto).
  unfold before_margins. cbv zeta.
  rewrite geo_cluster_other by (intros <-; apply Hn; listed).
  rewrite !alias_other by (intros <-; apply Hn; listed).
  rewrite extract_coordinates_other
    by (intros Hd; apply Hn; revert Hd; rewrite !elem_of_cons; tauto).
  rewrite default_revenue_other by (intros <-; apply Hn; listed).
  apply with_revenue_other.
  intros Hd; apply Hn; revert Hd; rewrite !elem_of_cons; tauto.
Qed.

Lemma numerics_date_column raw :
  columns (fold_left normalise_numeric numeric_cols (read_frame raw : DataFrame F)) !! "FechaVta"
  = map text_cell <$> raw_cols raw !! "FechaVta".
Proof.
  unfold numeric_cols. cbn [fold_left].
  rewrite !normalise_numeric_other by done. apply read_frame_lookup.
Qed.

Lemma nrows_numerics raw :
  nrows (fold_left normalise_numeric numeric_cols (read_frame raw : DataFrame F)) = raw_rows raw.
Proof. unfold numeric_cols. cbn [fold_left]. by rewrite !nrows_normalise_numeric. Qed.

(** X13: [FechaVta_valid] is a boolean in every row, true exactly where
    [FechaVta] holds a timestamp; [FechaVta_raw] keeps the text of the
    file. *)
Theorem date_validity_flag raw precision i :
  (forall col, length (to_datetime col) = length col) ->
  raw_wf raw -> i < raw_rows raw ->
  let df := load_sales_csv to_datetime raw precision in
  (exists valid,
     cell_at df "FechaVta_valid" i = Some (Bool valid)
     /\ (valid = true <-> exists t, cell_at df "FechaVta" i = Some (Stamp t)))
  /\ (forall xs, raw_cols raw !! "FechaVta" = Some xs ->
        cell_at df "FechaVta_raw" i = text_cell <$> xs !! i).
Proof.
  intros Hlen Hwf Hi df. subst df. unfold cell_at.
  rewrite !after_typed by not_listed.
  unfold typed, parse_dates. rewrite numerics_date_column.
  destruct (raw_cols raw !! "FechaVta") as [xs|] eqn:E.
  - change (map text_cell <$> Some xs) with (Some (map (text_cell (F:=F)) xs)). cbv iota.
    rewrite setcol_same, setcol_other, setcol_same by done.
    rewrite setcol_other, setcol_other, setcol_same by done.
    pose proof (Hwf _ _ E) as Hxs.
    destruct (lookup_lt_is_Some_2 (to_datetime (map cell_text (map (text_cell (F:=F)) xs))) i)
      as [o Ho]; [by rewrite Hlen, !length_map, Hxs|].
    rewrite !list_lookup_fmap, Ho. simpl. split.
    + destruct o as [t|]; simpl.
      * exists true. split; [done|]. split; [eauto|done].
      * exists false. split; [done|]. split; [done|]. by intros [t [=]].
    + by intros ? [= <-].
  - change (map text_cell <$> None) with (@None (list (cell F))). cbv iota.
    unfold setconst. rewrite setcol_same, setcol_other by done.
    rewrite numerics_date_column, E, nrows_numerics. simpl.
    split; [|done].
    exists false. rewrite lookup_replicate_2 by done.
    split; [done|]. split; [done|]. by intros [t [=]].
Qed.

(** *** Coordinates *)

Lemma geo_arg_text (g : option string) :
  geo_arg (text_cell g : cell F) = PyStr (default "" g).
Proof. by destruct g. Qed.

Lemma coordinate_columns raw precision :
  let df := load_sales_csv to_datetime raw precision in
  let read g := _extract_latlon (F:=F) (PyStr (default "" g)) in
  columns df !! "lat"
  = Some (match raw_cols raw !! "Georeferenciado" with
          | Some xs => map (fun g => opt_cell (fst (read g))) xs
          | None => replicate (raw_rows raw) NoneV
          end)
  /\ columns df !! "lon"
     = Some (match raw_cols raw !! "Georeferenciado" with
             | Some xs => map (fun g => opt_cell (snd (read g))) xs
             | None => replicate (raw_rows raw) NoneV
             end).
Proof.
  intros df read. subst df. rewrite load_sales_csv_unfold.
  unfold before_margins. cbv zeta. skip_later.
  rewrite extract_coordinates_lat, extract_coordinates_lon.
  rewrite georef_lookup, read_frame_lookup.
  rewrite nrows_default_revenue, nrows_with_revenue.
  destruct (raw_cols raw !! "Georeferenciado") as [xs|]; simpl; [|done].
  rewrite !map_map. split; f_equal; apply map_ext; intros g;
    by rewrite geo_arg_text.
Qed.

(** X14: with a [Georeferenciado] column, [lat] and [lon] of a row are what
    [_extract_latlon] reads from its text, the empty string standing
    for a missing cell. *)
Theorem coordinates_from_georef raw precision xs i g :
  raw_cols raw !! "Georeferenciado" = Some xs -> xs !! i = Some g ->
  let df := load_sales_csv to_datetime raw precision in
  let pair := _extract_latlon (F:=F) (PyStr (default "" g)) in
  cell_at df "lat" i = Some (opt_cell (fst pair))
  /\ cell_at df "lon" i = Some (opt_cell (snd pair)).
Proof.
  intros Hxs Hg df pair. subst df pair. unfold cell_at.
  destruct (coordinate_columns raw precision) as [-> ->].
  rewrite Hxs, !list_lookup_fmap, Hg. done.
Qed.


End NormaliserColumns.

Section NormaliserClusters.

Context {F : Type} `{PyFloatOps F}.
Variable to_datetime : list (option string) -> list (option Z).

Implicit Types (df : DataFrame F) (raw : RawFrame).

Lemma geo_cluster_column raw precision lat lon :
  let df := load_sales_csv to_datetime raw precision in
  columns df !! "lat" = Some lat -> columns df !! "lon" = Some lon ->
  columns df !! "geo_cluster"
  = Some (default (replicate (raw_rows raw) NoneV)
                  (mapM (fun p => geo_cluster_row precision (fst p) (snd p)) (zip lat lon))).
Proof.
  intros df. subst df. rewrite load_sales_csv_unfold.
  rewrite !margins_other by not_listed.
  pose proof (nrows_before_margins to_datetime raw precision) as Hrows.
  revert Hrows. unfold before_margins. cbv zeta.
  match goal with |- context [geo_cluster precision ?X] => generalize X end.
  intros X. rewrite nrows_geo_cluster. intros Hrows.
  rewrite !geo_cluster_other by done. intros Hlat Hlon.
  unfold geo_cluster, setconst. rewrite Hlat, Hlon.
  destruct (mapM _ _); rewrite setcol_same; [done|]. by rewrite Hrows.
Qed.

(** X16: a cell of [geo_cluster] that holds a pair of floats holds the key
    under which [aggregate_geo_clusters] files the row at the same
    precision. *)
Theorem geo_cluster_is_aggregation_key raw precision i a b :
  let df := load_sales_csv to_datetime raw precision in
  cell_at df "geo_cluster" i = Some (Tup (Some a) (Some b)) ->
  exists x y,
    cell_at df "lat" i = Some (Flt x) /\ cell_at df "lon" i = Some (Flt y)
    /\ isnan x = false /\ isnan y = false
    /\ forall rev, cluster_key precision {| r_lat := x; r_lon := y; r_rev := rev |}
                   = Some (a, b).
Proof.
  intros df. subst df. unfold cell_at.
  destruct (coordinate_columns to_datetime raw precision) as [Hlat Hlon].
  cbv zeta in Hlat, Hlon.
  rewrite (geo_cluster_column raw precision _ _ Hlat Hlon), Hlat, Hlon.
  match goal with |- context [zip ?l1 ?l2] => generalize l1, l2 end.
  intros lat lon.
  destruct (mapM _ _) as [col|] eqn:E; simpl.
  2:{ intros Hc. apply lookup_replicate in Hc as [[=] _]. }
  intros Hc. apply mapM_Some in E.
  destruct (Forall2_lookup_r _ _ _ _ _ E Hc) as ([la lo] & Hz & Hrow).
  apply lookup_zip_with_Some in Hz as (la' & lo' & [= <- <-] & Hla & Hlo).
  simpl in Hrow. unfold geo_cluster_row in Hrow.
  destruct (negb (isna la) && negb (isna lo)) eqn:Hna; [|by inversion Hrow].
  destruct la as [|x| | | |]; try done. destruct lo as [|y| | | |]; try done.
  simpl in Hna. apply andb_true_iff in Hna as [Hx%negb_true_iff Hy%negb_true_iff].
  exists x, y. rewrite Hla, Hlo. repeat split; try done.
  intros rev. unfold cluster_key; simpl.
  destruct (pyround x precision), (pyround y precision); try done.
  by injection Hrow as -> ->.
Qed.

(** X17: one row whose rounding raises leaves [geo_cluster] missing in every
    row. *)
Theorem geo_cluster_wiped_by_one_row raw precision j x y :
  let df := load_sales_csv to_datetime raw precision in
  cell_at df "lat" j = Some (Flt x) -> cell_at df "lon" j = Some (Flt y) ->
  isnan x = false -> isnan y = false ->
  pyround x precision = None \/ pyround y precision = None ->
  forall i, i < raw_rows raw -> cell_at df "geo_cluster" i = Some NoneV.
Proof.
  intros df. subst df. unfold cell_at.
  destruct (coordinate_columns to_datetime raw precision) as [Hlat Hlon].
  cbv zeta in Hlat, Hlon.
  rewrite (geo_cluster_column raw precision _ _ Hlat Hlon), Hlat, Hlon.
  match goal with |- context [zip ?l1 ?l2] => generalize l1, l2 end.
  intros lat lon Hx Hy Hnx Hny Hraise i Hi.
  destruct (mapM _ _) as [col|] eqn:E; simpl.
  2:{ by apply lookup_replicate_2. }
  exfalso. apply mapM_Some in E.
  assert (Hz : zip lat lon !! j = Some (Flt x, Flt y)).
  { apply lookup_zip_with_Some. eauto. }
  destruct (Forall2_lookup_l _ _ _ _ _ E Hz) as (c & _ & Hrow).
  simpl in Hrow. unfold geo_cluster_row in Hrow. simpl in Hrow.
  rewrite Hnx, Hny in Hrow. simpl in Hrow.
  destruct Hraise as [Hr|Hr]; rewrite Hr in Hrow; [done|].
  by destruct (pyround x precision).
Qed.

End NormaliserClusters.

(** ** [aggregate_geo_clusters] *)

Section Totals.

Context {F : Type} `{ComparableFloats F}.

Implicit Types (k : F * F) (g : group F) (gs : list (group F)) (r : row F).
Implicit Types (keyed : list (F * F * row F)).

Lemma kahan_acc_snoc (xs : list F) (x : F) :
  kahan_acc (xs ++ [x]) = kahan_step (kahan_acc xs) x.
Proof. unfold kahan_acc. by rewrite fold_left_app. Qed.

Lemma rows_of_snoc k keyed k' r :
  rows_of k (keyed ++ [(k', r)])
  = rows_of k keyed ++ (if key_eqb k' k then [r] else []).
Proof.
  unfold rows_of. rewrite List.filter_app, fmap_app. simpl.
  by destruct (key_eqb k' k).
Qed.

Lemma present_values_snoc (cs : list (option F)) (c : option F) :
  present_values (cs ++ [c]) = present_values cs ++ present_values [c].
Proof. unfold present_values. by rewrite omap_app. Qed.

Lemma totals_accumulate keyed g k r :
  key_eqb k (g_key g) = true ->
  totals_of keyed g -> totals_of (keyed ++ [(k, r)]) (accumulate g r).
Proof.
  intros Hk (Hsize & Hlat & Hlon & Hrev). unfold totals_of.
  cbn [g_key accumulate g_size g_lat g_lat_c g_lon g_lon_c g_revenue g_revenue_c].
  rewrite <- !surjective_pairing.
  rewrite rows_of_snoc, Hk, !fmap_app, length_app. cbn [fmap list_fmap length].
  rewrite !kahan_acc_snoc, Hsize, Hlat, Hlon, Hrev.
  repeat split; [lia|].
  rewrite present_values_snoc. unfold present_values at 3. cbn [omap list_omap].
  unfold add_revenue, notna. destruct (r_rev r) as [v|]; cbn -[kahan_step kahan_acc].
  - destruct (isnan v); cbn -[kahan_step kahan_acc];
      [by rewrite app_nil_r | by rewrite kahan_acc_snoc].
  - by rewrite app_nil_r.
Qed.

Lemma totals_other keyed g k r :
  key_eqb k (g_key g) = false ->
  totals_of keyed g -> totals_of (keyed ++ [(k, r)]) g.
Proof.
  intros Hk Ht. unfold totals_of. rewrite rows_of_snoc, Hk, app_nil_r. exact Ht.
Qed.

Lemma totals_new keyed k :
  (forall kr, kr ∈ keyed -> key_eqb (fst kr) k = false) ->
  totals_of keyed (new_group k).
Proof.
  intros Hnone. unfold totals_of.
  cbn [g_key new_group g_size g_lat g_lat_c g_lon g_lon_c g_revenue g_revenue_c].
  unfold rows_of. rewrite filter_none by done. done.
Qed.

Lemma totals_step keyed gs k r :
  key_ok k -> groups_of keyed gs ->
  Forall (totals_of keyed) gs ->
  Forall (totals_of (keyed ++ [(k, r)])) (add_row k r gs).
Proof.
  intros Hk (Hsorted & Hcover & _) Htot.
  destruct (add_row_spec k r gs Hk Hsorted)
    as (gs1 & g0 & gs2 & -> & Hk0 & Hother & Hshape).
  assert (Hold : Forall (totals_of keyed) (gs1 ++ gs2)).
  { destruct Hshape as [-> | [-> _]]; [|done].
    apply Forall_app in Htot as [H1 [_ H2]%Forall_cons]. by apply Forall_app. }
  assert (Hg0 : totals_of keyed g0).
  { destruct Hshape as [-> | [-> ->]].
    - by apply Forall_app in Htot as [_ [? _]%Forall_cons].
    - apply totals_new. intros kr Hkr.
      destruct (key_eqb (fst kr) k) eqn:E; [|done].
      destruct (Hcover kr Hkr) as (g & Hg & Hgk).
      rewrite Forall_forall in Hother.
      assert (Hkg : key_eqb k (g_key g) = true)
        by (eapply key_eqb_trans; [by apply key_eqb_sym | done]).
      by rewrite (Hother g Hg) in Hkg. }
  assert (Hold' : Forall (totals_of (keyed ++ [(k, r)])) (gs1 ++ gs2)).
  { rewrite Forall_forall in Hold, Hother. apply Forall_forall. intros g Hg.
    apply totals_other; [by apply Hother | by apply Hold]. }
  apply Forall_app in Hold' as [H1 H2].
  apply Forall_app. split; [done|]. constructor; [|done].
  by apply totals_accumulate.
Qed.

Lemma totals_fold keyed2 :
  forall keyed1 gs,
    Forall (fun kr => key_ok (fst kr)) keyed2 ->
    groups_of keyed1 gs -> Forall (totals_of keyed1) gs ->
    Forall (totals_of (keyed1 ++ keyed2))
           (fold_left (fun gs kr => add_row (fst kr) (snd kr) gs) keyed2 gs).
Proof.
  induction keyed2 as [|[k r] keyed2 IH]; intros keyed1 gs Hok Hgs Htot; simpl.
  - by rewrite app_nil_r.
  - apply Forall_cons in Hok as [Hk Hok].
    replace (keyed1 ++ (k, r) :: keyed2) with ((keyed1 ++ [(k, r)]) ++ keyed2)
      by (by rewrite <- app_assoc).
    apply IH; [done | by apply groups_of_step | by apply totals_step].
Qed.

(** [groupby] sums, per group, the rows filed under the key of the
    group, in table order. *)
Lemma groupby_totals keyed :
  Forall (fun kr => key_ok (fst kr)) keyed -> Forall (totals_of keyed) (groupby keyed).
Proof.
  intros Hok. unfold groupby.
  apply (totals_fold keyed [] []); [done | apply groups_of_nil | constructor].
Qed.

End Totals.

Section Buckets.

Context {F : Type} `{PyFloatOps F}.

Implicit Types (df : NumFrame F) (l : list (bucket F)) (b : bucket F).
Implicit Types (r : row F) (c : record F) (k : F * F).

Lemma rows_of_members precision (rows : list (record F)) keys k :
  mapM (cluster_key precision) (dropna rows) = Some keys ->
  rows_of k (zip keys (dropna rows)) = members precision k rows.
Proof.
  intros Hk. rewrite (keyed_rows _ _ _ Hk). clear Hk keys.
  unfold rows_of, members, dropna, in_bucket.
  induction rows as [|c rows IH]; [done|].
  csimpl. destruct (with_coordinates c) as [r|]; csimpl; [|done].
  destruct (cluster_key precision r) as [k'|]; csimpl; [|done].
  destruct (key_eqb k' k); csimpl; by rewrite IH.
Qed.

Lemma returned_bucket df precision revenue_col l b :
  aggregate_geo_clusters (Some df) precision revenue_col = Returns l -> b ∈ l ->
  exists keys g,
    mapM (cluster_key precision) (dropna (table_records df revenue_col)) = Some keys
    /\ g ∈ groupby (zip keys (dropna (table_records df revenue_col)))
    /\ b = summarise g.
Proof.
  intros Hret%aggregate_returns Hb.
  destruct (empty df); [subst l; by apply elem_of_nil in Hb|].
  destruct (mapM _ _) as [keys|] eqn:Hk; [|subst l; by apply elem_of_nil in Hb].
  subst l. apply bucket_of_group in Hb as (g & Hg & ->). by exists keys, g.
Qed.

(** The revenue of a bucket is the compensated sum, in table order, of
    the revenues that are not missing among the records of the bucket. *)
Lemma bucket_revenue `{!ComparableFloats F} df precision revenue_col l b :
  aggregate_geo_clusters (Some df) precision revenue_col = Returns l -> b ∈ l ->
  revenue b
  = kahan_sum (present_values
                 (r_rev <$> members precision (cluster b) (table_records df revenue_col))).
Proof.
  intros Hret Hb.
  destruct (returned_bucket _ _ _ _ _ Hret Hb) as (keys & g & Hk & Hg & ->).
  pose proof (groupby_totals _ (keyed_keys_ok _ _ _ Hk)) as Htot.
  rewrite Forall_forall in Htot.
  destruct (Htot g Hg) as (_ & _ & _ & Hrev).
  cbn [revenue cluster summarise]. unfold kahan_sum.
  by rewrite <- (rows_of_members _ _ _ _ Hk), <- Hrev.
Qed.

(** X18: with binary64 floats as in exact arithmetic, the revenue of a
    bucket is the compensated (Kahan) sum that pandas computes, in table
    order, of the revenues that are not missing among the records of
    the bucket. *)
Theorem bucket_revenue_sums_members
    `{!ComparableFloats F} df precision revenue_col l b :
  reserved revenue_col = false ->
  aggregate_geo_clusters (Some df) precision revenue_col = Returns l -> b ∈ l ->
  revenue b
  = kahan_sum (present_values
                 (r_rev <$> members precision (cluster b) (table_records df revenue_col))).
Proof. intros _. apply bucket_revenue. Qed.

(** X19: with binary64 floats as in exact arithmetic, a bucket has at
    least one record, and its latitude and longitude are the compensated
    (Kahan) sums of the coordinates of all its records, those without
    revenue included, divided by the number of these records. *)
Theorem bucket_centre_is_mean
    `{!ComparableFloats F} df precision revenue_col l b :
  reserved revenue_col = false ->
  aggregate_geo_clusters (Some df) precision revenue_col = Returns l -> b ∈ l ->
  let ms := members precision (cluster b) (table_records df revenue_col) in
  (0 < length ms)%nat
  /\ latitude b = fdiv (kahan_sum (r_lat <$> ms)) (of_nat (length ms))
  /\ longitude b = fdiv (kahan_sum (r_lon <$> ms)) (of_nat (length ms)).
Proof.
  intros _ Hret Hb ms. subst ms.
  destruct (returned_bucket _ _ _ _ _ Hret Hb) as (keys & g & Hk & Hg & ->).
  pose proof (keyed_keys_ok _ _ _ Hk) as Hok.
  pose proof (groupby_totals _ Hok) as Htot.
  rewrite Forall_forall in Htot.
  destruct (Htot g Hg) as (Hsize & Hlat & Hlon & _).
  destruct (groupby_groups _ Hok) as (_ & _ & Hgroups).
  destruct (Hgroups g Hg) as [(kr & Hkr & Hkey) _].
  cbn [latitude longitude cluster summarise].
  apply (f_equal fst) in Hlat, Hlon. cbn [fst] in Hlat, Hlon.
  unfold kahan_sum.
  rewrite Hsize, Hlat, Hlon, (rows_of_members _ _ _ _ Hk).
  split; [|done].
  rewrite <- (rows_of_members _ _ _ _ Hk). unfold rows_of. rewrite length_fmap.
  apply list_elem_of_In in Hkr.
  assert (Hin : In kr (List.filter (fun kr => key_eqb (fst kr) (g_key g))
                                   (zip keys (dropna (table_records df revenue_col)))))
    by (apply List.filter_In; done).
  destruct (List.filter _ _); [done | simpl; lia].
Qed.

Lemma StronglySorted_perm_sym {A} (R : A -> A -> Prop) (xs ys : list A) :
  (forall x y, R x y -> R y x) -> xs ≡ₚ ys -> StronglySorted R xs -> StronglySorted R ys.
Proof.
  intros Hsym. induction 1 as [|x xs ys Hp IH|x y xs|xs ys zs _ IH1 _ IH2]; intros Hs.
  - done.
  - apply StronglySorted_inv in Hs as [Hs Hx]. constructor; [by apply IH|].
    by rewrite <- Hp.
  - apply StronglySorted_inv in Hs as [Hs Hy].
    apply StronglySorted_inv in Hs as [Hs Hx].
    apply Forall_cons in Hy as [Hyx Hy].
    repeat constructor; try done. by apply Hsym.
  - by apply IH2, IH1.
Qed.

Lemma distinct_keys_same `{!ComparableFloats F} l a b :
  distinct_keys l -> a ∈ l -> b ∈ l ->
  key_eqb (cluster a) (cluster b) = true -> a = b.
Proof.
  unfold distinct_keys. induction 1 as [|x l Hs IH Hx]; intros Ha Hb Heq.
  - by apply elem_of_nil in Ha.
  - rewrite Forall_forall in Hx.
    apply elem_of_cons in Ha as [-> | Ha], Hb as [-> | Hb]; try done.
    + by rewrite (Hx b Hb) in Heq.
    + apply key_eqb_sym in Heq. by rewrite (Hx a Ha) in Heq.
    + by apply IH.
Qed.

Lemma groups_distinct_buckets `{!ComparableFloats F} (gs : list (group F)) :
  sorted_groups gs -> distinct_keys (summarise <$> gs).
Proof.
  intros Hs%sorted_groups_distinct. unfold distinct_keys.
  induction Hs as [|g gs Hs IH Hg]; [constructor|].
  cbn [fmap list_fmap]. constructor; [done|].
  apply Forall_fmap. eapply Forall_impl; [exact Hg|]. simpl. intros g' Hg'.
  by destruct (key_eqb (g_key g) (g_key g')).
Qed.

Lemma returned_keys_distinct `{!ComparableFloats F} df precision revenue_col l :
  aggregate_geo_clusters (Some df) precision revenue_col = Returns l ->
  distinct_keys l.
Proof.
  intros Hret%aggregate_returns.
  destruct (empty df); [subst l; constructor|].
  destruct (mapM _ _) as [keys|] eqn:Hk; [|subst l; constructor].
  subst l.
  destruct (groupby_groups _ (keyed_keys_ok _ _ _ Hk)) as (Hsorted & _ & _).
  eapply StronglySorted_perm_sym; [|symmetry; apply sort_values_desc_perm|
                                    by apply groups_distinct_buckets].
  intros x y Hxy. destruct (key_eqb (cluster y) (cluster x)) eqn:E; [|done].
  apply key_eqb_sym in E. congruence.
Qed.

(** X20: no two buckets of the result have the same key. *)
Theorem bucket_keys_distinct `{!ComparableFloats F} df precision revenue_col l :
  reserved revenue_col = false ->
  aggregate_geo_clusters (Some df) precision revenue_col = Returns l ->
  distinct_keys l.
Proof. intros _. apply returned_keys_distinct. Qed.

(** When no rounding raises, a record that has both coordinates falls in
    exactly one bucket of the result. *)
Lemma located_record_bucket
    `{!ComparableFloats F} df precision revenue_col l c :
  frame_wf df ->
  Forall (fun r => is_Some (cluster_key precision r))
         (dropna (table_records df revenue_col)) ->
  aggregate_geo_clusters (Some df) precision revenue_col = Returns l ->
  c ∈ table_records df revenue_col -> is_Some (with_coordinates c) ->
  exists b, b ∈ l /\ in_bucket precision (cluster b) c = true
            /\ forall b', b' ∈ l -> in_bucket precision (cluster b') c = true -> b' = b.
Proof.
  intros Hwf Hround Hret Hc [r Hr].
  pose proof (returned_keys_distinct _ _ _ _ Hret) as Hdist.
  apply aggregate_returns in Hret.
  assert (Hin : r ∈ dropna (table_records df revenue_col)).
  { unfold dropna. apply list_elem_of_omap. by exists c. }
  destruct (empty df) eqn:Eempty.
  { rewrite (empty_no_records _ _ Hwf Eempty) in Hc. by apply elem_of_nil in Hc. }
  destruct (mapM _ _) as [keys|] eqn:Hk;
    [|apply mapM_is_Some in Hround; rewrite Hk in Hround; by destruct Hround].
  subst l.
  rewrite Forall_forall in Hround. destruct (Hround r Hin) as [k Hkey].
  destruct (groupby_groups _ (keyed_keys_ok _ _ _ Hk)) as (_ & Hcover & _).
  destruct (Hcover (k, r)) as (g & Hg & Hgk).
  { by apply (keyed_rows_elem _ _ _ _ _ Hk). }
  assert (Hb : summarise g ∈ sort_values_desc
                 (summarise <$> groupby (zip keys (dropna (table_records df revenue_col))))).
  { rewrite sort_values_desc_perm. apply list_elem_of_fmap. by exists g. }
  assert (Hbucket : forall b, in_bucket precision (cluster b) c = key_eqb k (cluster b)).
  { intros b. unfold in_bucket. by rewrite Hr, Hkey. }
  exists (summarise g). split; [done|]. split; [by rewrite Hbucket|].
  intros b' Hb' Hin'. rewrite Hbucket in Hin'.
  apply (distinct_keys_same _ _ _ Hdist Hb' Hb).
  eapply key_eqb_trans; [by apply key_eqb_sym | done].
Qed.

(** X21: when no rounding raises, a record that has both coordinates falls
    in exactly one bucket of the result. *)
Theorem located_record_has_one_bucket
    `{!ComparableFloats F} df precision revenue_col l c :
  frame_wf df -> reserved revenue_col = false ->
  Forall (fun r => is_Some (cluster_key precision r))
         (dropna (table_records df revenue_col)) ->
  aggregate_geo_clusters (Some df) precision revenue_col = Returns l ->
  c ∈ table_records df revenue_col -> is_Some (with_coordinates c) ->
  exists b, b ∈ l /\ in_bucket precision (cluster b) c = true
            /\ forall b', b' ∈ l -> in_bucket precision (cluster b') c = true -> b' = b.
Proof. intros Hwf _. by apply located_record_bucket. Qed.

(** C3, as the code has it: on a well-formed table, for a revenue column
    other than the labels [lat], [lon] and [cluster], when no coordinate
    makes [round] raise, the revenue of the records that have both
    coordinates is shared out among the buckets: every such record falls
    in exactly one bucket, and the revenue of a bucket is the
    compensated (Kahan) float sum, in table order, of the revenues that
    are not missing among its records. Where addition and subtraction
    are exact, the revenues of the buckets therefore sum to the revenue
    of these records. *)
Theorem revenue_conserved_without_overflow
    `{!ComparableFloats F} df precision revenue_col l :
  frame_wf df ->
  reserved revenue_col = false ->
  Forall (fun r => is_Some (cluster_key precision r))
         (dropna (table_records df revenue_col)) ->
  aggregate_geo_clusters (Some df) precision revenue_col = Returns l ->
  (forall c, c ∈ table_records df revenue_col -> is_Some (with_coordinates c) ->
     exists b, b ∈ l /\ in_bucket precision (cluster b) c = true
               /\ forall b', b' ∈ l -> in_bucket precision (cluster b') c = true -> b' = b)
  /\ (forall b, b ∈ l ->
        revenue b
        = kahan_sum (present_values
                       (r_rev <$> members precision (cluster b)
                                    (table_records df revenue_col))))
  /\ (ExactSums F -> fsum (revenue <$> l) = located_revenue df revenue_col).
Proof.
  intros Hwf _ Hround Hret. split; [|split].
  - intros c. by apply located_record_bucket.
  - intros b. by apply bucket_revenue.
  - intros Hexact. by apply (exact_revenue_conserved df precision revenue_col l).
Qed.

End Buckets.

Section Outcomes.

Context {F : Type} `{PyFloatOps F}.

Implicit Types (df : NumFrame F) (l : list (bucket F)) (b : bucket F).
Implicit Types (r : row F) (c : record F) (k : F * F).

Lemma add_row_nonempty k r (gs : list (group F)) : add_row k r gs <> [].
Proof.
  destruct gs as [|g gs]; simpl; [done|].
  destruct (key_eqb k (g_key g)); [done|]. by destruct (key_ltb k (g_key g)).
Qed.

Lemma groupby_nonempty (keyed : list (F * F * row F)) :
  keyed <> [] -> groupby keyed <> [].
Proof.
  unfold groupby.
  assert (Hgen : forall (kd : list (F * F * row F)) gs, gs <> [] ->
            fold_left (fun gs kr => add_row (fst kr) (snd kr) gs) kd gs <> []).
  { induction kd as [|[k r] kd IH]; intros gs Hgs; simpl; [done|].
    apply IH, add_row_nonempty. }
  destruct keyed as [|[k r] keyed]; [done|]. intros _.
  cbn [fold_left fst snd]. apply Hgen, add_row_nonempty.
Qed.

Lemma mapM_None_Exists {A B} (f : A -> option B) (xs : list A) :
  mapM f xs = None <-> Exists (fun x => f x = None) xs.
Proof.
  induction xs as [|x xs IH]; csimpl.
  - split; [done|]. by intros ?%Exists_nil.
  - rewrite Exists_cons, <- IH.
    destruct (f x) as [y|]; csimpl; [|by split; [left|]].
    destruct (mapM f xs); csimpl; split; try done; [intros [?|?]; done | by right].
Qed.

(** X22: the result is empty exactly when no record has both coordinates or
    the rounding of some record that has them raises. *)
Theorem result_empty_iff df precision revenue_col l :
  frame_wf df -> reserved revenue_col = false ->
  aggregate_geo_clusters (Some df) precision revenue_col = Returns l ->
  l = [] <->
  dropna (table_records df revenue_col) = []
  \/ Exists (fun r => cluster_key precision r = None)
            (dropna (table_records df revenue_col)).
Proof.
  intros Hwf _ Hret%aggregate_returns.
  destruct (empty df) eqn:Eempty.
  { rewrite (empty_no_records _ _ Hwf Eempty). split; [by left | done]. }
  destruct (mapM _ _) as [keys|] eqn:Hk.
  - split.
    + intros ->. left.
      assert (Hnil : groupby (zip keys (dropna (table_records df revenue_col))) = []).
      { apply (f_equal length) in Hret.
        rewrite sort_values_desc_perm, length_fmap in Hret.
        by apply nil_length_inv. }
      destruct (zip keys (dropna (table_records df revenue_col))) as [|kr keyed] eqn:Ez.
      * apply mapM_Some, Forall2_length in Hk.
        apply (f_equal length) in Ez. rewrite length_zip in Ez. simpl in Ez.
        apply nil_length_inv. lia.
      * by apply groupby_nonempty in Hnil.
    + intros [Hnone | Hex].
      * rewrite Hnone in Hret. rewrite zip_with_nil_r in Hret. by subst l.
      * apply mapM_None_Exists in Hex. congruence.
  - split; [|done]. intros _. right. by apply mapM_None_Exists.
Qed.

(** *** Counts *)

Lemma add_row_counts k r (gs : list (group F)) :
  sum_list (g_count <$> add_row k r gs)
  = (sum_list (g_count <$> gs) + (if notna (r_rev r) then 1 else 0))%nat.
Proof.
  induction gs as [|g gs IH]; cbn -[notna].
  - destruct (notna (r_rev r)); lia.
  - destruct (key_eqb k (g_key g)); [|destruct (key_ltb k (g_key g))]; cbn -[notna].
    + destruct (notna (r_rev r)); lia.
    + destruct (notna (r_rev r)); lia.
    + rewrite IH. lia.
Qed.

Lemma groupby_counts (keyed : list (F * F * row F)) :
  sum_list (g_count <$> groupby keyed)
  = length (List.filter (fun kr => notna (r_rev (snd kr))) keyed).
Proof.
  unfold groupby.
  enough (forall gs,
            sum_list (g_count <$> fold_left (fun gs kr => add_row (fst kr) (snd kr) gs) keyed gs)
            = (sum_list (g_count <$> gs)
               + length (List.filter (fun kr => notna (r_rev (snd kr))) keyed))%nat)
    as Hgen by apply (Hgen []).
  induction keyed as [|[k r] keyed IH]; intros gs; cbn -[notna]; [lia|].
  rewrite IH, add_row_counts. destruct (notna (r_rev r)); simpl; lia.
Qed.

(** X23: when no rounding raises, the counts of the buckets add up to the
    number of records that have both coordinates and a revenue. *)
Theorem counts_add_up df precision revenue_col l :
  frame_wf df -> reserved revenue_col = false ->
  Forall (fun r => is_Some (cluster_key precision r))
         (dropna (table_records df revenue_col)) ->
  aggregate_geo_clusters (Some df) precision revenue_col = Returns l ->
  sum_list (count <$> l)
  = length (List.filter (fun r => notna (r_rev r)) (dropna (table_records df revenue_col))).
Proof.
  intros Hwf _ Hround Hret%aggregate_returns.
  destruct (empty df) eqn:Eempty.
  { subst l. by rewrite (empty_no_records _ _ Hwf Eempty). }
  destruct (mapM _ _) as [keys|] eqn:Hk;
    [|apply mapM_is_Some in Hround; rewrite Hk in Hround; by destruct Hround].
  subst l.
  rewrite (sum_list_with_Permutation_proper _ _ _ (fmap_Permutation _ _ _ (sort_values_desc_perm _))).
  rewrite <- list_fmap_compose.
  change (count ∘ summarise) with (g_count (F:=F)).
  rewrite groupby_counts.
  assert (Hlen : length keys = length (dropna (table_records df revenue_col))).
  { by apply mapM_Some, Forall2_length in Hk. }
  revert Hlen. generalize (dropna (table_records df revenue_col)). clear.
  induction keys as [|k keys IH]; intros [|r tmp]; simpl; try done.
  intros [= Hlen]. destruct (notna (r_rev r)); simpl; by rewrite IH.
Qed.

(** *** Which columns are read, and when the call raises *)

(** X24: the result depends on the number of rows and on the columns [lat],
    [lon] and [revenue_col] only. *)
Theorem reads_three_columns df1 df2 precision revenue_col :
  reserved revenue_col = false ->
  index_len df1 = index_len df2 ->
  num_cols df1 !! "lat" = num_cols df2 !! "lat" ->
  num_cols df1 !! "lon" = num_cols df2 !! "lon" ->
  num_cols df1 !! revenue_col = num_cols df2 !! revenue_col ->
  aggregate_geo_clusters (Some df1) precision revenue_col
  = aggregate_geo_clusters (Some df2) precision revenue_col.
Proof.
  intros _ Hlen Hlat Hlon Hrev. unfold aggregate_geo_clusters, empty.
  rewrite <- Hlen, <- Hlat, <- Hlon, <- Hrev.
  destruct (index_len df1 =? 0)%nat; [done|]. cbn [orb].
  destruct (num_cols df1 !! "lat") as [lat|] eqn:Elat.
  - rewrite !bool_decide_eq_false_2; [done| |].
    + intros He. by rewrite He, lookup_empty in Hlat.
    + intros He. by rewrite He, lookup_empty in Elat.
  - by do 2 case_bool_decide.
Qed.

(** X25: [KeyError] is raised for the revenue column only, and only on a
    table that has rows and both coordinate columns. *)
Theorem key_error_iff df precision revenue_col label :
  reserved revenue_col = false ->
  aggregate_geo_clusters (Some df) precision revenue_col = KeyError label
  <-> label = revenue_col
      /\ index_len df <> 0%nat
      /\ is_Some (num_cols df !! "lat") /\ is_Some (num_cols df !! "lon")
      /\ num_cols df !! revenue_col = None.
Proof.
  intros _. split.
  - unfold aggregate_geo_clusters, empty.
    destruct (index_len df =? 0)%nat eqn:En; [done|]. cbn [orb].
    case_bool_decide; [done|].
    destruct (num_cols df !! "lat") as [lat|]; [|done].
    destruct (num_cols df !! "lon") as [lon|]; [|done].
    destruct (num_cols df !! revenue_col) as [rev|].
    + by destruct (dropna _).
    + intros [= <-]. apply Nat.eqb_neq in En. eauto 10.
  - intros (-> & Hn & [lat Hlat] & [lon Hlon] & Hrev).
    unfold aggregate_geo_clusters, empty.
    apply Nat.eqb_neq in Hn. rewrite Hn. cbn [orb].
    rewrite bool_decide_eq_false_2
      by (intros He; by rewrite He, lookup_empty in Hlat).
    by rewrite Hlat, Hlon, Hrev.
Qed.

End Outcomes.

(** ** The normaliser and the aggregator together *)

Section Pipeline.

Context {F : Type} `{PyFloatOps F}.
Variable to_datetime : list (option string) -> list (option Z).

Implicit Types (df : DataFrame F) (raw : RawFrame).

Lemma numeric_view_lookup df name :
  num_cols (numeric_view df) !! name = columns df !! name ≫= mapM float_cell.
Proof. unfold numeric_view; simpl. apply lookup_omap. Qed.

Lemma float_cell_opt (o : option F) : float_cell (opt_cell o) = Some o.
Proof. by destruct o. Qed.

Lemma floats_map {A} (f : A -> option F) (xs : list A) :
  mapM float_cell (map (fun a => opt_cell (f a)) xs) = Some (map f xs).
Proof.
  apply mapM_Some. induction xs as [|a xs IH]; simpl; constructor; [|done].
  apply float_cell_opt.
Qed.

Lemma floats_replicate n :
  mapM float_cell (replicate n (NoneV : cell F)) = Some (replicate n None).
Proof. apply mapM_Some. induction n; simpl; by constructor. Qed.

Lemma floats_source_column raw name :
  exists col, mapM float_cell (source_column raw name : list (cell F)) = Some col.
Proof.
  unfold source_column. destruct (raw_cols raw !! name) as [xs|]; simpl.
  - unfold numeric_cell. rewrite (floats_map (fun c => _to_number (PyStr (default "nan" c)))).
    eauto.
  - rewrite floats_replicate. eauto.
Qed.

Lemma floats_fillna (a b : list (cell F)) :
  is_Some (mapM float_cell a) -> is_Some (mapM float_cell b) ->
  is_Some (mapM float_cell (fillna a b)).
Proof.
  rewrite !mapM_is_Some. unfold fillna. intros Ha. revert b.
  induction Ha as [|x a Hx Ha IH]; intros b Hb; [constructor|].
  destruct Hb as [|y b Hy Hb]; simpl; [constructor|].
  constructor; [|by apply IH]. simpl. by destruct (isna x).
Qed.

(** The columns [lat], [lon] and the revenue measures of the normalised
    frame hold floats and missing values only. *)
Lemma measure_columns raw precision name :
  name ∈ ["lat"; "lon"] ++ revenue_measures ->
  exists col floats,
    columns (load_sales_csv to_datetime raw precision) !! name = Some col
    /\ mapM float_cell col = Some floats.
Proof.
  intros Hin. unfold revenue_measures in Hin. simpl in Hin.
  destruct (coordinate_columns to_datetime raw precision) as [Hlat Hlon].
  cbv zeta in Hlat, Hlon.
  repeat (apply elem_of_cons in Hin as [->|Hin]); [ | | | | | by apply elem_of_nil in Hin ].
  - rewrite Hlat. destruct (raw_cols raw !! "Georeferenciado") as [xs|].
    + eexists _, _. split; [done|].
      apply (floats_map (fun g => fst (_extract_latlon (PyStr (default "" g))))).
    + eexists _, _. split; [done|]. apply floats_replicate.
  - rewrite Hlon. destruct (raw_cols raw !! "Georeferenciado") as [xs|].
    + eexists _, _. split; [done|].
      apply (floats_map (fun g => snd (_extract_latlon (PyStr (default "" g))))).
    + eexists _, _. split; [done|]. apply floats_replicate.
  - rewrite load_sales_csv_unfold, margins_other, revenue_val_column by not_listed.
    destruct (floats_source_column raw "ValVentaLi") as [col Hcol]. eauto.
  - rewrite load_sales_csv_unfold, margins_other, revenue_vta_column by not_listed.
    destruct (floats_source_column raw "VtaFacturada") as [col Hcol]. eauto.
  - rewrite load_sales_csv_unfold, margins_other, revenue_default_column by not_listed.
    destruct (floats_fillna (source_column raw "VtaFacturada") (source_column raw "ValVentaLi"))
      as [col Hcol]; [by destruct (floats_source_column raw "VtaFacturada"); eauto
                     |by destruct (floats_source_column raw "ValVentaLi"); eauto|].
    eauto.
Qed.

(** X26: text that does not read as a number leaves a missing value: the
    coordinates and the revenue measures never hold a string. *)
Theorem measure_columns_numeric raw precision name i c :
  name ∈ ["lat"; "lon"] ++ revenue_measures ->
  cell_at (load_sales_csv to_datetime raw precision) name i = Some c ->
  c = NoneV \/ exists x, c = Flt x.
Proof.
  intros Hin. unfold cell_at.
  destruct (measure_columns raw precision name Hin) as (col & floats & -> & Hfl).
  intros Hc. apply mapM_Some in Hfl.
  destruct (Forall2_lookup_l _ _ _ _ _ Hfl Hc) as (o & _ & Ho).
  destruct c; try done; [by left | right; eauto].
Qed.

Lemma key_error_inv (df : NumFrame F) precision revenue_col label :
  aggregate_geo_clusters (Some df) precision revenue_col = KeyError label ->
  num_cols df !! revenue_col = None.
Proof.
  unfold aggregate_geo_clusters.
  destruct (empty df); [done|].
  destruct (num_cols df !! "lat"); [|done].
  destruct (num_cols df !! "lon"); [|done].
  destruct (num_cols df !! revenue_col); [|done].
  by destruct (dropna _).
Qed.

(** X27: aggregating a normalised frame by one of its revenue measures
    never raises. *)
Theorem normalised_frame_aggregates raw load_precision precision revenue_col :
  revenue_col ∈ revenue_measures ->
  exists l,
    aggregate_geo_clusters
      (Some (numeric_view (load_sales_csv to_datetime raw load_precision)))
      precision revenue_col = Returns l.
Proof.
  intros Hin.
  destruct (aggregate_geo_clusters _ precision revenue_col) as [l|label] eqn:E; [eauto|].
  apply key_error_inv in E. rewrite numeric_view_lookup in E.
  destruct (measure_columns raw load_precision revenue_col) as (col & floats & Hcol & Hfl).
  { apply elem_of_app. by right. }
  rewrite Hcol in E. simpl in E. congruence.
Qed.

Lemma select_no_lat n (lon rev : list (option F)) :
  dropna (select (replicate n None) lon rev) = [].
Proof.
  unfold dropna, select. revert lon rev.
  induction n as [|n IH]; intros lon rev; [done|].
  destruct lon as [|o lon]; [done|]. destruct rev as [|v rev]; [done|].
  simpl. apply IH.
Qed.

(** X28: a file without a [Georeferenciado] column gives no cluster. *)
Theorem no_georeference_no_clusters raw load_precision precision revenue_col :
  raw_cols raw !! "Georeferenciado" = None ->
  revenue_col ∈ revenue_measures ->
  aggregate_geo_clusters
    (Some (numeric_view (load_sales_csv to_datetime raw load_precision)))
    precision revenue_col = Returns [].
Proof.
  intros Hgeo Hin. unfold aggregate_geo_clusters.
  destruct (empty _); [done|].
  rewrite !numeric_view_lookup.
  destruct (coordinate_columns to_datetime raw load_precision) as [Hlat Hlon].
  cbv zeta in Hlat, Hlon. rewrite Hgeo in Hlat, Hlon. rewrite Hlat, Hlon.
  destruct (measure_columns raw load_precision revenue_col) as (col & floats & Hcol & Hfl).
  { apply elem_of_app. by right. }
  rewrite Hcol. cbn [mbind option_bind]. rewrite floats_replicate, Hfl.
  by rewrite select_no_lat.
Qed.

End Pipeline.

Section DashboardFacts.

Context {F : Type} `{PyFloatOps F}.
Variable to_datetime : list (option string) -> list (option Z).

Implicit Types (df : DataFrame F) (raw : RawFrame).

Lemma aggregate_renamed (df1 df2 : NumFrame F) precision col1 col2 :
  index_len df1 = index_len df2 ->
  num_cols df1 !! "lat" = num_cols df2 !! "lat" ->
  num_cols df1 !! "lon" = num_cols df2 !! "lon" ->
  num_cols df1 !! col1 = num_cols df2 !! col2 ->
  returned (aggregate_geo_clusters (Some df1) precision col1)
  = returned (aggregate_geo_clusters (Some df2) precision col2).
Proof.
  intros Hlen Hlat Hlon Hrev. unfold aggregate_geo_clusters, empty.
  rewrite <- Hlen, <- Hlat, <- Hlon, <- Hrev.
  destruct (index_len df1 =? 0)%nat; [done|]. cbn [orb].
  destruct (num_cols df1 !! "lat") as [lat|] eqn:Elat.
  - rewrite !bool_decide_eq_false_2; [| |].
    + destruct (num_cols df1 !! "lon"); [|done]. by destruct (num_cols df1 !! col1).
    + intros He. by rewrite He, lookup_empty in Hlat.
    + intros He. by rewrite He, lookup_empty in Elat.
  - by do 2 case_bool_decide.
Qed.

(** X29: the clusters of the heat map are those of the invoiced revenue
    [revenue_vta]: the column [revenue_used] the dashboard aggregates
    is a copy of it. *)
Theorem heat_map_uses_invoiced_revenue (filtered used : DataFrame F) geo_precision :
  with_revenue_used filtered = Some used ->
  cluster_agg used geo_precision
  = returned (aggregate_geo_clusters (Some (numeric_view filtered)) geo_precision
                                     "revenue_vta").
Proof.
  unfold with_revenue_used.
  destruct (columns filtered !! "revenue_vta") as [col|] eqn:Ecol; [|done].
  intros [= <-]. unfold cluster_agg, _get_cluster_agg.
  rewrite !setcol_other by done.
  assert (Hsame : returned (aggregate_geo_clusters
                              (Some (numeric_view (setcol "revenue_used" col filtered)))
                              geo_precision "revenue_used")
                  = returned (aggregate_geo_clusters (Some (numeric_view filtered))
                                                     geo_precision "revenue_vta")).
  { apply aggregate_renamed; rewrite ?numeric_view_lookup; try done.
    - by rewrite setcol_other.
    - by rewrite setcol_other.
    - by rewrite setcol_same, Ecol. }
  destruct (columns filtered !! "lat") as [lat|] eqn:Elat.
  - destruct (columns filtered !! "lon") as [lon|] eqn:Elon.
    + rewrite <- Hsame. by destruct (aggregate_geo_clusters _ _ "revenue_used").
    + unfold aggregate_geo_clusters. destruct (empty _); [done|].
      rewrite !numeric_view_lookup, Elat, Elon. simpl.
      by destruct (mapM float_cell lat).
  - unfold aggregate_geo_clusters. destruct (empty _); [done|].
    by rewrite !numeric_view_lookup, Elat.
Qed.

End DashboardFacts.

Section ClusterColumn.

Context {F : Type} `{PyFloatOps F}.
Variable to_datetime : list (option string) -> list (option Z).

Implicit Types (df : DataFrame F) (raw : RawFrame).

Lemma floats_inv (col : list (cell F)) floats :
  mapM float_cell col = Some floats -> col = opt_cell <$> floats.
Proof.
  intros Hm%mapM_Some. induction Hm as [|c o col floats Hc _ IH]; [done|].
  cbn [fmap list_fmap]. rewrite <- IH. f_equal.
  destruct c; try done; simpl in Hc; by injection Hc as <-.
Qed.

Lemma fillna_length (a b : list (cell F)) :
  length a = length b -> length (fillna a b) = length a.
Proof. intros Hl. unfold fillna. rewrite length_zip_with. lia. Qed.

Lemma measure_columns_length raw precision name col :
  raw_wf raw ->
  name ∈ ["lat"; "lon"] ++ revenue_measures ->
  columns (load_sales_csv to_datetime raw precision) !! name = Some col ->
  length col = raw_rows raw.
Proof.
  intros Hwf Hin. unfold revenue_measures in Hin. simpl in Hin.
  destruct (coordinate_columns to_datetime raw precision) as [Hlat Hlon].
  cbv zeta in Hlat, Hlon.
  repeat (apply elem_of_cons in Hin as [->|Hin]); [ | | | | | by apply elem_of_nil in Hin ].
  - rewrite Hlat. intros [= <-].
    destruct (raw_cols raw !! "Georeferenciado") as [xs|] eqn:E.
    + rewrite length_map. by apply (Hwf _ _ E).
    + by rewrite length_replicate.
  - rewrite Hlon. intros [= <-].
    destruct (raw_cols raw !! "Georeferenciado") as [xs|] eqn:E.
    + rewrite length_map. by apply (Hwf _ _ E).
    + by rewrite length_replicate.
  - rewrite load_sales_csv_unfold, margins_other, revenue_val_column by not_listed.
    intros [= <-]. by apply source_column_length.
  - rewrite load_sales_csv_unfold, margins_other, revenue_vta_column by not_listed.
    intros [= <-]. by apply source_column_length.
  - rewrite load_sales_csv_unfold, margins_other, revenue_default_column by not_listed.
    intros [= <-]. rewrite fillna_length; rewrite !source_column_length; done.
Qed.

Lemma located_rows_round precision (lat lon rev : list (option F)) col :
  mapM (fun p => geo_cluster_row precision (fst p) (snd p))
       (zip (opt_cell <$> lat) (opt_cell <$> lon)) = Some col ->
  Forall (fun r => is_Some (cluster_key precision r)) (dropna (select lat lon rev)).
Proof.
  revert lon rev col. unfold dropna, select.
  induction lat as [|a lat IH]; intros lon rev col; [constructor|].
  destruct lon as [|b lon]; [constructor|].
  destruct rev as [|v rev]; [constructor|].
  csimpl.
  destruct (geo_cluster_row precision (opt_cell a) (opt_cell b)) as [c|] eqn:Erow;
    csimpl; [|done].
  destruct (mapM _ _) as [col'|] eqn:Erest; csimpl; [|done].
  intros _. specialize (IH lon rev col' Erest).
  unfold with_coordinates at 1. cbn [c_lat c_lon c_rev fst snd].
  destruct a as [x|]; [|done]. destruct b as [y|]; [|done].
  destruct (negb (isnan x) && negb (isnan y)) eqn:Hnum; [|done].
  constructor; [|done].
  unfold geo_cluster_row in Erow. simpl in Erow. rewrite Hnum in Erow.
  unfold cluster_key; simpl.
  destruct (pyround x precision), (pyround y precision); try done.
Qed.

Lemma located_row_listed (lat lon rev : list (option F)) i x y v :
  lat !! i = Some (Some x) -> lon !! i = Some (Some y) -> rev !! i = Some v ->
  isnan x = false -> isnan y = false ->
  {| r_lat := x; r_lon := y; r_rev := v |} ∈ dropna (select lat lon rev).
Proof.
  intros Hx Hy Hv Hnx Hny. unfold dropna. apply list_elem_of_omap.
  exists {| c_lat := Some x; c_lon := Some y; c_rev := v |}. split.
  - apply list_elem_of_lookup. exists i. unfold select.
    rewrite lookup_zip_with, Hx. simpl.
    rewrite lookup_zip_with, Hy. simpl. by rewrite Hv.
  - unfold with_coordinates. simpl. by rewrite Hnx, Hny.
Qed.

Lemma measure_floats raw precision name :
  raw_wf raw ->
  name ∈ ["lat"; "lon"] ++ revenue_measures ->
  exists floats,
    columns (load_sales_csv to_datetime raw precision) !! name = Some (opt_cell <$> floats)
    /\ num_cols (numeric_view (load_sales_csv to_datetime raw precision)) !! name
       = Some floats
    /\ length floats = raw_rows raw.
Proof.
  intros Hwf Hin.
  destruct (measure_columns to_datetime raw precision name Hin) as (col & fl & Hcol & Hfl).
  pose proof (measure_columns_length raw precision name col Hwf Hin Hcol) as Hlen.
  pose proof (floats_inv _ _ Hfl) as ->.
  exists fl. split; [done|]. split.
  - rewrite numeric_view_lookup, Hcol. exact Hfl.
  - by rewrite length_fmap in Hlen.
Qed.

Lemma view_not_empty raw precision :
  raw_rows raw <> 0%nat ->
  empty (numeric_view (load_sales_csv to_datetime raw precision)) = false.
Proof.
  intros Hrows. unfold empty. apply orb_false_iff. split.
  - apply Nat.eqb_neq.
    change (nrows (load_sales_csv to_datetime raw precision) <> 0%nat).
    by rewrite load_sales_csv_unfold, nrows_margins, nrows_before_margins.
  - apply bool_decide_eq_false. intros He.
    destruct (measure_columns to_datetime raw precision "lat") as (col & fl & Hcol & Hfl);
      [listed|].
    pose proof (numeric_view_lookup (load_sales_csv to_datetime raw precision) "lat") as Hl.
    rewrite He, lookup_empty, Hcol in Hl. cbn [mbind option_bind] in Hl. congruence.
Qed.

Lemma geo_cluster_cell raw precision i a b lat lon :
  let df := load_sales_csv to_datetime raw precision in
  columns df !! "lat" = Some (opt_cell <$> lat) ->
  columns df !! "lon" = Some (opt_cell <$> lon) ->
  cell_at df "geo_cluster" i = Some (Tup (Some a) (Some b)) ->
  exists x y,
    lat !! i = Some (Some x) /\ lon !! i = Some (Some y)
    /\ isnan x = false /\ isnan y = false
    /\ pyround x precision = Some a /\ pyround y precision = Some b
    /\ forall rev, Forall (fun r => is_Some (cluster_key precision r))
                           (dropna (select lat lon rev)).
Proof.
  intros df HL HN. subst df. unfold cell_at.
  rewrite (geo_cluster_column to_datetime raw precision _ _ HL HN).
  destruct (mapM _ (zip _ _)) as [col|] eqn:Ecol.
  2:{ intros Hcell. apply lookup_replicate in Hcell as [[=] _]. }
  intros Hcell. cbn [default] in Hcell.
  pose proof Ecol as Hall. apply mapM_Some in Hall.
  destruct (Forall2_lookup_r _ _ _ _ _ Hall Hcell) as ([la lo] & Hz & Hrow).
  apply lookup_zip_with_Some in Hz as (la' & lo' & [= <- <-] & Hla & Hlo).
  rewrite list_lookup_fmap in Hla, Hlo.
  destruct (lat !! i) as [ox|] eqn:Ex; [|done]. injection Hla as <-.
  destruct (lon !! i) as [oy|] eqn:Ey; [|done]. injection Hlo as <-.
  cbn [fst snd] in Hrow. unfold geo_cluster_row in Hrow.
  destruct ox as [x|]; [|by inversion Hrow].
  destruct oy as [y|];
    [|cbn in Hrow; rewrite andb_false_r in Hrow; by inversion Hrow].
  cbn [opt_cell isna] in Hrow.
  destruct (negb (isnan x) && negb (isnan y)) eqn:Hnum; [|by inversion Hrow].
  apply andb_true_iff in Hnum as [Hnx%negb_true_iff Hny%negb_true_iff].
  destruct (pyround x precision) as [rx|] eqn:Erx; [|done].
  destruct (pyround y precision) as [ry|] eqn:Ery; [|done].
  injection Hrow as -> ->.
  exists x, y. repeat split; try done.
  intros rev. by apply (located_rows_round precision lat lon rev col).
Qed.

(** X30: a pair of floats in [geo_cluster] is the key of a bucket when the
    normalised frame is aggregated at the same precision. *)
Theorem geo_cluster_names_a_bucket
    `{!ComparableFloats F} raw precision revenue_col i a b l :
  raw_wf raw ->
  revenue_col ∈ revenue_measures ->
  let df := load_sales_csv to_datetime raw precision in
  cell_at df "geo_cluster" i = Some (Tup (Some a) (Some b)) ->
  aggregate_geo_clusters (Some (numeric_view df)) precision revenue_col = Returns l ->
  exists bk, bk ∈ l /\ key_eqb (a, b) (cluster bk) = true.
Proof.
  intros Hwf Hin df Hcell Hret. subst df.
  destruct (measure_floats raw precision "lat" Hwf) as (Lf & HL & HLv & HlenL); [listed|].
  destruct (measure_floats raw precision "lon" Hwf) as (Nf & HN & HNv & HlenN); [listed|].
  destruct (measure_floats raw precision revenue_col Hwf) as (Rf & HR & HRv & HlenR);
    [apply elem_of_app; by right|].
  destruct (geo_cluster_cell raw precision i a b Lf Nf HL HN Hcell)
    as (x & y & Ex & Ey & Hnx & Hny & Erx & Ery & Hround).
  specialize (Hround Rf).
  assert (Hi : (i < raw_rows raw)%nat).
  { rewrite <- HlenL. by apply lookup_lt_Some in Ex. }
  destruct (lookup_lt_is_Some_2 Rf i) as [v Hv]; [lia|].
  apply aggregate_returns in Hret.
  rewrite (view_not_empty raw precision) in Hret by lia.
  assert (Hrec : table_records (numeric_view (load_sales_csv to_datetime raw precision))
                               revenue_col = select Lf Nf Rf).
  { unfold table_records. by rewrite HLv, HNv, HRv. }
  rewrite Hrec in Hret.
  apply mapM_is_Some in Hround as [keys Hk]. rewrite Hk in Hret. subst l.
  destruct (groupby_groups _ (keyed_keys_ok _ _ _ Hk)) as (_ & Hcover & _).
  destruct (Hcover ((a, b), {| r_lat := x; r_lon := y; r_rev := v |})) as (g & Hg & Hgk).
  { apply (keyed_rows_elem _ _ _ _ _ Hk). split.
    - by apply (located_row_listed Lf Nf Rf i).
    - unfold cluster_key. cbn [r_lat r_lon]. by rewrite Erx, Ery. }
  exists (summarise g). split; [|exact Hgk].
  rewrite sort_values_desc_perm. apply list_elem_of_fmap. by exists g.
Qed.

End ClusterColumn.

(** ** The further properties on sample tables *)

Lemma dated_raw_wf : raw_wf MoreSamples.dated_raw.
Proof.
  change (map_Forall (fun _ col => length col = 2%nat) (raw_cols MoreSamples.dated_raw)).
  by_evaluation.
Defined.

Lemma overflow_raw_wf : raw_wf MoreSamples.overflow_raw.
Proof.
  change (map_Forall (fun _ col => length col = 2%nat) (raw_cols MoreSamples.overflow_raw)).
  by_evaluation.
Defined.

Lemma float_table_wf : frame_wf Samples.float_table.
Proof.
  change (map_Forall (fun _ col => length col = 4%nat) (num_cols Samples.float_table)).
  by_evaluation.
Defined.

Lemma one_date_length col : length (MoreSamples.one_date col) = length col.
Proof. apply length_fmap. Defined.

(** X1 on ["1.234,56"]. *)
Lemma to_number_decimal_comma_sample :
  _to_number (F:=float) (PyStr (String.concat "." ["1"; "234"] +:+ "," +:+ "56"))
  = float_of_string (String.concat "" ["1"; "234"] +:+ "." +:+ "56").
Proof.
  apply (to_number_decimal_comma (F:=float) ["1"; "234"] "56").
  - repeat constructor.
  - reflexivity.
Defined.

(** X2 on ["1,234,567.89"]. *)
Lemma to_number_grouping_commas_sample :
  _to_number (F:=float) (PyStr (String.concat "," ["1"; "234"; "567"] +:+ "." +:+ "89"))
  = float_of_string (String.concat "" ["1"; "234"; "567"] +:+ "." +:+ "89").
Proof.
  apply (to_number_grouping_commas (F:=float) ["1"; "234"; "567"] "89").
  - repeat constructor.
  - reflexivity.
  - simpl. lia.
Defined.

(** X3 on ["12,345.67"], read as 12.34567. *)
Lemma to_number_single_comma_and_period_sample :
  _to_number (F:=float) (PyStr ("12" +:+ "," +:+ "345" +:+ "." +:+ "67"))
  = float_of_string ("12" +:+ "." +:+ "345" +:+ "67").
Proof.
  apply (to_number_single_comma_and_period (F:=float) "12" "345" "67"); reflexivity.
Defined.

(** X5 on ["$ 1 234,56"]. *)
Lemma to_number_ignores_decoration_sample :
  _to_number (F:=float) (PyStr "$ 1 234,56") = _to_number (PyStr (undecorated "$ 1 234,56")).
Proof.
  apply (to_number_ignores_decoration (F:=float) "$ 1 234,56"). reflexivity.
Defined.

(** X7 on ["10.5, -66.5"]. *)
Lemma extract_latlon_comma_pair_sample :
  _extract_latlon (F:=float) (PyStr ("10.5" +:+ "," +:+ " -66.5"))
  = (Some 10.5%float, Some (-66.5)%float).
Proof.
  apply (extract_latlon_comma_pair (F:=float) "10.5" " -66.5").
  - reflexivity.
  - reflexivity.
  - vm_compute. reflexivity.
  - vm_compute. reflexivity.
Defined.

(** X8 on coordinates written with decimal commas. *)
Lemma extract_latlon_many_commas_sample :
  _extract_latlon (F:=float) (PyStr "10,5,-66,9") = (None, None).
Proof.
  apply (extract_latlon_many_commas (F:=float) "10,5,-66,9").
  - reflexivity.
  - vm_compute. lia.
Defined.

(** X9 on the dated sample file. *)
Lemma normalised_frame_shape_sample :
  nrows (load_sales_csv (F:=float) MoreSamples.one_date MoreSamples.dated_raw 3) = raw_rows MoreSamples.dated_raw
  /\ df_wf (load_sales_csv (F:=float) MoreSamples.one_date MoreSamples.dated_raw 3).
Proof.
  apply (normalised_frame_shape (F:=float) MoreSamples.one_date one_date_length MoreSamples.dated_raw 3 dated_raw_wf).
Defined.

(** X10 on the column [Vendedor] of the dated sample file. *)
Lemma source_columns_pass_through_sample :
  columns (load_sales_csv (F:=float) MoreSamples.one_date MoreSamples.dated_raw 3) !! "Vendedor"
  = map text_cell <$> raw_cols MoreSamples.dated_raw !! "Vendedor".
Proof.
  apply (source_columns_pass_through (F:=float) MoreSamples.one_date MoreSamples.dated_raw 3 "Vendedor").
  unfold written_cols, numeric_cols. cbn [app]. not_listed.
Defined.

(** X11 on the column [lat], at precisions 3 and 0. *)
Lemma precision_only_affects_geo_cluster_sample :
  columns (load_sales_csv (F:=float) MoreSamples.one_date MoreSamples.dated_raw 3) !! "lat"
  = columns (load_sales_csv (F:=float) MoreSamples.one_date MoreSamples.dated_raw 0) !! "lat".
Proof.
  apply (precision_only_affects_geo_cluster (F:=float) MoreSamples.one_date MoreSamples.dated_raw 3 0 "lat").
  discriminate.
Defined.

(** X12 on the first cell of [VtaFacturada]. *)
Lemma numeric_columns_parsed_sample :
  cell_at (load_sales_csv (F:=float) MoreSamples.one_date MoreSamples.dated_raw 3) "VtaFacturada" 0
  = (fun c => opt_cell (_to_number (PyStr (default "nan" c))))
      <$> [Some "1.234,56"; None] !! 0%nat.
Proof.
  apply (numeric_columns_parsed (F:=float) MoreSamples.one_date MoreSamples.dated_raw 3 "VtaFacturada").
  - unfold numeric_cols. listed.
  - reflexivity.
Defined.

(** X13 on the second row of the dated sample file, whose date does not parse. *)
Lemma date_validity_flag_sample :
  let df := load_sales_csv (F:=float) MoreSamples.one_date MoreSamples.dated_raw 3 in
  (exists valid,
     cell_at df "FechaVta_valid" 1 = Some (Bool valid)
     /\ (valid = true <-> exists t, cell_at df "FechaVta" 1 = Some (Stamp t)))
  /\ (forall xs, raw_cols MoreSamples.dated_raw !! "FechaVta" = Some xs ->
        cell_at df "FechaVta_raw" 1 = text_cell <$> xs !! 1%nat).
Proof.
  apply (date_validity_flag (F:=float) MoreSamples.one_date MoreSamples.dated_raw 3 1 one_date_length dated_raw_wf).
  simpl. lia.
Defined.

(** X14 on the first row of the dated sample file. *)
Lemma coordinates_from_georef_sample :
  let df := load_sales_csv (F:=float) MoreSamples.one_date MoreSamples.dated_raw 3 in
  let pair := _extract_latlon (F:=float) (PyStr (default "" (Some "10.5,-66.5"))) in
  cell_at df "lat" 0 = Some (opt_cell (fst pair))
  /\ cell_at df "lon" 0 = Some (opt_cell (snd pair)).
Proof.
  apply (coordinates_from_georef (F:=float) MoreSamples.one_date MoreSamples.dated_raw 3
           [Some "10.5,-66.5"; Some "10,5,-66,9"] 0 (Some "10.5,-66.5")); reflexivity.
Defined.


(** X16 on the first row of the dated sample file, at precision 0. *)
Lemma geo_cluster_is_aggregation_key_sample :
  let df := load_sales_csv (F:=float) MoreSamples.one_date MoreSamples.dated_raw 0 in
  exists x y,
    cell_at df "lat" 0 = Some (Flt x) /\ cell_at df "lon" 0 = Some (Flt y)
    /\ isnan x = false /\ isnan y = false
    /\ forall rev, cluster_key 0 {| r_lat := x; r_lon := y; r_rev := rev |}
                   = Some (MoreSamples.rounded_lat, MoreSamples.rounded_lon).
Proof.
  apply (geo_cluster_is_aggregation_key (F:=float) MoreSamples.one_date MoreSamples.dated_raw 0 0
           MoreSamples.rounded_lat MoreSamples.rounded_lon).
  vm_compute. reflexivity.
Defined.

(** X17 on the second row of the file whose first latitude cannot be rounded. *)
Lemma geo_cluster_wiped_by_one_row_sample :
  cell_at (load_sales_csv (F:=float) Samples.no_dates MoreSamples.overflow_raw (-308)) "geo_cluster" 1
  = Some NoneV.
Proof.
  apply (geo_cluster_wiped_by_one_row (F:=float) Samples.no_dates MoreSamples.overflow_raw (-308) 0
           Samples.huge 0%float).
  - vm_compute. reflexivity.
  - vm_compute. reflexivity.
  - reflexivity.
  - reflexivity.
  - left. vm_compute. reflexivity.
  - simpl. lia.
Defined.

(** X26 on the first cell of [revenue_default]. *)
Lemma measure_columns_numeric_sample :
  let c := Flt (default PrimFloat.zero (Binary64.of_string "1234.56")) in
  c = NoneV \/ exists x, c = Flt x.
Proof.
  apply (measure_columns_numeric (F:=float) MoreSamples.one_date MoreSamples.dated_raw 3 "revenue_default" 0).
  - unfold revenue_measures. cbn [app]. listed.
  - vm_compute. reflexivity.
Defined.

(** X18 on the binary64 sample. *)
Lemma bucket_revenue_sums_members_sample :
  Forall (fun b => revenue b
                   = kahan_sum (present_values
                                  (r_rev <$> members 3 (cluster b)
                                               (table_records Samples.float_table "revenue_vta"))))
         (returned (aggregate_geo_clusters (Some Samples.float_table) 3 "revenue_vta")).
Proof.
  apply Forall_forall. intros b Hb.
  apply (bucket_revenue_sums_members Samples.float_table 3 "revenue_vta"
           (returned (aggregate_geo_clusters (Some Samples.float_table) 3 "revenue_vta")) b).
  - reflexivity.
  - vm_compute. reflexivity.
  - exact Hb.
Defined.

(** X19 on the binary64 sample. *)
Lemma bucket_centre_is_mean_sample :
  Forall (fun b =>
            let ms := members 3 (cluster b) (table_records Samples.float_table "revenue_vta") in
            (0 < length ms)%nat
            /\ latitude b = fdiv (kahan_sum (r_lat <$> ms)) (of_nat (length ms))
            /\ longitude b = fdiv (kahan_sum (r_lon <$> ms)) (of_nat (length ms)))
         (returned (aggregate_geo_clusters (Some Samples.float_table) 3 "revenue_vta")).
Proof.
  apply Forall_forall. intros b Hb.
  apply (bucket_centre_is_mean Samples.float_table 3 "revenue_vta"
           (returned (aggregate_geo_clusters (Some Samples.float_table) 3 "revenue_vta")) b).
  - reflexivity.
  - vm_compute. reflexivity.
  - exact Hb.
Defined.

(** X20 on the binary64 sample. *)
Lemma bucket_keys_distinct_sample :
  distinct_keys (returned (aggregate_geo_clusters (Some Samples.float_table) 3 "revenue_vta")).
Proof.
  apply (bucket_keys_distinct Samples.float_table 3 "revenue_vta").
  - reflexivity.
  - vm_compute. reflexivity.
Defined.

(** X21 on the first record of the binary64 sample. *)
Lemma located_record_has_one_bucket_sample :
  let l := returned (aggregate_geo_clusters (Some Samples.float_table) 3 "revenue_vta") in
  let c := {| c_lat := Some 10.25%float; c_lon := Some (-66.5)%float; c_rev := Some 5%float |} in
  exists b, b ∈ l /\ in_bucket 3 (cluster b) c = true
            /\ forall b', b' ∈ l -> in_bucket 3 (cluster b') c = true -> b' = b.
Proof.
  apply (located_record_has_one_bucket Samples.float_table 3 "revenue_vta").
  - exact float_table_wf.
  - reflexivity.
  - by_evaluation.
  - vm_compute. reflexivity.
  - vm_compute. apply list_elem_of_here.
  - vm_compute. eauto.
Defined.

(** X22 on the binary64 sample. *)
Lemma result_empty_iff_sample :
  returned (aggregate_geo_clusters (Some Samples.float_table) 3 "revenue_vta") = [] <->
  dropna (table_records Samples.float_table "revenue_vta") = []
  \/ Exists (fun r => cluster_key 3 r = None)
            (dropna (table_records Samples.float_table "revenue_vta")).
Proof.
  apply (result_empty_iff Samples.float_table 3 "revenue_vta").
  - exact float_table_wf.
  - reflexivity.
  - vm_compute. reflexivity.
Defined.

(** X23 on the binary64 sample. *)
Lemma counts_add_up_sample :
  sum_list (count <$> returned (aggregate_geo_clusters (Some Samples.float_table) 3
                                                       "revenue_vta"))
  = length (List.filter (fun r => notna (r_rev r))
                        (dropna (table_records Samples.float_table "revenue_vta"))).
Proof.
  apply (counts_add_up Samples.float_table 3 "revenue_vta").
  - exact float_table_wf.
  - reflexivity.
  - by_evaluation.
  - vm_compute. reflexivity.
Defined.

(** X24 on the binary64 sample and the same table with one more column. *)
Lemma reads_three_columns_sample :
  aggregate_geo_clusters (Some MoreSamples.wider_table) 3 "revenue_vta"
  = aggregate_geo_clusters (Some Samples.float_table) 3 "revenue_vta".
Proof.
  apply (reads_three_columns MoreSamples.wider_table Samples.float_table 3 "revenue_vta"); reflexivity.
Defined.

(** X25 on the binary64 sample, which has no column [revenue_val]. *)
Lemma key_error_iff_sample :
  aggregate_geo_clusters (Some Samples.float_table) 3 "revenue_val" = KeyError "revenue_val"
  <-> "revenue_val" = "revenue_val"
      /\ index_len Samples.float_table <> 0%nat
      /\ is_Some (num_cols Samples.float_table !! "lat")
      /\ is_Some (num_cols Samples.float_table !! "lon")
      /\ num_cols Samples.float_table !! "revenue_val" = None.
Proof.
  apply (key_error_iff Samples.float_table 3 "revenue_val" "revenue_val"). reflexivity.
Defined.

(** X27 on the dated sample file, by [revenue_default]. *)
Lemma normalised_frame_aggregates_sample :
  exists l,
    aggregate_geo_clusters
      (Some (numeric_view (load_sales_csv (F:=float) MoreSamples.one_date MoreSamples.dated_raw 3)))
      2 "revenue_default" = Returns l.
Proof.
  apply (normalised_frame_aggregates (F:=float) MoreSamples.one_date MoreSamples.dated_raw 3 2 "revenue_default").
  unfold revenue_measures. listed.
Defined.

(** X28 on the file without coordinates. *)
Lemma no_georeference_no_clusters_sample :
  aggregate_geo_clusters
    (Some (numeric_view (load_sales_csv (F:=float) Samples.no_dates MoreSamples.unlocated_raw 3)))
    3 "revenue_vta" = Returns [].
Proof.
  apply (no_georeference_no_clusters (F:=float) Samples.no_dates MoreSamples.unlocated_raw 3 3
           "revenue_vta").
  - reflexivity.
  - unfold revenue_measures. listed.
Defined.

(** X29 on the dated sample file, no filter applied. *)
Lemma heat_map_uses_invoiced_revenue_sample :
  let filtered := load_sales_csv (F:=float) MoreSamples.one_date MoreSamples.dated_raw 3 in
  cluster_agg (setcol "revenue_used" (source_column MoreSamples.dated_raw "VtaFacturada") filtered) 3
  = returned (aggregate_geo_clusters (Some (numeric_view filtered)) 3 "revenue_vta").
Proof.
  apply (heat_map_uses_invoiced_revenue (F:=float)
           (load_sales_csv (F:=float) MoreSamples.one_date MoreSamples.dated_raw 3)).
  vm_compute. reflexivity.
Defined.

(** X30 on the first row of the dated sample file, at precision 0. *)
Lemma geo_cluster_names_a_bucket_sample :
  exists bk,
    bk ∈ returned (aggregate_geo_clusters
                     (Some (numeric_view (load_sales_csv (F:=float) MoreSamples.one_date MoreSamples.dated_raw 0)))
                     0 "revenue_vta")
    /\ key_eqb (MoreSamples.rounded_lat, MoreSamples.rounded_lon) (cluster bk) = true.
Proof.
  apply (geo_cluster_names_a_bucket (F:=float) MoreSamples.one_date MoreSamples.dated_raw 0 "revenue_vta" 0).
  - exact dated_raw_wf.
  - unfold revenue_measures. listed.
  - vm_compute. reflexivity.
  - vm_compute. reflexivity.
Defined.

(** ** Revenue conservation on sample tables *)

(** C3, as the code has it: on the binary64 sample the revenue of each
    bucket is the compensated sum over its records, and on the exact
    sample the revenues of the buckets sum to the revenue of the records
    that have both coordinates. *)
Lemma revenue_conserved_on_sample :
  Forall (fun b => revenue b
                   = kahan_sum (present_values
                                  (r_rev <$> members 3 (cluster b)
                                               (table_records Samples.float_table "revenue_vta"))))
         (returned (aggregate_geo_clusters (Some Samples.float_table) 3 "revenue_vta"))
  /\ fsum (revenue <$> returned (aggregate_geo_clusters (Some Samples.exact_table) 3 "revenue_vta"))
     = located_revenue Samples.exact_table "revenue_vta".
Proof.
  split.
  - apply Forall_forall.
    refine (proj1 (proj2 (revenue_conserved_without_overflow
                            Samples.float_table 3 "revenue_vta" _ float_table_wf _ _ _))).
    + reflexivity.
    + by_evaluation.
    + vm_compute. reflexivity.
  - refine (proj2 (proj2 (revenue_conserved_without_overflow
                            Samples.exact_table 3 "revenue_vta" _ exact_table_wf _ _ _))
              exact_sums).
    + reflexivity.
    + by_evaluation.
    + vm_compute. reflexivity.
Defined.

(** C3 as stated fails, in two ways. [round(1.6e308, -308)] raises
    [OverflowError], the fallback leaves every key undefined and no
    bucket is returned, although the one record with coordinates has
    revenue 5. And where nothing raises, binary64 sums depend on the
    order of the additions: of the revenues 1e16, 1 and -1e16 the first
    and the third share a bucket, the buckets hold 1 and 0, which add up
    to 1, and the three revenues added from left to right give 0. *)
Lemma revenue_not_conserved :
  (exists l,
     aggregate_geo_clusters (Some Samples.overflow_table) (-308) "revenue_vta" = Returns l
     /\ pyround Samples.huge (-308) = None
     /\ fsum (revenue <$> l) <> located_revenue Samples.overflow_table "revenue_vta")
  /\ (exists l,
        aggregate_geo_clusters (Some Samples.cancelling_table) 3 "revenue_vta" = Returns l
        /\ Forall (fun r => is_Some (cluster_key 3 r))
                  (dropna (table_records Samples.cancelling_table "revenue_vta"))
        /\ revenue <$> l = [1%float; 0%float]
        /\ fsum (revenue <$> l) = 1%float
        /\ located_revenue Samples.cancelling_table "revenue_vta" = 0%float).
Proof.
  split.
  - eexists. split; [vm_compute; reflexivity|].
    split; [vm_compute; reflexivity|].
    intros Heq. apply (f_equal (fun x => PrimFloat.eqb x 5)) in Heq.
    vm_compute in Heq. discriminate Heq.
  - eexists. split; [vm_compute; reflexivity|].
    split; [by_evaluation|].
    repeat split; vm_compute; reflexivity.
Qed.
